(** * CodePolice: rule engine, fixer, CLI and suggestion proxy

    A shallow embedding of the Python sources under [src/]:
    - [core/fixer.py]           ([CodeFixer])
    - [core/rule_engine.py]     ([RuleEngine])
    - [core/parser.py]          ([CodeParser])
    - [rules/*.py]              (the rules and the issue dictionaries they build)
    - [cli.py]                  ([CLI._run_check], [CLI._run_fix], the reports)
    - [models/copilot_proxy.py] ([CopilotFixer], [CopilotRateLimiter])
    - [integrations/git_hook.py] ([GitHookManager])
    - [integrations/ci_cd.py]   ([CICDAdapter] and its subclasses)

    Conventions.  A Python [str] is a [string] whose characters are the
    code points below 256; a character above them (the signs some
    messages start with) is held as its UTF-8 bytes.  The bytes of a file
    are a [string] as well, and the codec between text and bytes belongs
    to the system.  A path is shown as [pathlib] prints it on a POSIX
    system.  A Python exception is a class name with its message.  Code that can raise returns an [outcome]; code that also
    mutates objects or the outside world threads a state, and the state
    reached when an exception is raised is kept, as in Python.  Clock
    readings are whole seconds.

    Part I holds the definitions, Part II the theorems. *)

From Stdlib Require Import ZArith List String Ascii Bool Lia.
From stdpp Require Import gmap strings list pretty.
Import ListNotations.

Set Warnings "-register-all".

Local Open Scope Z_scope.
Local Open Scope string_scope.
Local Open Scope list_scope.

(** * Part I: the embedding *)

(** ** Exceptions, outcomes, and the state-and-exception monad *)

Inductive exn : Type :=
| PyExc (cls : string) (msg : string).

Inductive outcome (A : Type) : Type :=
| Return (a : A)
| Raise (e : exn).

Arguments Return {A} a.
Arguments Raise {A} e.

Definition str_of_exn (e : exn) : string :=
  match e with PyExc _ msg => msg end.

Definition M (S A : Type) : Type := S -> outcome A * S.

Definition ret {S A : Type} (a : A) : M S A := fun s => (Return a, s).

Definition raise {S A : Type} (e : exn) : M S A := fun s => (Raise e, s).

Definition bind {S A B : Type} (m : M S A) (k : A -> M S B) : M S B :=
  fun s =>
    match m s with
    | (Return a, s') => k a s'
    | (Raise e, s') => (Raise e, s')
    end.

(** [try: m  except Exception as e: h e] *)
Definition try_except {S A : Type} (m : M S A) (h : exn -> M S A) : M S A :=
  fun s =>
    match m s with
    | (Return a, s') => (Return a, s')
    | (Raise e, s') => h e s'
    end.

Definition lift {S A : Type} (o : outcome A) : M S A := fun s => (o, s).

Definition get_state {S : Type} : M S S := fun s => (Return s, s).

Definition modify {S : Type} (f : S -> S) : M S unit := fun s => (Return tt, f s).

Notation "'let*' x ':=' m 'in' k" := (bind m (fun x => k))
  (at level 10, x name, m at level 100, k at level 200).
Notation "m ';;;' k" := (bind m (fun _ => k))
  (at level 100, k at level 200, right associativity).

(** [for x in l: body x] *)
Fixpoint for_each {S A : Type} (l : list A) (body : A -> M S unit) : M S unit :=
  match l with
  | [] => ret tt
  | x :: rest => body x ;;; for_each rest body
  end.

(** The same for code that raises but has no state. *)
Definition obind {A B : Type} (o : outcome A) (k : A -> outcome B) : outcome B :=
  match o with
  | Return a => k a
  | Raise e => Raise e
  end.

Fixpoint omap {A B : Type} (f : A -> outcome B) (l : list A) : outcome (list B) :=
  match l with
  | [] => Return []
  | x :: rest =>
      obind (f x) (fun y => obind (omap f rest) (fun ys => Return (y :: ys)))
  end.

(** ** Strings *)

Definition NL : string := String "010"%char "".
Definition ESC : string := String "027"%char "".
Definition DQ : string := String "034"%char "".

(** [sub in s] *)
Fixpoint str_in (sub s : string) : bool :=
  String.prefix sub s ||
  match s with
  | EmptyString => false
  | String _ rest => str_in sub rest
  end.

(** [c.lower()] for a code point below 256. *)
Definition lower_char (c : ascii) : ascii :=
  let n := nat_of_ascii c in
  if ((65 <=? n) && (n <=? 90))%nat then ascii_of_nat (n + 32)
  else if ((192 <=? n) && (n <=? 222) && negb (n =? 215))%nat then ascii_of_nat (n + 32)
  else c.

(** [s.lower()] *)
Fixpoint lower (s : string) : string :=
  match s with
  | EmptyString => EmptyString
  | String c rest => String (lower_char c) (lower rest)
  end.

(** [c.isspace()] for a code point below 256. *)
Definition isspace (c : ascii) : bool :=
  let n := nat_of_ascii c in
  (((9 <=? n) && (n <=? 13)) || ((28 <=? n) && (n <=? 32)) || (n =? 133) || (n =? 160))%nat.

Fixpoint lstrip (s : string) : string :=
  match s with
  | EmptyString => EmptyString
  | String c rest => if isspace c then lstrip rest else s
  end.

(** Drops trailing white space. *)
Fixpoint rstrip (s : string) : string :=
  match s with
  | EmptyString => EmptyString
  | String c rest =>
      match rstrip rest with
      | EmptyString => if isspace c then EmptyString else String c EmptyString
      | r => String c r
      end
  end.

(** [s.strip()] *)
Definition strip (s : string) : string := rstrip (lstrip s).

(** [s.split('\n')[0]]: the text before the first line feed. *)
Fixpoint first_line (s : string) : string :=
  match s with
  | EmptyString => EmptyString
  | String c rest =>
      if Ascii.eqb c "010"%char then EmptyString else String c (first_line rest)
  end.

(** [s.split('\n')] *)
Fixpoint split_lines (s : string) : list string :=
  match s with
  | EmptyString => [EmptyString]
  | String c rest =>
      if Ascii.eqb c "010"%char then EmptyString :: split_lines rest
      else
        match split_lines rest with
        | [] => [String c EmptyString]
        | l :: ls => String c l :: ls
        end
  end.

(** [str(n)] for an [int]. *)
Definition str_of_int (n : Z) : string := pretty n.

(** [c * n] for a one-character string. *)
Definition repeat_char (c : ascii) (n : nat) : string :=
  string_of_list_ascii (List.repeat c n).

(** ** Paths

    [str(Path(text))] as pathlib has it on POSIX: the text is cut at
    the slashes, empty parts and [.] are dropped, a leading slash is kept
    (two of them when there are exactly two), and the empty path is [.]. *)

(** [text.split('/')], with [part] the part being read. *)
Fixpoint path_parts_from (text part : string) : list string :=
  match text with
  | EmptyString => [part]
  | String c rest =>
      if Ascii.eqb c "/"%char then part :: path_parts_from rest EmptyString
      else path_parts_from rest (part +:+ String c EmptyString)
  end.

Definition kept_part (part : string) : bool :=
  negb (String.eqb part EmptyString || String.eqb part ".").

(** ['/'.join(parts)] *)
Fixpoint join_path (parts : list string) : string :=
  match parts with
  | [] => EmptyString
  | [part] => part
  | part :: rest => part +:+ "/" +:+ join_path rest
  end.

Definition path_root (text : string) : string :=
  match text with
  | String "/" (String "/" (String "/" _)) => "/"
  | String "/" (String "/" _) => "//"
  | String "/" _ => "/"
  | _ => EmptyString
  end.

Definition path_str (text : string) : string :=
  match path_root text +:+
        join_path (List.filter kept_part (path_parts_from text EmptyString)) with
  | EmptyString => "."
  | shown => shown
  end.

(** ** The syntax tree

    The fragment of the libcst tree that the rules read, with the
    attributes named as the rules read them.  Children are listed in
    source order.  White space and comments are not kept in the nodes; a
    module carries its text instead. *)

Inductive CSTNode : Type :=
| Name (value : string)
| Integer (value : string)
| SimpleString (value : string)
| Attribute (value attr : CSTNode)
| Arg (value : CSTNode)
| Call (func : CSTNode) (args : list CSTNode)
| CompFor (target iter : CSTNode)
| ListComp (element for_in : CSTNode)
| AssignTarget (target : CSTNode)
| Assign (targets : list CSTNode) (value : CSTNode)
| Expr (value : CSTNode)
| AsName (name : CSTNode)
| ImportAlias (name : CSTNode) (asname : option CSTNode)
| Import (names : list CSTNode)
| ImportFrom (module_ : option CSTNode) (names : list CSTNode)
| FunctionDef (name : CSTNode) (body : list CSTNode)
| SimpleStatementLine (body : list CSTNode).

(** [cst.Module]: the statements of the file, and [code], the text the
    module serialises to. *)
Module CstModule.
Record t : Type := mk {
  body : list CSTNode;
  code : string
}.
End CstModule.

(** [type(n).__name__] *)
Definition class_name (n : CSTNode) : string :=
  match n with
  | Name _ => "Name"
  | Integer _ => "Integer"
  | SimpleString _ => "SimpleString"
  | Attribute _ _ => "Attribute"
  | Arg _ => "Arg"
  | Call _ _ => "Call"
  | CompFor _ _ => "CompFor"
  | ListComp _ _ => "ListComp"
  | AssignTarget _ => "AssignTarget"
  | Assign _ _ => "Assign"
  | Expr _ => "Expr"
  | AsName _ => "AsName"
  | ImportAlias _ _ => "ImportAlias"
  | Import _ => "Import"
  | ImportFrom _ _ => "ImportFrom"
  | FunctionDef _ _ => "FunctionDef"
  | SimpleStatementLine _ => "SimpleStatementLine"
  end.

(** A node and everything below it, parent first, children left to right:
    the order in which a libcst visitor meets the nodes. *)
Fixpoint descendants (n : CSTNode) : list CSTNode :=
  n ::
  match n with
  | Name _ | Integer _ | SimpleString _ => []
  | Attribute v a => descendants v ++ descendants a
  | Arg v => descendants v
  | Call f args => descendants f ++ flat_map descendants args
  | CompFor t i => descendants t ++ descendants i
  | ListComp e f => descendants e ++ descendants f
  | AssignTarget t => descendants t
  | Assign ts v => flat_map descendants ts ++ descendants v
  | Expr v => descendants v
  | AsName nm => descendants nm
  | ImportAlias nm None => descendants nm
  | ImportAlias nm (Some a) => descendants nm ++ descendants a
  | Import ns => flat_map descendants ns
  | ImportFrom None ns => flat_map descendants ns
  | ImportFrom (Some md) ns => descendants md ++ flat_map descendants ns
  | FunctionDef nm b => descendants nm ++ flat_map descendants b
  | SimpleStatementLine b => flat_map descendants b
  end.

Definition module_nodes (m : CstModule.t) : list CSTNode :=
  flat_map descendants (CstModule.body m).

(** What an attribute read gives: a string, or another node. *)
Inductive attr_val : Type :=
| AStr (s : string)
| ANode (n : CSTNode).

(** [n.value] where the class has such an attribute. *)
Definition value_attr (n : CSTNode) : option attr_val :=
  match n with
  | Name v | Integer v | SimpleString v => Some (AStr v)
  | Attribute v _ | Arg v | Assign _ v | Expr v => Some (ANode v)
  | _ => None
  end.

(** What the rules take from the library besides the tree: the position
    attributes they read on a node ([None]: the node has no such
    attribute), the text of a node in an f-string, how a [MatchIfTrue]
    that is joined to a node matcher with [&] is evaluated on a candidate
    node, and the exception in which [m.ListComp(element=...)] ends where
    the matcher class has no field of that name (libcst calls it [elt]
    and raises [TypeError]). *)
Module Libcst.
Record t : Type := mk {
  lineno : CSTNode -> option Z;
  col_offset : CSTNode -> option Z;
  repr : CSTNode -> string;
  match_if_true : (CSTNode -> outcome bool) -> CSTNode -> outcome bool;
  list_comp_element : option exn
}.
End Libcst.

Definition AttributeError (n : CSTNode) (attr : string) : exn :=
  PyExc "AttributeError"
    ("'" +:+ class_name n +:+ "' object has no attribute '" +:+ attr +:+ "'").

Definition read_lineno (L : Libcst.t) (n : CSTNode) : outcome Z :=
  match Libcst.lineno L n with
  | Some z => Return z
  | None => Raise (AttributeError n "lineno")
  end.

Definition read_col_offset (L : Libcst.t) (n : CSTNode) : outcome Z :=
  match Libcst.col_offset L n with
  | Some z => Return z
  | None => Raise (AttributeError n "col_offset")
  end.

(** [f"{v}"] *)
Definition format_attr (L : Libcst.t) (v : attr_val) : string :=
  match v with
  | AStr s => s
  | ANode n => Libcst.repr L n
  end.

(** [m.findall(node, matcher)]: the nodes of the module the matcher
    accepts, in visiting order; a matcher that raises stops the scan. *)
Fixpoint filter_matches (p : CSTNode -> outcome bool) (l : list CSTNode)
  : outcome (list CSTNode) :=
  match l with
  | [] => Return []
  | n :: rest =>
      obind (p n) (fun b =>
      obind (filter_matches p rest) (fun ms =>
      Return (if b then n :: ms else ms)))
  end.

Definition findall (m : CstModule.t) (p : CSTNode -> outcome bool)
  : outcome (list CSTNode) :=
  filter_matches p (module_nodes m).

(** ** Issues

    The dictionaries built in [rules/*.py] and in [RuleEngine._check_rule]
    have a fixed set of keys; ['fix_type'] and ['node'] may be absent. *)
Module Issue.
Record t : Type := mk {
  rule : string;
  message : string;
  line : Z;
  column : Z;
  severity : string;
  fix_type : option string;
  suggestion : string;
  node : option CSTNode
}.
End Issue.

(** * core/fixer.py *)

Module CodeFixer.

Record t : Type := mk {
  module : CstModule.t;
  changes : list Issue.t
}.

Definition __init__ (m : CstModule.t) : t :=
  {| module := m; changes := [] |}.

Definition fix_method : Type := t -> Issue.t -> outcome CstModule.t.

Definition _fix_remove_node : fix_method := fun self issue => Return (module self).

Definition _fix_replace_node : fix_method := fun self issue => Return (module self).

Definition _fix_insert_code : fix_method := fun self issue => Return (module self).

Definition generate_diff (self : t) : string := "No changes applied".

(** [getattr(self, name, None)] for a name that starts with [_fix_]:
    the class has exactly three such attributes. *)
Definition getattr_fix (name : string) : option fix_method :=
  if String.eqb name "_fix_remove_node" then Some _fix_remove_node
  else if String.eqb name "_fix_replace_node" then Some _fix_replace_node
  else if String.eqb name "_fix_insert_code" then Some _fix_insert_code
  else None.

(** The fixer together with the lines [apply_fixes] has printed. *)
Record run : Type := mkRun {
  fixer : t;
  printed : list string
}.

(** One turn of the loop of [apply_fixes]. *)
Definition apply_fix (r : run) (issue : Issue.t) : run :=
  match Issue.fix_type issue with
  | None => r
  | Some ft =>
      match getattr_fix ("_fix_" +:+ ft) with
      | None => r
      | Some method =>
          match method (fixer r) issue with
          | Return m =>
              {| fixer := {| module := m; changes := changes (fixer r) ++ [issue] |};
                 printed := printed r |}
          | Raise e =>
              {| fixer := fixer r;
                 printed := printed r ++
                   ["Failed to fix " +:+ Issue.rule issue +:+ ": " +:+ str_of_exn e] |}
          end
      end
  end.

Fixpoint apply_fixes_from (r : run) (issues : list Issue.t) : run :=
  match issues with
  | [] => r
  | issue :: rest => apply_fixes_from (apply_fix r issue) rest
  end.

(** [apply_fixes]: the fixer after the call and what was printed; the
    value returned to the caller is [module] of that fixer. *)
Definition apply_fixes (self : t) (issues : list Issue.t) : run :=
  apply_fixes_from {| fixer := self; printed := [] |} issues.

Definition returned (r : run) : CstModule.t := module (fixer r).

(** The issues for which [apply_fixes] finds a method to call. *)
Definition has_fix_method (issue : Issue.t) : bool :=
  match Issue.fix_type issue with
  | None => false
  | Some ft =>
      match getattr_fix ("_fix_" +:+ ft) with
      | None => false
      | Some _ => true
      end
  end.

End CodeFixer.

(** * core/rule_engine.py *)

(** One entry of the [rules] mapping of [codepolice.yaml]; [fix_] is
    the key ['fix']. *)
Module RuleConfig.
Record t : Type := mk {
  node_type : option string;
  options : option (gmap string string);
  message : option string;
  level : option string;
  fix_ : option string
}.
End RuleConfig.

Module RuleEngine.

(** What [getattr(cst, name)] finds: nothing, an attribute that is
    not a class, or a class, given by its instance test. *)
Inductive cst_attr : Type :=
| NoAttr
| NotAClass
| Class (isinstance : CSTNode -> bool).

(** The global name [cst] as [apply_rules] finds it: [None] when the
    name is unbound, otherwise the attributes of the library module. *)
Record globals : Type := mkGlobals {
  cst : option (string -> cst_attr)
}.

Definition KeyError (key : string) : exn :=
  PyExc "KeyError" ("'" +:+ key +:+ "'").

Definition subscript (o : option string) (key : string) : outcome string :=
  match o with
  | Some v => Return v
  | None => Raise (KeyError key)
  end.

(** The state is [self.issues]. *)
Definition _check_rule (L : Libcst.t) (node : CSTNode) (rule_name : string)
    (rule_config : RuleConfig.t) : M (list Issue.t) unit :=
  match value_attr node with
  | Some (AStr v) =>
      match default ∅ (RuleConfig.options rule_config) !! "bad_pattern" with
      | Some bad_pattern =>
          if str_in bad_pattern v then
            let* msg := lift (subscript (RuleConfig.message rule_config) "message") in
            let* ln := lift (read_lineno L node) in
            let* col := lift (read_col_offset L node) in
            modify (fun issues => issues ++
              [ {| Issue.rule := rule_name;
                   Issue.message := msg;
                   Issue.line := ln;
                   Issue.column := col;
                   Issue.severity := default "warning" (RuleConfig.level rule_config);
                   Issue.fix_type := None;
                   Issue.suggestion :=
                     default "No fix available" (RuleConfig.fix_ rule_config);
                   Issue.node := None |} ])
          else ret tt
      | None => ret tt
      end
  | _ => ret tt
  end.

(** One turn of the loop of [apply_rules]. *)
Definition apply_rule (G : globals) (L : Libcst.t) (node : CSTNode)
    (entry : string * RuleConfig.t) : M (list Issue.t) unit :=
  let (rule_name, rule_config) := entry in
  match RuleConfig.node_type rule_config with
  | None => ret tt
  | Some nt =>
      match cst G with
      | None => raise (PyExc "NameError" "name 'cst' is not defined")
      | Some getattr_cst =>
          match getattr_cst nt with
          | NoAttr =>
              raise (PyExc "AttributeError"
                       ("module 'libcst' has no attribute '" +:+ nt +:+ "'"))
          | NotAClass =>
              raise (PyExc "TypeError"
                       "isinstance() arg 2 must be a type, a tuple of types, or a union")
          | Class node_type =>
              if node_type node then _check_rule L node rule_name rule_config
              else ret tt
          end
      end
  end.

(** [self.rules] keeps the order of the configuration file. *)
Definition apply_rules (G : globals) (L : Libcst.t)
    (rules : list (string * RuleConfig.t)) (node : CSTNode)
  : M (list Issue.t) unit :=
  for_each rules (apply_rule G L node).

End RuleEngine.

(** * rules/security.py *)

Definition read_value (n : CSTNode) : outcome attr_val :=
  match value_attr n with
  | Some v => Return v
  | None => Raise (AttributeError n "value")
  end.

(** [n.targets[0].target] *)
Definition first_target (n : CSTNode) : outcome CSTNode :=
  match n with
  | Assign [] _ => Raise (PyExc "IndexError" "tuple index out of range")
  | Assign (AssignTarget t :: _) _ => Return t
  | Assign (CompFor t _ :: _) _ => Return t
  | Assign (other :: _) _ => Raise (AttributeError other "target")
  | _ => Raise (AttributeError n "targets")
  end.

Module HardcodedSecretRule.

Definition secrets_keywords : list string := ["password"; "secret"; "token"; "key"].

(** The lambda of [secret_matcher]:
    [any(keyword in getattr(n.targets[0].target, 'value', '').lower() ...)]. *)
Definition guard (n : CSTNode) : outcome bool :=
  obind (first_target n) (fun t =>
    match value_attr t with
    | None => Return (existsb (fun keyword => str_in keyword (lower "")) secrets_keywords)
    | Some (AStr s) =>
        Return (existsb (fun keyword => str_in keyword (lower s)) secrets_keywords)
    | Some (ANode v) => Raise (AttributeError v "lower")
    end).

(** [m.Assign(value=m.SimpleString()) & m.MatchIfTrue(...)] *)
Definition secret_matcher (L : Libcst.t) (n : CSTNode) : outcome bool :=
  match n with
  | Assign _ (SimpleString _) => Libcst.match_if_true L guard n
  | _ => Return false
  end.

(** The dictionary appended for one match. *)
Definition issue_of (L : Libcst.t) (mt : CSTNode) : outcome Issue.t :=
  obind (first_target mt) (fun t =>
  obind (read_value t) (fun v =>
  obind (read_lineno L mt) (fun ln =>
  obind (read_col_offset L mt) (fun col =>
  Return {| Issue.rule := "hardcoded_secret";
            Issue.message := "Hardcoded secret detected in " +:+ format_attr L v;
            Issue.line := ln;
            Issue.column := col;
            Issue.severity := "error";
            Issue.fix_type := Some "replace";
            Issue.suggestion := "Use environment variables instead (os.getenv)";
            Issue.node := Some mt |})))).

Definition apply (L : Libcst.t) (node : CstModule.t) : outcome (list Issue.t) :=
  obind (findall node (secret_matcher L)) (omap (issue_of L)).

End HardcodedSecretRule.

(** * rules/convention.py *)

Module NamingConventionRule.

Definition is_lower_or_underscore (c : ascii) : bool :=
  let n := nat_of_ascii c in
  (((97 <=? n) && (n <=? 122)) || (n =? 95))%nat.

Definition is_digit (c : ascii) : bool :=
  let n := nat_of_ascii c in ((48 <=? n) && (n <=? 57))%nat.

Definition is_upper (c : ascii) : bool :=
  let n := nat_of_ascii c in ((65 <=? n) && (n <=? 90))%nat.

(** [[a-z0-9_]*$]: the end may stand before one final line feed. *)
Fixpoint snake_tail (s : string) : bool :=
  match s with
  | EmptyString => true
  | String c rest =>
      if is_lower_or_underscore c || is_digit c then snake_tail rest
      else Ascii.eqb c "010"%char && String.eqb rest EmptyString
  end.

(** [bool(re.match(r'^[a-z_][a-z0-9_]*$', name))] *)
Definition _is_snake_case (name : string) : bool :=
  match name with
  | EmptyString => false
  | String c rest => is_lower_or_underscore c && snake_tail rest
  end.

(** An underscore before every capital letter. *)
Fixpoint underscore_capitals (s : string) : string :=
  match s with
  | EmptyString => EmptyString
  | String c rest =>
      if is_upper c then String "_"%char (String c (underscore_capitals rest))
      else String c (underscore_capitals rest)
  end.

(** [re.sub(r'(?<!^)(?=[A-Z])', '_', name).lower()]: no underscore
    is put at the start of the name. *)
Definition _to_snake_case (name : string) : string :=
  lower (match name with
         | EmptyString => EmptyString
         | String c rest => String c (underscore_capitals rest)
         end).

(** [m.Assign(targets=[m.AssignTarget(target=m.Name())]) & m.MatchIfTrue(...)] *)
Definition var_matcher (L : Libcst.t) (n : CSTNode) : outcome bool :=
  match n with
  | Assign [AssignTarget (Name _)] _ =>
      Libcst.match_if_true L
        (fun n' =>
           obind (first_target n') (fun t =>
           obind (read_value t) (fun v =>
             match v with
             | AStr s => Return (negb (_is_snake_case s))
             | ANode _ =>
                 Raise (PyExc "TypeError" "expected string or bytes-like object")
             end))) n
  | _ => Return false
  end.

Definition read_name (n : CSTNode) : outcome CSTNode :=
  match n with
  | FunctionDef nm _ | AsName nm | ImportAlias nm _ => Return nm
  | _ => Raise (AttributeError n "name")
  end.

(** [m.FunctionDef(name=m.Name()) & m.MatchIfTrue(...)] *)
Definition func_matcher (L : Libcst.t) (n : CSTNode) : outcome bool :=
  match n with
  | FunctionDef (Name _) _ =>
      Libcst.match_if_true L
        (fun n' =>
           obind (read_name n') (fun nm =>
           obind (read_value nm) (fun v =>
             match v with
             | AStr s => Return (negb (_is_snake_case s))
             | ANode _ =>
                 Raise (PyExc "TypeError" "expected string or bytes-like object")
             end))) n
  | _ => Return false
  end.

(** The value a name of the tree has in the f-string and, for a
    string, its snake-case form. *)
Definition suggestion_of (v : attr_val) : outcome string :=
  match v with
  | AStr s => Return (_to_snake_case s)
  | ANode _ => Raise (PyExc "TypeError" "expected string or bytes-like object")
  end.

Definition var_issue (L : Libcst.t) (mt : CSTNode) : outcome Issue.t :=
  obind (first_target mt) (fun t =>
  obind (read_value t) (fun v =>
  obind (read_lineno L mt) (fun ln =>
  obind (read_col_offset L mt) (fun col =>
  obind (suggestion_of v) (fun sg =>
  Return {| Issue.rule := "naming_convention";
            Issue.message :=
              "Variable name '" +:+ format_attr L v +:+ "' should be snake_case";
            Issue.line := ln;
            Issue.column := col;
            Issue.severity := "warning";
            Issue.fix_type := Some "rename";
            Issue.suggestion := sg;
            Issue.node := Some mt |}))))).

Definition func_issue (L : Libcst.t) (mt : CSTNode) : outcome Issue.t :=
  obind (read_name mt) (fun nm =>
  obind (read_value nm) (fun v =>
  obind (read_lineno L mt) (fun ln =>
  obind (read_col_offset L mt) (fun col =>
  obind (suggestion_of v) (fun sg =>
  Return {| Issue.rule := "naming_convention";
            Issue.message :=
              "Function name '" +:+ format_attr L v +:+ "' should be snake_case";
            Issue.line := ln;
            Issue.column := col;
            Issue.severity := "warning";
            Issue.fix_type := Some "rename";
            Issue.suggestion := sg;
            Issue.node := Some mt |}))))).

Definition apply (L : Libcst.t) (node : CstModule.t) : outcome (list Issue.t) :=
  obind (findall node (var_matcher L)) (fun vars =>
  obind (omap (var_issue L) vars) (fun var_issues =>
  obind (findall node (func_matcher L)) (fun funcs =>
  obind (omap (func_issue L) funcs) (fun func_issues =>
  Return (var_issues ++ func_issues))))).

End NamingConventionRule.

Module UnusedImportRule.

(** A key of the [imports] dictionary: a string, or a node of the
    tree.  Nodes are compared by identity, so a node key is told apart
    by the place it was read from (which import, which of its names). *)
Inductive alias : Type :=
| AliasStr (s : string)
| AliasNode (imp_index name_index : nat) (n : CSTNode).

Definition alias_eqb (a b : alias) : bool :=
  match a, b with
  | AliasStr s, AliasStr s' => String.eqb s s'
  | AliasNode i j _, AliasNode i' j' _ => Nat.eqb i i' && Nat.eqb j j'
  | _, _ => false
  end.

(** [imports[k] = v]: a key already present keeps its place. *)
Fixpoint dict_set (k : alias) (v : CSTNode) (d : list (alias * CSTNode))
  : list (alias * CSTNode) :=
  match d with
  | [] => [(k, v)]
  | (k', v') :: rest =>
      if alias_eqb k k' then (k', v) :: rest else (k', v') :: dict_set k v rest
  end.

Definition to_alias (i j : nat) (v : attr_val) : alias :=
  match v with
  | AStr s => AliasStr s
  | ANode n => AliasNode i j n
  end.

(** [name.asname.name.value if name.asname else name.name.value] *)
Definition alias_of (i j : nat) (nm : CSTNode) : outcome alias :=
  match nm with
  | ImportAlias _ (Some a) =>
      obind (NamingConventionRule.read_name a) (fun n =>
      obind (read_value n) (fun v => Return (to_alias i j v)))
  | ImportAlias n None => obind (read_value n) (fun v => Return (to_alias i j v))
  | _ => Raise (AttributeError nm "asname")
  end.

(** The inner loop [for name in imp.names] of an [Import]. *)
Fixpoint add_names (i j : nat) (imp : CSTNode) (names : list CSTNode)
    (d : list (alias * CSTNode)) : outcome (list (alias * CSTNode)) :=
  match names with
  | [] => Return d
  | nm :: rest =>
      obind (alias_of i j nm) (fun a => add_names i (S j) imp rest (dict_set a imp d))
  end.

(** The inner loop of an [ImportFrom]; [full_name] is computed first
    and never used. *)
Fixpoint add_from_names (i j : nat) (imp : CSTNode) (names : list CSTNode)
    (d : list (alias * CSTNode)) : outcome (list (alias * CSTNode)) :=
  match names with
  | [] => Return d
  | nm :: rest =>
      obind (NamingConventionRule.read_name nm) (fun n =>
      obind (read_value n) (fun _ =>
      obind (alias_of i j nm) (fun a =>
        add_from_names i (S j) imp rest (dict_set a imp d))))
  end.

(** The first loop of [apply], over the imports found. *)
Fixpoint collect (i : nat) (imps : list CSTNode) (d : list (alias * CSTNode))
  : outcome (list (alias * CSTNode)) :=
  match imps with
  | [] => Return d
  | imp :: rest =>
      obind
        match imp with
        | Import names => add_names i 0 imp names d
        | ImportFrom md names =>
            obind (match md with
                   | Some n => obind (read_value n) (fun _ => Return tt)
                   | None => Return tt
                   end) (fun _ => add_from_names i 0 imp names d)
        | _ => Raise (AttributeError imp "module")
        end
        (fun d' => collect (S i) rest d')
  end.

Definition is_import (n : CSTNode) : outcome bool :=
  match n with
  | Import _ | ImportFrom _ _ => Return true
  | _ => Return false
  end.

Definition is_name (n : CSTNode) : outcome bool :=
  match n with
  | Name _ => Return true
  | _ => Return false
  end.

Definition name_value (n : CSTNode) : string :=
  match n with
  | Name v => v
  | _ => EmptyString
  end.

(** [alias not in used_names]: a node is never equal to a string. *)
Definition unused (used_names : gset string) (a : alias) : bool :=
  match a with
  | AliasStr s => negb (bool_decide (s ∈ used_names))
  | AliasNode _ _ _ => true
  end.

Definition format_alias (L : Libcst.t) (a : alias) : string :=
  match a with
  | AliasStr s => s
  | AliasNode _ _ n => Libcst.repr L n
  end.

Definition issue_of (L : Libcst.t) (entry : alias * CSTNode) : outcome Issue.t :=
  let (a, imp) := entry in
  obind (read_lineno L imp) (fun ln =>
  obind (read_col_offset L imp) (fun col =>
  Return {| Issue.rule := "unused_import";
            Issue.message := "Unused import: " +:+ format_alias L a;
            Issue.line := ln;
            Issue.column := col;
            Issue.severity := "warning";
            Issue.fix_type := Some "remove";
            Issue.suggestion := "Remove this unused import";
            Issue.node := Some imp |})).

Definition apply (L : Libcst.t) (node : CstModule.t) : outcome (list Issue.t) :=
  obind (findall node is_import) (fun imps =>
  obind (collect 0 imps []) (fun imports =>
  obind (findall node is_name) (fun name_nodes =>
    let used_names : gset string := list_to_set (List.map name_value name_nodes) in
    omap (issue_of L)
      (List.filter (fun entry => unused used_names (fst entry)) imports)))).

End UnusedImportRule.

(** * rules/performance.py *)

Module RepeatedCalculationRule.

(** [m.ListComp(element=m.Call())] *)
Definition repeated_call_matcher (n : CSTNode) : outcome bool :=
  match n with
  | ListComp (Call _ _) _ => Return true
  | _ => Return false
  end.

(** [match.element.func] *)
Definition element_func (mt : CSTNode) : outcome CSTNode :=
  match mt with
  | ListComp (Call f _) _ => Return f
  | ListComp e _ => Raise (AttributeError e "func")
  | _ => Raise (AttributeError mt "element")
  end.

(** [if func_name:] on [getattr(f, 'value', None)] *)
Definition truthy (v : option attr_val) : bool :=
  match v with
  | None => false
  | Some (AStr s) => negb (String.eqb s EmptyString)
  | Some (ANode _) => true
  end.

(** The body of the loop for one match: at most one issue. *)
Definition issues_of (L : Libcst.t) (mt : CSTNode) : outcome (list Issue.t) :=
  obind (element_func mt) (fun f =>
    match value_attr f with
    | Some func_name =>
        if truthy (Some func_name) then
          obind (read_lineno L mt) (fun ln =>
          obind (read_col_offset L mt) (fun col =>
          Return [ {| Issue.rule := "repeated_calculation";
                      Issue.message :=
                        "Repeated call to " +:+ format_attr L func_name +:+
                        " in list comprehension";
                      Issue.line := ln;
                      Issue.column := col;
                      Issue.severity := "warning";
                      Issue.fix_type := Some "refactor";
                      Issue.suggestion := "Move the calculation outside the loop";
                      Issue.node := Some mt |} ]))
        else Return []
    | None => Return []
    end).

(** The matcher is built first, and [findall] runs with it where the
    library accepts the keyword [element]. *)
Definition apply (L : Libcst.t) (node : CstModule.t) : outcome (list Issue.t) :=
  match Libcst.list_comp_element L with
  | Some e => Raise e
  | None =>
      obind (findall node repeated_call_matcher) (fun ms =>
      obind (omap (issues_of L) ms) (fun per_match => Return (concat per_match)))
  end.

End RepeatedCalculationRule.

(** * The outside world of the command line

    [files]: the bytes of each regular file.  [dirs]: for each
    directory, the paths [rglob("*.py")] yields below it, each as [str]
    gives it.  [stdout]: one entry for each [print].  [stderr]: one entry
    for each logger record.  Paths are the keys as [str(Path(...))] shows
    them. *)
Module World.
Record t : Type := mk {
  files : gmap string string;
  dirs : gmap string (list string);
  stdout : list string;
  stderr : list string
}.
End World.

Definition print (text : string) : M World.t unit :=
  modify (fun w =>
    {| World.files := World.files w; World.dirs := World.dirs w;
       World.stdout := World.stdout w ++ [text]; World.stderr := World.stderr w |}).

Definition log (text : string) : M World.t unit :=
  modify (fun w =>
    {| World.files := World.files w; World.dirs := World.dirs w;
       World.stdout := World.stdout w; World.stderr := World.stderr w ++ [text] |}).

(** What the command line takes from outside [src/]. *)
Module Env.
Record t : Type := mk {
  (** [f.read()] on the bytes of a file opened with [encoding='utf-8']:
      the text, decoded with universal newlines (CRLF and CR become LF),
      or the [UnicodeDecodeError]. *)
  decode : string -> outcome string;
  (** The bytes [f.write(text)] gives a file opened with ['w']: the text
      in the encoding of the locale with the line ends of the platform,
      or the [UnicodeEncodeError]. *)
  encode : string -> outcome string;
  (** The [OSError] in which [open(path, 'w')] ends where the path is
      not a directory (a missing parent directory, a file that may not be
      written), if any. *)
  open_error : string -> option exn;
  (** [libcst.parse_module] *)
  parse_module : string -> outcome CstModule.t;
  (** [RuleEngine.run_rules], which [cli.py] calls and
      [rule_engine.py] does not define: any function from a tree to
      findings or to an exception. *)
  run_rules : CstModule.t -> outcome (list Issue.t);
  (** [json.dumps(issues, indent=2)] *)
  json_dumps : list Issue.t -> outcome string;
  (** [str.format] on a field whose keyword was found, for what follows
      the keyword in the field (attribute and index parts, conversion,
      format specification) when that is not empty. *)
  format_field : string -> string -> outcome string
}.
End Env.

Definition set_file (w : World.t) (path bytes : string) : World.t :=
  {| World.files := <[path := bytes]> (World.files w); World.dirs := World.dirs w;
     World.stdout := World.stdout w; World.stderr := World.stderr w |}.

(** [with open(path, 'w') as f: f.write(text)]: opening truncates the
    file, so that a text that cannot be encoded leaves it empty. *)
Definition write_file (E : Env.t) (path text : string) : M World.t unit :=
  fun w =>
    match World.dirs w !! path with
    | Some _ =>
        (Raise (PyExc "IsADirectoryError" ("[Errno 21] Is a directory: '" +:+ path +:+ "'")), w)
    | None =>
        match Env.open_error E path with
        | Some e => (Raise e, w)
        | None =>
            match Env.encode E text with
            | Return bytes => (Return tt, set_file w path bytes)
            | Raise e => (Raise e, set_file w path EmptyString)
            end
        end
    end.

(** * core/parser.py *)

Module CodeParser.

Record t : Type := mk {
  file_path : string;
  source_code : string;
  module : CstModule.t
}.

(** [self.file_path] is given by its [str].  For a file that cannot
    be opened, the text after the colon is the reason the system gives;
    one fixed text stands for it. *)
Definition _read_file (E : Env.t) (file_path : string) : M World.t string :=
  fun w =>
    match World.files w !! file_path with
    | Some bytes =>
        match Env.decode E bytes with
        | Return text => (Return text, w)
        | Raise e =>
            (Raise (PyExc "RuntimeError"
                      ("Failed to read " +:+ file_path +:+ ": " +:+ str_of_exn e)), w)
        end
    | None =>
        (Raise (PyExc "RuntimeError"
                  ("Failed to read " +:+ file_path +:+ ": cannot open '" +:+
                   file_path +:+ "'")), w)
    end.

Definition _parse_module (E : Env.t) (path source : string) : M World.t CstModule.t :=
  match Env.parse_module E source with
  | Return m => ret m
  | Raise e =>
      raise (PyExc "RuntimeError"
               ("AST parsing error in " +:+ path +:+ ": " +:+ str_of_exn e))
  end.

Definition __init__ (E : Env.t) (file_path : string) : M World.t t :=
  let path := path_str file_path in
  let* source := _read_file E path in
  let* m := _parse_module E path source in
  ret {| file_path := path; source_code := source; module := m |}.

Definition get_ast (self : t) : CstModule.t := module self.

End CodeParser.

(** * cli.py *)

(** ** [str.format] with keyword arguments only

    The template is read from left to right, one field at a time, as
    the interpreter does: [{{] and [}}] stand for a brace; a field name
    runs to the first [}], [:] or [!] outside square brackets and may hold
    no [{]; a conversion is one character after [!]; a format
    specification runs to the brace that closes the field, braces inside
    it counted.  The keyword of a field is the text before the first [.]
    or [[]; an empty or numeric keyword asks for a positional argument,
    and there is none.  The values are given by their [str()]. *)

Inductive fmt_state : Type :=
| Lit
| Opened
| Closed
| FieldName (in_index : bool) (acc : string)
| Conversion (acc : string)
| Converted (acc : string)
| Spec (depth : nat) (acc : string).

Fixpoint split_keyword (field : string) : string * string :=
  match field with
  | EmptyString => (EmptyString, EmptyString)
  | String c rest =>
      if Ascii.eqb c "."%char || Ascii.eqb c "["%char ||
         Ascii.eqb c "!"%char || Ascii.eqb c ":"%char
      then (EmptyString, field)
      else let (k, more) := split_keyword rest in (String c k, more)
  end.

(** How a keyword reads as a position: the digits are taken from the
    left, and a number above [sys.maxsize] (of a 64-bit build) is refused
    where it is met. *)
Inductive position : Type :=
| Position (index : Z)
| NotAPosition
| TooManyDigits.

Fixpoint get_integer (s : string) (acc : Z) : position :=
  match s with
  | EmptyString => Position acc
  | String c rest =>
      if NamingConventionRule.is_digit c then
        let digit := Z.of_nat (nat_of_ascii c) - 48 in
        if Z.ltb ((9223372036854775807 - digit) / 10) acc then TooManyDigits
        else get_integer rest (10 * acc + digit)
      else NotAPosition
  end.

Fixpoint lookup_kw (key : string) (kwargs : list (string * string)) : option string :=
  match kwargs with
  | [] => None
  | (k, v) :: rest => if String.eqb k key then Some v else lookup_kw key rest
  end.

(** The value of one field; an empty keyword stands for the position 0. *)
Definition field_value (E : Env.t) (kwargs : list (string * string)) (field : string)
  : outcome string :=
  let (keyword, more) := split_keyword field in
  match get_integer keyword 0 with
  | TooManyDigits =>
      Raise (PyExc "ValueError" "Too many decimal digits in format string")
  | Position index =>
      Raise (PyExc "IndexError"
               ("Replacement index " +:+ str_of_int index +:+
                " out of range for positional args tuple"))
  | NotAPosition =>
      match lookup_kw keyword kwargs with
      | None => Raise (RuleEngine.KeyError keyword)
      | Some v =>
          match more with
          | EmptyString => Return v
          | _ => Env.format_field E v more
          end
      end
  end.

Definition snoc (s : string) (c : ascii) : string := s +:+ String c EmptyString.

Fixpoint format_from (E : Env.t) (kwargs : list (string * string))
    (st : fmt_state) (template out : string) : outcome string :=
  match template with
  | EmptyString =>
      match st with
      | Lit => Return out
      | Opened => Raise (PyExc "ValueError" "Single '{' encountered in format string")
      | Closed => Raise (PyExc "ValueError" "Single '}' encountered in format string")
      | FieldName _ _ => Raise (PyExc "ValueError" "expected '}' before end of string")
      | Conversion _ =>
          Raise (PyExc "ValueError" "end of string while looking for conversion specifier")
      | Converted _ | Spec _ _ =>
          Raise (PyExc "ValueError" "unmatched '{' in format spec")
      end
  | String c rest =>
      match st with
      | Lit =>
          if Ascii.eqb c "{"%char then format_from E kwargs Opened rest out
          else if Ascii.eqb c "}"%char then format_from E kwargs Closed rest out
          else format_from E kwargs Lit rest (snoc out c)
      | Opened =>
          if Ascii.eqb c "{"%char then format_from E kwargs Lit rest (snoc out c)
          else if Ascii.eqb c "["%char then
            format_from E kwargs (FieldName true (String c EmptyString)) rest out
          else if Ascii.eqb c "}"%char then
            obind (field_value E kwargs EmptyString) (fun v =>
              format_from E kwargs Lit rest (out +:+ v))
          else if Ascii.eqb c ":"%char then
            format_from E kwargs (Spec 0 (String c EmptyString)) rest out
          else if Ascii.eqb c "!"%char then
            format_from E kwargs (Conversion (String c EmptyString)) rest out
          else format_from E kwargs (FieldName false (String c EmptyString)) rest out
      | Closed =>
          if Ascii.eqb c "}"%char then format_from E kwargs Lit rest (snoc out c)
          else Raise (PyExc "ValueError" "Single '}' encountered in format string")
      | FieldName true acc =>
          format_from E kwargs (FieldName (negb (Ascii.eqb c "]"%char)) (snoc acc c)) rest out
      | FieldName false acc =>
          if Ascii.eqb c "{"%char then
            Raise (PyExc "ValueError" "unexpected '{' in field name")
          else if Ascii.eqb c "["%char then
            format_from E kwargs (FieldName true (snoc acc c)) rest out
          else if Ascii.eqb c "}"%char then
            obind (field_value E kwargs acc) (fun v =>
              format_from E kwargs Lit rest (out +:+ v))
          else if Ascii.eqb c ":"%char then
            format_from E kwargs (Spec 0 (snoc acc c)) rest out
          else if Ascii.eqb c "!"%char then
            format_from E kwargs (Conversion (snoc acc c)) rest out
          else format_from E kwargs (FieldName false (snoc acc c)) rest out
      | Conversion acc => format_from E kwargs (Converted (snoc acc c)) rest out
      | Converted acc =>
          if Ascii.eqb c "}"%char then
            obind (field_value E kwargs acc) (fun v =>
              format_from E kwargs Lit rest (out +:+ v))
          else if Ascii.eqb c ":"%char then
            format_from E kwargs (Spec 0 (snoc acc c)) rest out
          else Raise (PyExc "ValueError" "expected ':' after conversion specifier")
      | Spec depth acc =>
          if Ascii.eqb c "}"%char then
            match depth with
            | O =>
                obind (field_value E kwargs acc) (fun v =>
                  format_from E kwargs Lit rest (out +:+ v))
            | S d => format_from E kwargs (Spec d (snoc acc c)) rest out
            end
          else if Ascii.eqb c "{"%char then
            format_from E kwargs (Spec (S depth) (snoc acc c)) rest out
          else format_from E kwargs (Spec depth (snoc acc c)) rest out
      end
  end.

(** [template.format] applied to the keyword arguments [kwargs] *)
Definition str_format (E : Env.t) (template : string) (kwargs : list (string * string))
  : outcome string :=
  format_from E kwargs Lit template EmptyString.

(** ** Reports *)

Inductive report_format : Type :=
| text
| json
| html.

Module CheckArgs.
Record t : Type := mk {
  path : string;
  format : report_format;
  output : option string;
  no_copilot : bool;
  list_rules : bool
}.
End CheckArgs.

Module FixArgs.
Record t : Type := mk {
  path : string;
  apply : bool;
  only : option string
}.
End FixArgs.

(** The two signs the messages of [cli.py] start with, as the UTF-8
    bytes of the characters the file holds: U+00E2 U+0153 U+2026 for the
    check mark and U+00F0 U+0178 U+2019 U+00A1 for the light bulb. *)
Definition CHECK_MARK : string :=
  string_of_list_ascii
    [ "195"%char; "162"%char; "197"%char; "147"%char; "226"%char; "128"%char; "166"%char ].
Definition LIGHT_BULB : string :=
  string_of_list_ascii
    [ "195"%char; "176"%char; "197"%char; "184"%char; "226"%char; "128"%char; "153"%char;
      "194"%char; "161"%char ].

Module CLI.

(** The lines of the text report for one issue. *)
Definition text_entry (issue : Issue.t) : string :=
  let location :=
    str_of_int (Issue.line issue) +:+ ":" +:+ str_of_int (Issue.column issue) in
  let color :=
    if String.eqb (Issue.severity issue) "error" then ESC +:+ "[91m" else ESC +:+ "[93m" in
  let reset := ESC +:+ "[0m" in
  color +:+ Issue.rule issue +:+ " (" +:+ location +:+ ")" +:+ reset +:+ NL +:+
  "  Message: " +:+ Issue.message issue +:+ NL +:+
  "  Suggestion: " +:+ Issue.suggestion issue +:+ NL +:+
  repeat_char "-"%char 50 +:+ NL.

Fixpoint _generate_text_report (issues : list Issue.t) : string :=
  match issues with
  | [] => EmptyString
  | issue :: rest => text_entry issue +:+ _generate_text_report rest
  end.

Definition template : string :=
"
<!DOCTYPE html>
<html>
<head>
    <title>CodePolice Report</title>
    <style>
        body { font-family: Arial, sans-serif; padding: 20px; }
        .issue { border: 1px solid #ddd; padding: 15px; margin-bottom: 15px; }
        .rule { font-weight: bold; color: #2c3e50; }
        .location { color: #7f8c8d; float: right; }
        .message { margin-top: 10px; }
        .suggestion { margin-top: 10px; color: #27ae60; }
    </style>
</head>
<body>
    <h1>CodePolice Report</h1>
    <p>Total Issues: {total}</p>

    {issues}
</body>
</html>
".

Definition issue_template : string :=
  NL +:+ "<div class=" +:+ DQ +:+ "issue" +:+ DQ +:+ ">" +:+ NL +:+
  "    <div class=" +:+ DQ +:+ "rule" +:+ DQ +:+ ">{rule} <span class=" +:+ DQ +:+
    "location" +:+ DQ +:+ ">Line {line}:{column}</span></div>" +:+ NL +:+
  "    <div class=" +:+ DQ +:+ "message" +:+ DQ +:+ ">{message}</div>" +:+ NL +:+
  "    <div class=" +:+ DQ +:+ "suggestion" +:+ DQ +:+
    ">Suggestion: {suggestion}</div>" +:+ NL +:+
  "</div>" +:+ NL.

(** The keywords of [issue_template.format] for an issue, each with
    its [str()].  The key ['node'] is passed too; no field names it,
    and it is left out here. *)
Definition issue_kwargs (issue : Issue.t) : list (string * string) :=
  [ ("rule", Issue.rule issue);
    ("message", Issue.message issue);
    ("line", str_of_int (Issue.line issue));
    ("column", str_of_int (Issue.column issue));
    ("severity", Issue.severity issue) ] ++
  match Issue.fix_type issue with
  | Some ft => [("fix_type", ft)]
  | None => []
  end ++
  [ ("suggestion", Issue.suggestion issue) ].

Fixpoint html_issues (E : Env.t) (issues : list Issue.t) : outcome string :=
  match issues with
  | [] => Return EmptyString
  | issue :: rest =>
      obind (str_format E issue_template (issue_kwargs issue)) (fun entry =>
      obind (html_issues E rest) (fun more => Return (entry +:+ more)))
  end.

Definition _generate_html_report (E : Env.t) (issues : list Issue.t) : outcome string :=
  obind (html_issues E issues) (fun entries =>
    str_format E template
      [ ("total", str_of_int (Z.of_nat (length issues))); ("issues", entries) ]).

Definition _output_results (E : Env.t) (args : CheckArgs.t) (issues : list Issue.t)
  : M World.t unit :=
  let* output :=
    lift (match CheckArgs.format args with
          | json => Env.json_dumps E issues
          | html => _generate_html_report E issues
          | text => Return (_generate_text_report issues)
          end) in
  match CheckArgs.output args with
  | Some (String c p) =>
      write_file E (String c p) output ;;;
      print (CHECK_MARK +:+ " Report saved to " +:+ String c p)
  | _ => print output
  end.

Definition _list_rules : M World.t unit :=
  print "Available Rules:" ;;;
  print (repeat_char "="%char 30) ;;;
  for_each
    [ ("Security", ["hardcoded_secret"; "unsafe_eval"]);
      ("Performance", ["nested_list_comprehension"; "repeated_calculation"]);
      ("Convention", ["naming_convention"; "unused_import"]) ]
    (fun entry =>
       print (NL +:+ fst entry +:+ ":") ;;;
       for_each (snd entry) (fun r => print ("  - " +:+ r))).

(** The body shared by the two branches of [_run_check]: parse one
    file and extend [issues] with its findings. *)
Definition check_file (E : Env.t) (issues : list Issue.t) (py_file : string)
  : M World.t (list Issue.t) :=
  let* parser := CodeParser.__init__ E py_file in
  let* found := lift (Env.run_rules E (CodeParser.get_ast parser)) in
  ret (issues ++ found).

Fixpoint check_files (E : Env.t) (issues : list Issue.t) (py_files : list string)
  : M World.t (list Issue.t) :=
  match py_files with
  | [] => ret issues
  | py_file :: rest =>
      let* issues' := check_file E issues py_file in
      check_files E issues' rest
  end.

(** [_run_check].  The loop over the issues that asks the suggestion
    proxy does nothing: it is guarded by
    [hasattr(parser, 'get_code_snippet')], and [CodeParser] has no such
    attribute. *)
Definition _run_check (E : Env.t) (args : CheckArgs.t) : M World.t Z :=
  if CheckArgs.list_rules args then
    _list_rules ;;; ret 0
  else
    let path := path_str (CheckArgs.path args) in
    let* w := get_state in
    let* issues :=
      match World.dirs w !! path with
      | Some py_files => check_files E [] py_files
      | None => check_file E [] path
      end in
    _output_results E args issues ;;;
    ret (match issues with [] => 0 | _ => 1 end).

(** The body of the loop of [_run_fix] for one file. *)
Definition fix_file (E : Env.t) (args : FixArgs.t) (py_file : string)
  : M World.t unit :=
  let* parser := CodeParser.__init__ E py_file in
  let module := CodeParser.get_ast parser in
  let* issues := lift (Env.run_rules E module) in
  match issues with
  | [] => ret tt
  | _ =>
      print (NL +:+ "Processing " +:+ py_file +:+ ":") ;;;
      let issues' :=
        match FixArgs.only args with
        | Some (String c o) =>
            List.filter (fun i => String.eqb (Issue.rule i) (String c o)) issues
        | _ => issues
        end in
      let r := CodeFixer.apply_fixes (CodeFixer.__init__ module) issues' in
      for_each (CodeFixer.printed r) print ;;;
      print (CodeFixer.generate_diff (CodeFixer.fixer r)) ;;;
      if FixArgs.apply args then
        write_file E py_file (CstModule.code (CodeFixer.returned r)) ;;;
        print (CHECK_MARK +:+ " Applied fixes to " +:+ py_file)
      else
        print (LIGHT_BULB +:+ " Use --apply to apply these changes")
  end.

Definition _run_fix (E : Env.t) (args : FixArgs.t) : M World.t Z :=
  let path := path_str (FixArgs.path args) in
  let* w := get_state in
  match World.dirs w !! path, World.files w !! path with
  | None, None =>
      log ("Path not found: " +:+ path) ;;; ret 1
  | Some py_files, _ => for_each py_files (fix_file E args) ;;; ret 0
  | None, Some _ => for_each [path] (fix_file E args) ;;; ret 0
  end.

(** The status the process ends with: [sys.exit] of the value
    returned, or 1 after an exception nobody caught. *)
Definition exit_status (result : outcome Z) : Z :=
  match result with
  | Return code => code
  | Raise _ => 1
  end.

End CLI.

(** * models/copilot_proxy.py *)

(** The values [json.load] and [response.json()] give; [JNull] is
    [None]. *)
Inductive JSON : Type :=
| JNull
| JBool (b : bool)
| JNum (n : Z)
| JStr (s : string)
| JList (items : list JSON)
| JDict (entries : list (string * JSON)).

(** [bool(v)] *)
Definition json_truthy (v : JSON) : bool :=
  match v with
  | JNull => false
  | JBool b => b
  | JNum n => negb (Z.eqb n 0)
  | JStr s => negb (String.eqb s EmptyString)
  | JList items => match items with [] => false | _ => true end
  | JDict entries => match entries with [] => false | _ => true end
  end.

Definition type_name (v : JSON) : string :=
  match v with
  | JNull => "NoneType"
  | JBool _ => "bool"
  | JNum _ => "int"
  | JStr _ => "str"
  | JList _ => "list"
  | JDict _ => "dict"
  end.

Fixpoint lookup_entry (key : string) (entries : list (string * JSON)) : option JSON :=
  match entries with
  | [] => None
  | (k, v) :: rest => if String.eqb k key then Some v else lookup_entry key rest
  end.

(** [v.get(key, dflt)] *)
Definition json_get (v : JSON) (key : string) (dflt : JSON) : outcome JSON :=
  match v with
  | JDict entries => Return (default dflt (lookup_entry key entries))
  | _ =>
      Raise (PyExc "AttributeError"
               ("'" +:+ type_name v +:+ "' object has no attribute 'get'"))
  end.

(** [v[0]] *)
Definition json_first (v : JSON) : outcome JSON :=
  match v with
  | JList (x :: _) => Return x
  | JList [] => Raise (PyExc "IndexError" "list index out of range")
  | JStr (String c _) => Return (JStr (String c EmptyString))
  | JStr EmptyString => Raise (PyExc "IndexError" "string index out of range")
  | JDict _ => Raise (PyExc "KeyError" "0")
  | _ =>
      Raise (PyExc "TypeError" ("'" +:+ type_name v +:+ "' object is not subscriptable"))
  end.

(** [now - v] *)
Definition seconds_since (now : Z) (v : JSON) : outcome Z :=
  match v with
  | JNum n => Return (now - n)
  | JBool b => Return (now - (if b then 1 else 0))
  | _ =>
      Raise (PyExc "TypeError"
               ("unsupported operand type(s) for -: 'float' and '" +:+ type_name v +:+ "'"))
  end.

Module CopilotConfig.
Record t : Type := mk {
  api_endpoint : string;
  auth_token : option string;
  cache_dir : string;
  rate_limit : Z;
  timeout : Z;
  enabled : bool
}.
End CopilotConfig.

Module CopilotRateLimiter.

Record t : Type := mk {
  max_calls : Z;
  period : Z;
  calls : list Z
}.

Definition __init__ (max_calls : Z) : t :=
  {| max_calls := max_calls; period := 60; calls := [] |}.

Definition allow_request (now : Z) (self : t) : bool * t :=
  let recent := List.filter (fun t => Z.ltb (now - period self) t) (calls self) in
  if Z.leb (max_calls self) (Z.of_nat (length recent)) then
    (false, {| max_calls := max_calls self; period := period self; calls := recent |})
  else
    (true, {| max_calls := max_calls self; period := period self;
              calls := recent ++ [now] |}).

End CopilotRateLimiter.

Module Response.
Record t : Type := mk {
  status_code : Z;
  text : string;
  json : outcome JSON
}.
End Response.

(** [v.items()] *)
Definition json_items (v : JSON) : outcome (list (string * JSON)) :=
  match v with
  | JDict entries => Return entries
  | _ =>
      Raise (PyExc "AttributeError"
               ("'" +:+ type_name v +:+ "' object has no attribute 'items'"))
  end.

(** What the proxy takes from outside [src/]. *)
Module Net.
Record t : Type := mk {
  REQUESTS_AVAILABLE : bool;
  (** [requests.post(endpoint, headers=, json={"prompt": prompt}, timeout=)] *)
  post : string -> list (string * string) -> string -> Z -> outcome Response.t;
  (** [text.encode()]: the UTF-8 bytes of the text, or the
      [UnicodeEncodeError] of a text that holds a lone surrogate. *)
  encode : string -> outcome string;
  (** [hashlib.sha256(bytes).hexdigest()] *)
  sha256_hexdigest : string -> string;
  (** [json.load] on the text of a file *)
  json_load : string -> outcome JSON;
  (** the text [json.dump] writes *)
  json_dump : JSON -> string;
  (** whether [open(path, 'w')] succeeds *)
  can_write : string -> bool;
  (** The [OSError] that [path.exists()] lets through, if any: the one
      of a status that cannot be read for another reason than a missing
      file (no permission on the directory, for one). *)
  stat_error : string -> option exn;
  (** [str(v)] for a list or a dictionary *)
  repr : JSON -> string
}.
End Net.

Module CopilotFixer.

(** The object ([config], [rate_limiter]) with the part of the world
    it touches: the cache files, the clock and the logger. *)
Record t : Type := mk {
  config : CopilotConfig.t;
  rate_limiter : CopilotRateLimiter.t;
  files : gmap string string;
  clock : Z;
  stderr : list string
}.

Definition warn (msg : string) : M t unit :=
  modify (fun s =>
    {| config := config s; rate_limiter := rate_limiter s; files := files s;
       clock := clock s; stderr := stderr s ++ [msg] |}).

Definition cache_file (self : t) (key : string) : string :=
  CopilotConfig.cache_dir (config self) +:+ "/" +:+ key +:+ ".json".

Definition _get_cache_key (N : Net.t) (code_snippet : string) : outcome string :=
  obind (Net.encode N code_snippet) (fun bytes => Return (Net.sha256_hexdigest N bytes)).

(** [cache_file.exists()] stands before the [try]. *)
Definition _load_from_cache (N : Net.t) (key : string) : M t JSON :=
  let* self := get_state in
  match Net.stat_error N (cache_file self key) with
  | Some e => raise e
  | None =>
      match files self !! cache_file self key with
      | None => ret JNull
      | Some content =>
          try_except
            (let* data := lift (Net.json_load N content) in
             let* stamp := lift (json_get data "timestamp" (JNum 0)) in
             let* age := lift (seconds_since (clock self) stamp) in
             if Z.ltb age 86400 then lift (json_get data "response" JNull)
             else ret JNull)
            (fun e => warn ("Cache load error: " +:+ str_of_exn e) ;;; ret JNull)
      end
  end.

Definition _save_to_cache (N : Net.t) (key : string) (response : JSON) : M t unit :=
  try_except
    (let* self := get_state in
     if Net.can_write N (cache_file self key) then
       modify (fun s =>
         {| config := config s; rate_limiter := rate_limiter s;
            files :=
              <[cache_file self key :=
                  Net.json_dump N
                    (JDict [("timestamp", JNum (clock self)); ("response", response)])]>
                (files s);
            clock := clock s; stderr := stderr s |})
     else
       raise (PyExc "PermissionError"
                ("[Errno 13] Permission denied: '" +:+ cache_file self key +:+ "'")))
    (fun e => warn ("Cache save error: " +:+ str_of_exn e)).

Definition allow_request : M t bool :=
  fun s =>
    let (ok, limiter) := CopilotRateLimiter.allow_request (clock s) (rate_limiter s) in
    (Return ok,
     {| config := config s; rate_limiter := limiter; files := files s;
        clock := clock s; stderr := stderr s |}).

(** [f"{value}"] for a value of the context. *)
Definition value_str (N : Net.t) (v : JSON) : string :=
  match v with
  | JNull => "None"
  | JBool true => "True"
  | JBool false => "False"
  | JNum n => str_of_int n
  | JStr s => s
  | _ => Net.repr N v
  end.

Fixpoint context_lines (N : Net.t) (items : list (string * JSON)) : string :=
  match items with
  | [] => EmptyString
  | (key, value) :: rest =>
      key +:+ ": " +:+ value_str N value +:+ NL +:+ context_lines N rest
  end.

(** The context is [None] ([JNull]) or what the caller passed: a
    dictionary by the signature, any value in fact.  A value that is
    true and has no [items] raises [AttributeError]. *)
Definition _build_prompt (N : Net.t) (code_snippet : string) (context : JSON)
  : outcome string :=
  let prompt := "Please fix this Python code:" +:+ NL +:+ code_snippet +:+ NL +:+ NL in
  obind
    (if json_truthy context then
       obind (json_items context) (fun items =>
         Return (prompt +:+ "Context:" +:+ NL +:+ context_lines N items))
     else Return prompt)
    (fun prompt => Return (prompt +:+ NL +:+ "Fixed version:" +:+ NL)).

Definition _fallback_suggestion (code_snippet : string) : string :=
  let line0 := first_line (strip code_snippet) in
  if str_in "password = " line0 && str_in "'" line0 then
    "import os" +:+ NL +:+ "password = os.getenv('DB_PASSWORD')"
  else if str_in "eval(" line0 then
    "import ast" +:+ NL +:+ "result = ast.literal_eval(input_str)"
  else "# Consider refactoring this code for better security and performance".

Definition fallback (code_snippet : string) : M t JSON :=
  ret (JStr (_fallback_suggestion code_snippet)).

Definition headers (token : string) : list (string * string) :=
  [ ("Authorization", "Bearer " +:+ token);
    ("Content-Type", "application/json");
    ("User-Agent", "CodePolice/1.0") ].

(** [requests.post(...)] as [get_suggestion] calls it. *)
Definition post_request (N : Net.t) (cfg : CopilotConfig.t) (token prompt : string)
  : outcome Response.t :=
  Net.post N (CopilotConfig.api_endpoint cfg) (headers token) prompt
    (CopilotConfig.timeout cfg).

(** [response.json().get("choices", [{}])[0].get("text", "")] *)
Definition suggestion_of_response (response : Response.t) : outcome JSON :=
  obind (Response.json response) (fun body =>
  obind (json_get body "choices" (JList [JDict []])) (fun choices =>
  obind (json_first choices) (fun choice =>
  json_get choice "text" (JStr EmptyString)))).

(** The [try] block of [get_suggestion] with its handler. *)
Definition request (N : Net.t) (cfg : CopilotConfig.t) (token code_snippet prompt : string)
    (cache_key : string) : M t JSON :=
  try_except
    (let* response := lift (post_request N cfg token prompt) in
     if Z.eqb (Response.status_code response) 200 then
       let* suggestion := lift (suggestion_of_response response) in
       _save_to_cache N cache_key suggestion ;;;
       ret suggestion
     else
       warn ("Copilot API error: " +:+ str_of_int (Response.status_code response) +:+
             " - " +:+ Response.text response) ;;;
       fallback code_snippet)
    (fun e =>
       warn ("Connection error: " +:+ str_of_exn e) ;;;
       fallback code_snippet).

(** The cache key, the look into the cache and the prompt are computed
    before the [try] block: what they raise reaches the caller. *)
Definition get_suggestion (N : Net.t) (code_snippet : string) (context : JSON)
  : M t JSON :=
  let* self := get_state in
  let cfg := config self in
  if negb (CopilotConfig.enabled cfg) then fallback code_snippet
  else if negb (Net.REQUESTS_AVAILABLE N) then
    warn "Requests library not available - using fallback suggestions" ;;;
    fallback code_snippet
  else
    match CopilotConfig.auth_token cfg with
    | Some (String c tk) =>
        let* cache_key := lift (_get_cache_key N code_snippet) in
        let* cached := _load_from_cache N cache_key in
        if json_truthy cached then ret cached
        else
          let* allowed := allow_request in
          if negb allowed then
            warn "GitHub Copilot rate limit exceeded - using fallback suggestions" ;;;
            fallback code_snippet
          else
            let* prompt := lift (_build_prompt N code_snippet context) in
            request N cfg (String c tk) code_snippet prompt cache_key
    | _ =>
        warn "GitHub Copilot token not configured - using fallback suggestions" ;;;
        fallback code_snippet
    end.

End CopilotFixer.

(** * rules/security.py: the [eval] rule *)

Module UnsafeEvalRule.

(** [m.Call(func=m.Name("eval"))] *)
Definition eval_matcher (n : CSTNode) : outcome bool :=
  match n with
  | Call (Name f) _ => Return (String.eqb f "eval")
  | _ => Return false
  end.

Definition issue_of (L : Libcst.t) (mt : CSTNode) : outcome Issue.t :=
  obind (read_lineno L mt) (fun ln =>
  obind (read_col_offset L mt) (fun col =>
  Return {| Issue.rule := "unsafe_eval";
            Issue.message := "Potential code execution vulnerability through eval()";
            Issue.line := ln;
            Issue.column := col;
            Issue.severity := "error";
            Issue.fix_type := Some "remove";
            Issue.suggestion := "Replace with ast.literal_eval() or input validation";
            Issue.node := Some mt |})).

Definition apply (L : Libcst.t) (node : CstModule.t) : outcome (list Issue.t) :=
  obind (findall node eval_matcher) (omap (issue_of L)).

End UnsafeEvalRule.

(** ** The shape of a tree *)

(** The nodes directly below a node, in source order. *)
Definition children (n : CSTNode) : list CSTNode :=
  match n with
  | Name _ | Integer _ | SimpleString _ => []
  | Attribute v a => [v; a]
  | Arg v => [v]
  | Call f args => f :: args
  | CompFor t i => [t; i]
  | ListComp e f => [e; f]
  | AssignTarget t => [t]
  | Assign ts v => ts ++ [v]
  | Expr v => [v]
  | AsName nm => [nm]
  | ImportAlias nm None => [nm]
  | ImportAlias nm (Some a) => [nm; a]
  | Import ns => ns
  | ImportFrom None ns => ns
  | ImportFrom (Some md) ns => md :: ns
  | FunctionDef nm b => nm :: b
  | SimpleStatementLine b => b
  end.

(** An import name that binds a plain identifier: [import os],
    [import os.path as p], [from a import b], [from a import b as c]. *)
Definition binds_identifier (nm : CSTNode) : bool :=
  match nm with
  | ImportAlias (Name _) None => true
  | ImportAlias (Name _) (Some (AsName (Name _))) => true
  | ImportAlias (Attribute _ _) (Some (AsName (Name _))) => true
  | _ => false
  end.

(** An import statement all of whose names bind plain identifiers. *)
Definition plain_import (n : CSTNode) : bool :=
  match n with
  | Import names => forallb binds_identifier names
  | ImportFrom None names => forallb binds_identifier names
  | ImportFrom (Some (Name _)) names => forallb binds_identifier names
  | ImportFrom (Some (Attribute _ _)) names => forallb binds_identifier names
  | ImportFrom (Some _) _ => false
  | _ => true
  end.

(** [import a.b]: a dotted name without [as]. *)
Definition dotted_import (n : CSTNode) : bool :=
  match n with
  | Import (ImportAlias (Attribute _ _) None :: _) => true
  | _ => false
  end.

(** * integrations/git_hook.py

    The hooks directory of the repository, [.git/hooks]: [None] when it
    does not exist, else its regular files by path, each with its text
    and its permission bits; [create_mode] is the mode [open(path, 'w')]
    gives a file it creates.  The calls of the system fail for a missing
    file or directory only, and renaming onto an existing file replaces
    it, as POSIX has it.  Text is given by its UTF-8 bytes. *)
Module Repo.
Record t : Type := mk {
  hooks : option (gmap string (string * Z));
  create_mode : Z;
  stdout : list string
}.
End Repo.












Module GitHookManager.






End GitHookManager.


(** * integrations/ci_cd.py *)

(** [repo_path] and [output_dir] are given by the [str] of the path. *)
Module CIEnvironment.
Record t : Type := mk {
  name : string;
  is_ci : bool;
  repo_path : string;
  output_dir : string
}.
End CIEnvironment.

(** [key in os.environ] *)
Definition has_key (key : string) (environ : gmap string string) : bool :=
  match environ !! key with
  | Some _ => true
  | None => false
  end.


(** The four classes of the module; a method a subclass does not
    define is the one of [CICDAdapter]. *)
Inductive adapter_class : Type :=
| BaseAdapter
| GitHubActionsAdapter
| GitLabCIAdapter
| CircleCIAdapter.

Module CICDAdapter.

Record t : Type := mk {
  cls : adapter_class;
  env : CIEnvironment.t
}.

Definition _detect_environment (environ : gmap string string) : CIEnvironment.t :=
  if has_key "GITHUB_ACTIONS" environ then
    {| CIEnvironment.name := "github"; CIEnvironment.is_ci := true;
       CIEnvironment.repo_path := path_str (default "." (environ !! "GITHUB_WORKSPACE"));
       CIEnvironment.output_dir := "/tmp/codepolice" |}
  else if has_key "GITLAB_CI" environ then
    {| CIEnvironment.name := "gitlab"; CIEnvironment.is_ci := true;
       CIEnvironment.repo_path := path_str (default "." (environ !! "CI_PROJECT_DIR"));
       CIEnvironment.output_dir := "/tmp/codepolice" |}
  else if has_key "CIRCLECI" environ then
    {| CIEnvironment.name := "circleci"; CIEnvironment.is_ci := true;
       CIEnvironment.repo_path :=
         path_str (default "." (environ !! "CIRCLE_WORKING_DIRECTORY"));
       CIEnvironment.output_dir := "/tmp/codepolice" |}
  else
    {| CIEnvironment.name := "local"; CIEnvironment.is_ci := false;
       CIEnvironment.repo_path := ".";
       CIEnvironment.output_dir := "reports/codepolice" |}.

Definition __init__ (c : adapter_class) (environ : gmap string string) : t :=
  {| cls := c; env := _detect_environment environ |}.

Definition NotImplementedError (msg : string) : exn := PyExc "NotImplementedError" msg.

Definition github_config (output_dir : string) : string :=
  "name: CodePolice Analysis" +:+ NL +:+
  "on:" +:+ NL +:+
  "  push:" +:+ NL +:+
  "    branches: [ main, master ]" +:+ NL +:+
  "  pull_request:" +:+ NL +:+
  "    branches: [ main, master ]" +:+ NL +:+
  NL +:+
  "jobs:" +:+ NL +:+
  "  codepolice-check:" +:+ NL +:+
  "    runs-on: ubuntu-latest" +:+ NL +:+
  "    steps:" +:+ NL +:+
  "    - name: Checkout code" +:+ NL +:+
  "      uses: actions/checkout@v3" +:+ NL +:+
  NL +:+
  "    - name: Setup Python" +:+ NL +:+
  "      uses: actions/setup-python@v4" +:+ NL +:+
  "      with:" +:+ NL +:+
  "        python-version: '3.x'" +:+ NL +:+
  NL +:+
  "    - name: Install CodePolice" +:+ NL +:+
  "      run: pip install codepolice" +:+ NL +:+
  NL +:+
  "    - name: Run CodePolice Analysis" +:+ NL +:+
  "      run: codepolice check . --format json --output " +:+ output_dir +:+ "/results.json" +:+ NL +:+
  NL +:+
  "    - name: Upload Report" +:+ NL +:+
  "      if: always()" +:+ NL +:+
  "      uses: actions/upload-artifact@v3" +:+ NL +:+
  "      with:" +:+ NL +:+
  "        name: codepolice-report" +:+ NL +:+
  "        path: " +:+ output_dir +:+ NL.

Definition gitlab_config (output_dir : string) : string :=
  "stages:" +:+ NL +:+
  "  - codepolice" +:+ NL +:+
  NL +:+
  "codepolice_check:" +:+ NL +:+
  "  image: python:3" +:+ NL +:+
  "  script:" +:+ NL +:+
  "    - pip install codepolice" +:+ NL +:+
  "    - codepolice check . --format json --output " +:+ output_dir +:+ "/results.json" +:+ NL +:+
  "  artifacts:" +:+ NL +:+
  "    paths:" +:+ NL +:+
  "      - " +:+ output_dir +:+ "/" +:+ NL.

Definition circleci_config (output_dir : string) : string :=
  "version: 2.1" +:+ NL +:+
  "jobs:" +:+ NL +:+
  "  codepolice-check:" +:+ NL +:+
  "    docker:" +:+ NL +:+
  "      - image: python:3" +:+ NL +:+
  "    steps:" +:+ NL +:+
  "      - checkout" +:+ NL +:+
  "      - run:" +:+ NL +:+
  "          name: Install CodePolice" +:+ NL +:+
  "          command: pip install codepolice" +:+ NL +:+
  "      - run:" +:+ NL +:+
  "          name: Run CodePolice Analysis" +:+ NL +:+
  "          command: codepolice check . --format json --output " +:+ output_dir +:+ "/results.json" +:+ NL +:+
  "      - store_artifacts:" +:+ NL +:+
  "          path: " +:+ output_dir +:+ NL +:+
  "workflows:" +:+ NL +:+
  "  version: 2" +:+ NL +:+
  "  codepolice:" +:+ NL +:+
  "    jobs:" +:+ NL +:+
  "      - codepolice-check" +:+ NL.

Definition generate_config (self : t) : outcome string :=
  match cls self with
  | BaseAdapter =>
      Raise (NotImplementedError "Must implement generate_config() in subclass")
  | GitHubActionsAdapter => Return (github_config (CIEnvironment.output_dir (env self)))
  | GitLabCIAdapter => Return (gitlab_config (CIEnvironment.output_dir (env self)))
  | CircleCIAdapter => Return (circleci_config (CIEnvironment.output_dir (env self)))
  end.


End CICDAdapter.

Module CICDAdapterFactory.

Definition get_adapter (environ : gmap string string) : CICDAdapter.t :=
  let env := CICDAdapter._detect_environment environ in
  if String.eqb (CIEnvironment.name env) "github" then
    CICDAdapter.__init__ GitHubActionsAdapter environ
  else if String.eqb (CIEnvironment.name env) "gitlab" then
    CICDAdapter.__init__ GitLabCIAdapter environ
  else if String.eqb (CIEnvironment.name env) "circleci" then
    CICDAdapter.__init__ CircleCIAdapter environ
  else CICDAdapter.__init__ BaseAdapter environ.

End CICDAdapterFactory.

(** * Sample trees, libraries and configurations *)

(** [password = "letmein123"] *)
Definition secret_text : string := "password = " +:+ DQ +:+ "letmein123" +:+ DQ.

Definition secret_assign : CSTNode :=
  Assign [AssignTarget (Name "password")] (SimpleString (DQ +:+ "letmein123" +:+ DQ)).

Definition secret_module : CstModule.t :=
  {| CstModule.body := [SimpleStatementLine [secret_assign]];
     CstModule.code := secret_text |}.

(** [import os] followed by [x = 1] *)
Definition import_text : string := "import os" +:+ NL +:+ "x = 1".

Definition import_os : CSTNode := Import [ImportAlias (Name "os") None].

Definition import_module : CstModule.t :=
  {| CstModule.body :=
       [ SimpleStatementLine [import_os];
         SimpleStatementLine [Assign [AssignTarget (Name "x")] (Integer "1")] ];
     CstModule.code := import_text |}.

(** [userName = 1] *)
Definition camel_module : CstModule.t :=
  {| CstModule.body :=
       [SimpleStatementLine [Assign [AssignTarget (Name "userName")] (Integer "1")]];
     CstModule.code := "userName = 1" |}.

(** A library in which every node answers [lineno] and [col_offset]
    and a joined [MatchIfTrue] runs its function on the node. *)
Definition positioned : Libcst.t :=
  {| Libcst.lineno := fun _ => Some 1;
     Libcst.col_offset := fun _ => Some 0;
     Libcst.repr := class_name;
     Libcst.match_if_true := fun guard n => guard n;
     Libcst.list_comp_element := None |}.

(** A library whose nodes have no position attribute and whose
    [ListComp] matcher has no field [element], as libcst is. *)
Definition unpositioned : Libcst.t :=
  {| Libcst.lineno := fun _ => None;
     Libcst.col_offset := fun _ => None;
     Libcst.repr := class_name;
     Libcst.match_if_true := fun guard n => guard n;
     Libcst.list_comp_element :=
       Some (PyExc "TypeError"
               "ListComp.__init__() got an unexpected keyword argument 'element'") |}.

(** The finding Scenario B expects from the unused-import rule. *)
Definition unused_import_finding : Issue.t :=
  {| Issue.rule := "unused_import";
     Issue.message := "Unused import: os";
     Issue.line := 1;
     Issue.column := 0;
     Issue.severity := "warning";
     Issue.fix_type := Some "remove";
     Issue.suggestion := "Remove this unused import";
     Issue.node := Some import_os |}.

(** The finding Scenario A expects from the hardcoded-secret rule. *)
Definition secret_finding : Issue.t :=
  {| Issue.rule := "hardcoded_secret";
     Issue.message := "Hardcoded secret detected in password";
     Issue.line := 1;
     Issue.column := 0;
     Issue.severity := "error";
     Issue.fix_type := Some "replace";
     Issue.suggestion := "Use environment variables instead (os.getenv)";
     Issue.node := Some secret_assign |}.

(** Two directives on the same node, named after the methods of the
    fixer. *)
Definition remove_directive : Issue.t :=
  {| Issue.rule := "unused_import";
     Issue.message := "Unused import: os";
     Issue.line := 1;
     Issue.column := 0;
     Issue.severity := "warning";
     Issue.fix_type := Some "remove_node";
     Issue.suggestion := "Remove this unused import";
     Issue.node := Some import_os |}.

Definition replace_directive : Issue.t :=
  {| Issue.rule := "import_style";
     Issue.message := "Replace this import";
     Issue.line := 1;
     Issue.column := 0;
     Issue.severity := "warning";
     Issue.fix_type := Some "replace_node";
     Issue.suggestion := "import os.path";
     Issue.node := Some import_os |}.

(** An issue as [RuleEngine._check_rule] builds it: no fix directive. *)
Definition plain_issue : Issue.t :=
  {| Issue.rule := "no_print";
     Issue.message := "found";
     Issue.line := 1;
     Issue.column := 0;
     Issue.severity := "warning";
     Issue.fix_type := None;
     Issue.suggestion := "No fix available";
     Issue.node := None |}.

(** The issue the naming rule builds for [userName = 1]. *)
Definition rename_issue : Issue.t :=
  {| Issue.rule := "naming_convention";
     Issue.message := "Variable name 'userName' should be snake_case";
     Issue.line := 1;
     Issue.column := 0;
     Issue.severity := "warning";
     Issue.fix_type := Some "rename";
     Issue.suggestion := "user_name";
     Issue.node := Some (Assign [AssignTarget (Name "userName")] (Integer "1")) |}.

(** A parser that knows the two sample texts. *)
Definition sample_parse (source : string) : outcome CstModule.t :=
  if String.eqb source secret_text then Return secret_module
  else if String.eqb source import_text then Return import_module
  else Raise (PyExc "ParserSyntaxError" "Syntax Error").

Definition sample_rules (m : CstModule.t) : outcome (list Issue.t) :=
  if String.eqb (CstModule.code m) secret_text then Return [secret_finding]
  else if String.eqb (CstModule.code m) import_text then Return [unused_import_finding]
  else Return [].

(** [bytes.decode('utf-8')] with universal newlines, for bytes that are
    UTF-8. *)
Fixpoint universal_newlines (bytes : string) : string :=
  match bytes with
  | EmptyString => EmptyString
  | String c rest =>
      if Ascii.eqb c "013"%char then
        String "010"%char
          match rest with
          | String c' rest' =>
              if Ascii.eqb c' "010"%char then universal_newlines rest'
              else universal_newlines rest
          | EmptyString => EmptyString
          end
      else String c (universal_newlines rest)
  end.

(** The same text with CRLF line ends. *)
Fixpoint crlf (text : string) : string :=
  match text with
  | EmptyString => EmptyString
  | String c rest =>
      if Ascii.eqb c "010"%char then String "013"%char (String "010"%char (crlf rest))
      else String c (crlf rest)
  end.

(** A POSIX system with a UTF-8 locale on which every file may be
    written. *)
Definition sample_env : Env.t :=
  {| Env.decode := fun bytes => Return (universal_newlines bytes);
     Env.encode := fun text => Return text;
     Env.open_error := fun _ => None;
     Env.parse_module := sample_parse;
     Env.run_rules := sample_rules;
     Env.json_dumps := fun _ => Raise (PyExc "TypeError" "Object is not JSON serializable");
     Env.format_field := fun v _ => Return v |}.

Definition sample_world (path source : string) : World.t :=
  {| World.files := {[ path := source ]};
     World.dirs := {[ "empty" := [] ]};
     World.stdout := [];
     World.stderr := [] |}.

(** The classes of the library module, each by its instance test. *)
Definition libcst_classes (name : string) : RuleEngine.cst_attr :=
  if String.eqb name "CSTNode" then RuleEngine.Class (fun _ => true)
  else if String.eqb name "parse_module" then RuleEngine.NotAClass
  else if existsb (String.eqb name)
            [ "Name"; "Integer"; "SimpleString"; "Attribute"; "Arg"; "Call"; "CompFor";
              "ListComp"; "AssignTarget"; "Assign"; "Expr"; "AsName"; "ImportAlias";
              "Import"; "ImportFrom"; "FunctionDef"; "SimpleStatementLine" ]
  then RuleEngine.Class (fun n => String.eqb (class_name n) name)
  else RuleEngine.NoAttr.

(** [rule_engine.py] with the name [cst] bound to the library. *)
Definition cst_bound : RuleEngine.globals :=
  {| RuleEngine.cst := Some libcst_classes |}.

(** [rule_engine.py] as it stands: it never imports the name [cst]. *)
Definition cst_unbound : RuleEngine.globals :=
  {| RuleEngine.cst := None |}.

(** A rule whose configuration has no ['node_type'], which the engine
    skips. *)
Definition style_rule : string * RuleConfig.t :=
  ("line_length",
   {| RuleConfig.node_type := None;
      RuleConfig.options := None;
      RuleConfig.message := Some "Line too long";
      RuleConfig.level := Some "warning";
      RuleConfig.fix_ := None |}).

(** A rule whose configuration has no ['message'], and a complete one. *)
Definition broken_rule : string * RuleConfig.t :=
  ("broken",
   {| RuleConfig.node_type := Some "SimpleString";
      RuleConfig.options := Some {[ "bad_pattern" := "letmein" ]};
      RuleConfig.message := None;
      RuleConfig.level := None;
      RuleConfig.fix_ := None |}).

Definition complete_rule : string * RuleConfig.t :=
  ("weak_password",
   {| RuleConfig.node_type := Some "SimpleString";
      RuleConfig.options := Some {[ "bad_pattern" := "letmein" ]};
      RuleConfig.message := Some "Weak password literal";
      RuleConfig.level := Some "error";
      RuleConfig.fix_ := None |}).

Definition secret_literal : CSTNode := SimpleString (DQ +:+ "letmein123" +:+ DQ).

Definition weak_password_issue : Issue.t :=
  {| Issue.rule := "weak_password";
     Issue.message := "Weak password literal";
     Issue.line := 1;
     Issue.column := 0;
     Issue.severity := "error";
     Issue.fix_type := None;
     Issue.suggestion := "No fix available";
     Issue.node := None |}.

(** [check a.py] with the defaults: text format, to the terminal. *)
Definition text_check : CheckArgs.t :=
  {| CheckArgs.path := "a.py"; CheckArgs.format := text; CheckArgs.output := None;
     CheckArgs.no_copilot := false; CheckArgs.list_rules := false |}.

(** ** The two policies of the specification that the code is checked
       against *)

(** The targets of two directives overlap when one node lies in the
    subtree of the other. *)
Definition targets_overlap (d1 d2 : Issue.t) : Prop :=
  exists n1 n2,
    Issue.node d1 = Some n1 /\ Issue.node d2 = Some n2 /\
    (In n1 (descendants n2) \/ In n2 (descendants n1)).

(** A notice about an issue among the lines printed. *)
Definition reported_skipped (d : Issue.t) (r : CodeFixer.run) : Prop :=
  exists notice, In notice (CodeFixer.printed r) /\ str_in (Issue.rule d) notice = true.

(** First directive wins, the second is skipped and reported. *)
Definition conflict_policy : Prop :=
  forall (m : CstModule.t) (d1 d2 : Issue.t),
    d1 <> d2 ->
    Issue.fix_type d1 <> None ->
    Issue.fix_type d2 <> None ->
    targets_overlap d1 d2 ->
    let r := CodeFixer.apply_fixes (CodeFixer.__init__ m) [d1; d2] in
    ~ In d2 (CodeFixer.changes (CodeFixer.fixer r)) /\ reported_skipped d2 r.

(** A rule that raises is caught, and the rules after it still run:
    with the library [L], the engine of [rule_engine.py] as it stands
    (the name [cst] unbound) ends every run normally, with at least the
    findings each rule gives on its own. *)
Definition fail_soft_policy (L : Libcst.t) : Prop :=
  forall (rules : list (string * RuleConfig.t)) (node : CSTNode),
  exists issues,
    RuleEngine.apply_rules cst_unbound L rules node [] = (Return tt, issues) /\
    forall entry found,
      In entry rules ->
      RuleEngine.apply_rule cst_unbound L node entry [] = (Return tt, found) ->
      incl found issues.

(** ** Predicates and summaries used in the theorems *)


Definition set_stderr (s : CopilotFixer.t) (lines : list string) : CopilotFixer.t :=
  {| CopilotFixer.config := CopilotFixer.config s;
     CopilotFixer.rate_limiter := CopilotFixer.rate_limiter s;
     CopilotFixer.files := CopilotFixer.files s;
     CopilotFixer.clock := CopilotFixer.clock s;
     CopilotFixer.stderr := lines |}.

(** What the cache gives for a key ([JNull] for nothing usable). *)
Definition cached_value (N : Net.t) (self : CopilotFixer.t) (key : string) : JSON :=
  match fst (CopilotFixer._load_from_cache N key self) with
  | Return c => c
  | Raise _ => JNull
  end.

Definition cache_miss (N : Net.t) (self : CopilotFixer.t) (key : string) : Prop :=
  json_truthy (cached_value N self key) = false.

Definition rate_limited (self : CopilotFixer.t) : Prop :=
  fst (CopilotRateLimiter.allow_request (CopilotFixer.clock self)
         (CopilotFixer.rate_limiter self)) = false.





(** A proxy with a token, an empty cache and no call made yet, and
    a network on which every request fails. *)
Definition sample_proxy : CopilotFixer.t :=
  {| CopilotFixer.config :=
       {| CopilotConfig.api_endpoint := "https://api.github.com/copilot_internal ";
          CopilotConfig.auth_token := Some "t0ken";
          CopilotConfig.cache_dir := ".copilot_cache";
          CopilotConfig.rate_limit := 10;
          CopilotConfig.timeout := 10;
          CopilotConfig.enabled := true |};
     CopilotFixer.rate_limiter := CopilotRateLimiter.__init__ 10;
     CopilotFixer.files := ∅;
     CopilotFixer.clock := 1000;
     CopilotFixer.stderr := [] |}.

Definition offline : Net.t :=
  {| Net.REQUESTS_AVAILABLE := true;
     Net.post := fun _ _ _ _ => Raise (PyExc "ConnectionError" "Connection refused");
     Net.encode := fun text => Return text;
     Net.sha256_hexdigest := fun s => s;
     Net.json_load := fun _ => Raise (PyExc "JSONDecodeError" "Expecting value");
     Net.json_dump := fun _ => EmptyString;
     Net.can_write := fun _ => true;
     Net.stat_error := fun _ => None;
     Net.repr := fun _ => EmptyString |}.

(** The same network on a system where the cache directory cannot be
    searched. *)
Definition permission_denied (path : string) : exn :=
  PyExc "PermissionError" ("[Errno 13] Permission denied: '" +:+ path +:+ "'").

(** The text a byte 128 on the command line becomes: the lone
    surrogate U+DC80, held here as the three bytes of its generalised
    UTF-8 form.  [str.encode] refuses it. *)
Definition lone_surrogate : string :=
  string_of_list_ascii [ "237"%char; "178"%char; "128"%char ].

Definition surrogates_not_allowed : exn :=
  PyExc "UnicodeEncodeError"
    "'utf-8' codec can't encode character '\udc80' in position 0: surrogates not allowed".

Definition guarded : Net.t :=
  {| Net.REQUESTS_AVAILABLE := true;
     Net.post := Net.post offline;
     Net.encode := Net.encode offline;
     Net.sha256_hexdigest := Net.sha256_hexdigest offline;
     Net.json_load := Net.json_load offline;
     Net.json_dump := Net.json_dump offline;
     Net.can_write := Net.can_write offline;
     Net.stat_error := fun path => Some (permission_denied path);
     Net.repr := Net.repr offline |}.

Definition unencodable : Net.t :=
  {| Net.REQUESTS_AVAILABLE := true;
     Net.post := Net.post offline;
     Net.encode := fun text =>
       if str_in lone_surrogate text then Raise surrogates_not_allowed else Return text;
     Net.sha256_hexdigest := Net.sha256_hexdigest offline;
     Net.json_load := Net.json_load offline;
     Net.json_dump := Net.json_dump offline;
     Net.can_write := Net.can_write offline;
     Net.stat_error := Net.stat_error offline;
     Net.repr := Net.repr offline |}.

(** A computation that leaves the files and the directories as they
    were, whether it returns or raises. *)
Definition keeps_disk {A : Type} (m : M World.t A) : Prop :=
  forall w, World.files (snd (m w)) = World.files w /\
            World.dirs (snd (m w)) = World.dirs w.

(** The parser gives back a module that serialises to the text it
    read (the round trip libcst promises). *)
Definition round_trip (E : Env.t) : Prop :=
  forall source m, Env.parse_module E source = Return m -> CstModule.code m = source.

(** Every key of the dictionary is a string that is the value of some
    [Name] node among [nodes]. *)
Definition keys_named (nodes : list CSTNode) (d : list (UnusedImportRule.alias * CSTNode))
  : Prop :=
  Forall (fun entry => exists s, fst entry = UnusedImportRule.AliasStr s /\
                                 In (Name s) nodes) d.

(** Some key of the dictionary is a node. *)
Definition has_node_key (d : list (UnusedImportRule.alias * CSTNode)) : Prop :=
  exists i j n v, In (UnusedImportRule.AliasNode i j n, v) d.

(** [import os.path] followed by [os.path.join()]. *)
Definition dotted_module : CstModule.t :=
  {| CstModule.body :=
       [ SimpleStatementLine
           [Import [ImportAlias (Attribute (Name "os") (Name "path")) None]];
         SimpleStatementLine
           [Expr (Call (Attribute (Attribute (Name "os") (Name "path")) (Name "join")) [])] ];
     CstModule.code := "import os.path" +:+ NL +:+ "os.path.join()" |}.

(** ASCII identifiers: a letter or an underscore, then letters, digits
    and underscores. *)
Definition is_ident_start (c : ascii) : bool :=
  NamingConventionRule.is_lower_or_underscore c || NamingConventionRule.is_upper c.

Definition is_ident_char (c : ascii) : bool :=
  is_ident_start c || NamingConventionRule.is_digit c.

Fixpoint all_ident_chars (s : string) : bool :=
  match s with
  | EmptyString => true
  | String c rest => is_ident_char c && all_ident_chars rest
  end.

Definition ascii_identifier (s : string) : bool :=
  match s with
  | EmptyString => false
  | String c rest => is_ident_start c && all_ident_chars rest
  end.

(** The issues whose ['fix_type'] is one of the three names for which
    [CodeFixer] has a method. *)
Definition effective_fix_type (issue : Issue.t) : bool :=
  match Issue.fix_type issue with
  | Some ft =>
      String.eqb ft "remove_node" || String.eqb ft "replace_node" ||
      String.eqb ft "insert_code"
  | None => false
  end.

(** The times at which the limiter grants a request when
    [allow_request] is called at the times [nows], one call after the
    other. *)
Fixpoint granted (self : CopilotRateLimiter.t) (nows : list Z) : list Z :=
  match nows with
  | [] => []
  | now :: rest =>
      let (ok, self') := CopilotRateLimiter.allow_request now self in
      (if ok then [now] else []) ++ granted self' rest
  end.

(** A clock that never goes back. *)
Fixpoint nondecreasing_from (last : Z) (nows : list Z) : bool :=
  match nows with
  | [] => true
  | now :: rest => Z.leb last now && nondecreasing_from now rest
  end.

Definition nondecreasing (nows : list Z) : bool :=
  match nows with
  | [] => true
  | now :: rest => nondecreasing_from now rest
  end.

(** [t] lies in the window of length [p] that ends at [a + p]: after
    [a], not after [a + p]. *)
Definition in_window (a p t : Z) : bool := Z.ltb a t && Z.leb t (a + p).

(** The granted requests of the last [p] seconds before [now]. *)
Definition recent_grants (now p : Z) (history : list Z) : list Z :=
  List.filter (fun t => Z.ltb (now - p) t) history.

(** What the limiter remembers, against the requests [history] it has
    granted up to the time [last]. *)
Definition limiter_inv (self : CopilotRateLimiter.t) (history : list Z) (last : Z) : Prop :=
  CopilotRateLimiter.calls self = recent_grants last (CopilotRateLimiter.period self) history /\
  Forall (fun t => t <= last) history.

(** The proxy at another time of the clock. *)
Definition set_clock (s : CopilotFixer.t) (now : Z) : CopilotFixer.t :=
  {| CopilotFixer.config := CopilotFixer.config s;
     CopilotFixer.rate_limiter := CopilotFixer.rate_limiter s;
     CopilotFixer.files := CopilotFixer.files s;
     CopilotFixer.clock := now;
     CopilotFixer.stderr := CopilotFixer.stderr s |}.

(** The same libraries with another server behind [requests.post]. *)
Definition with_post (N : Net.t)
    (post : string -> list (string * string) -> string -> Z -> outcome Response.t) : Net.t :=
  {| Net.REQUESTS_AVAILABLE := Net.REQUESTS_AVAILABLE N;
     Net.post := post;
     Net.encode := Net.encode N;
     Net.sha256_hexdigest := Net.sha256_hexdigest N;
     Net.json_load := Net.json_load N;
     Net.json_dump := Net.json_dump N;
     Net.can_write := Net.can_write N;
     Net.stat_error := Net.stat_error N;
     Net.repr := Net.repr N |}.

(** The dictionary [_save_to_cache] dumps. *)
Definition cache_entry (stamp : Z) (response : JSON) : JSON :=
  JDict [("timestamp", JNum stamp); ("response", response)].

(** [json.load] reads back what [json.dump] wrote for this value. *)
Definition reads_back (N : Net.t) (v : JSON) : Prop :=
  Net.json_load N (Net.json_dump N v) = Return v.

(** A server that answers every request with the completion
    [fixed = 1], and json functions that read back the one entry the
    proxy writes for it at the time 1000. *)
Definition answering : Net.t :=
  {| Net.REQUESTS_AVAILABLE := true;
     Net.post := fun _ _ _ _ =>
       Return {| Response.status_code := 200;
                 Response.text := "ok";
                 Response.json :=
                   Return (JDict [("choices", JList [JDict [("text", JStr "fixed = 1")]])]) |};
     Net.encode := fun text => Return text;
     Net.sha256_hexdigest := fun s => s;
     Net.json_load := fun _ => Return (cache_entry 1000 (JStr "fixed = 1"));
     Net.json_dump := fun _ => "entry";
     Net.can_write := fun _ => true;
     Net.stat_error := fun _ => None;
     Net.repr := fun _ => EmptyString |}.

(** A server that must not be asked. *)
Definition unreachable_post
  : string -> list (string * string) -> string -> Z -> outcome Response.t :=
  fun _ _ _ _ => Raise (PyExc "ConnectionError" "Connection refused").

(** What a call on the proxy may change: the limiter's list of calls,
    the file at [path], and the log, which only grows. *)
Definition touches_only (path : string) (s s' : CopilotFixer.t) : Prop :=
  CopilotFixer.config s' = CopilotFixer.config s /\
  CopilotFixer.clock s' = CopilotFixer.clock s /\
  CopilotRateLimiter.max_calls (CopilotFixer.rate_limiter s')
    = CopilotRateLimiter.max_calls (CopilotFixer.rate_limiter s) /\
  CopilotRateLimiter.period (CopilotFixer.rate_limiter s')
    = CopilotRateLimiter.period (CopilotFixer.rate_limiter s) /\
  (exists lines, CopilotFixer.stderr s' = CopilotFixer.stderr s ++ lines) /\
  (forall p, p <> path -> CopilotFixer.files s' !! p = CopilotFixer.files s !! p).



(** A call whose function is the plain name [eval]. *)
Definition is_eval_call (n : CSTNode) : bool :=
  match n with
  | Call (Name f) _ => String.eqb f "eval"
  | _ => false
  end.

(** [print(eval(s))] followed by [eval(t)]. *)
Definition eval_module : CstModule.t :=
  {| CstModule.body :=
       [ SimpleStatementLine
           [Expr (Call (Name "print") [Arg (Call (Name "eval") [Arg (Name "s")])])];
         SimpleStatementLine [Expr (Call (Name "eval") [Arg (Name "t")])] ];
     CstModule.code := "print(eval(s))" +:+ NL +:+ "eval(t)" |}.





(** A part of a path holds no slash. *)
Fixpoint plain_part (part : string) : bool :=
  match part with
  | EmptyString => true
  | String c rest => negb (Ascii.eqb c "/"%char) && plain_part rest
  end.

(** A part as pathlib keeps it. *)
Definition good_part (part : string) : Prop :=
  plain_part part = true /\ kept_part part = true.

(** Every file that can be read is written back byte for byte: the
    text it decodes to is encoded to the bytes it had (a file with LF line
    ends under a locale that encodes it as it was). *)
Definition rewrites_itself (E : Env.t) (w : World.t) : Prop :=
  forall path bytes text,
    World.files w !! path = Some bytes ->
    Env.decode E bytes = Return text ->
    Env.encode E text = Return bytes.

(** The directories list their files as pathlib prints them. *)
Definition listed_as_printed (w : World.t) : Prop :=
  forall dir py_files,
    World.dirs w !! dir = Some py_files ->
    Forall (fun py_file => path_str py_file = py_file) py_files.

(** * Part II: theorems *)

(** ** Strings *)

Lemma append_cons (c : ascii) (a b : string) : String c a +:+ b = String c (a +:+ b).
Proof. reflexivity. Qed.

Lemma append_nil_r (a : string) : a +:+ EmptyString = a.
Proof. induction a as [|c a IH]; [reflexivity|]. rewrite append_cons, IH. reflexivity. Qed.

Lemma append_assoc (a b c : string) : (a +:+ b) +:+ c = a +:+ b +:+ c.
Proof.
  induction a as [|x a IH]; [reflexivity|]. rewrite !append_cons, IH. reflexivity.
Qed.

(** ** The fixer *)

Lemma fix_method_returns_module (name : string) (f : CodeFixer.fix_method) :
  CodeFixer.getattr_fix name = Some f ->
  forall self issue, f self issue = Return (CodeFixer.module self).
Proof.
  unfold CodeFixer.getattr_fix. intros H self issue.
  repeat match type of H with
         | (if ?b then _ else _) = _ => destruct b
         end; inversion H; reflexivity.
Qed.

Lemma apply_fix_spec (r : CodeFixer.run) (issue : Issue.t) :
  CodeFixer.apply_fix r issue =
  if CodeFixer.has_fix_method issue
  then {| CodeFixer.fixer :=
            {| CodeFixer.module := CodeFixer.module (CodeFixer.fixer r);
               CodeFixer.changes := CodeFixer.changes (CodeFixer.fixer r) ++ [issue] |};
          CodeFixer.printed := CodeFixer.printed r |}
  else r.
Proof.
  unfold CodeFixer.apply_fix, CodeFixer.has_fix_method.
  destruct (Issue.fix_type issue) as [ft|]; [|reflexivity].
  destruct (CodeFixer.getattr_fix ("_fix_" +:+ ft)) as [f|] eqn:Hf; [|reflexivity].
  rewrite (fix_method_returns_module _ _ Hf). reflexivity.
Qed.

Lemma apply_fixes_from_spec (issues : list Issue.t) : forall r : CodeFixer.run,
  CodeFixer.apply_fixes_from r issues =
  {| CodeFixer.fixer :=
       {| CodeFixer.module := CodeFixer.module (CodeFixer.fixer r);
          CodeFixer.changes :=
            CodeFixer.changes (CodeFixer.fixer r) ++
            List.filter CodeFixer.has_fix_method issues |};
     CodeFixer.printed := CodeFixer.printed r |}.
Proof.
  induction issues as [|i rest IH]; intros [[m ch] out]; simpl.
  - rewrite app_nil_r. reflexivity.
  - rewrite IH, apply_fix_spec.
    destruct (CodeFixer.has_fix_method i); simpl; [|reflexivity].
    rewrite <- app_assoc. reflexivity.
Qed.

Lemma apply_fixes_spec (self : CodeFixer.t) (issues : list Issue.t) :
  CodeFixer.apply_fixes self issues =
  {| CodeFixer.fixer :=
       {| CodeFixer.module := CodeFixer.module self;
          CodeFixer.changes :=
            CodeFixer.changes self ++ List.filter CodeFixer.has_fix_method issues |};
     CodeFixer.printed := [] |}.
Proof. unfold CodeFixer.apply_fixes. rewrite apply_fixes_from_spec. reflexivity. Qed.

Lemma no_directive_no_method (issues : list Issue.t) :
  Forall (fun i => Issue.fix_type i = None) issues ->
  List.filter CodeFixer.has_fix_method issues = [].
Proof.
  induction 1 as [|i rest Hi _ IH]; simpl; [reflexivity|].
  unfold CodeFixer.has_fix_method at 1. rewrite Hi. exact IH.
Qed.

Lemma filter_app_skip (before after : list Issue.t) (issue : Issue.t) :
  CodeFixer.has_fix_method issue = false ->
  List.filter CodeFixer.has_fix_method (before ++ issue :: after) =
  List.filter CodeFixer.has_fix_method (before ++ after).
Proof.
  intros H. rewrite !List.filter_app. simpl. rewrite H. reflexivity.
Qed.

(** C9.  Whatever the module and the issues, [apply_fixes] returns the
    module it was built with: each of the three fix methods returns the
    stored module, and [generate_diff] afterwards is the constant text
    "No changes applied". *)
Theorem apply_fixes_returns_input_module :
  forall (m : CstModule.t) (issues : list Issue.t),
    let r := CodeFixer.apply_fixes (CodeFixer.__init__ m) issues in
    CodeFixer.returned r = m /\
    (forall self issue,
        CodeFixer._fix_remove_node self issue = Return (CodeFixer.module self) /\
        CodeFixer._fix_replace_node self issue = Return (CodeFixer.module self) /\
        CodeFixer._fix_insert_code self issue = Return (CodeFixer.module self)) /\
    CodeFixer.generate_diff (CodeFixer.fixer r) = "No changes applied".
Proof.
  intros m issues. cbv zeta. rewrite apply_fixes_spec.
  split; [reflexivity|]. split; [|reflexivity].
  intros self issue. repeat split.
Qed.

(** C5.  When no issue of the list has a ['fix_type'], [apply_fixes]
    returns the very tree it was given; the fixer records no change and
    prints nothing. *)
Theorem apply_fixes_without_directive :
  forall (m : CstModule.t) (issues : list Issue.t),
    Forall (fun i => Issue.fix_type i = None) issues ->
    let r := CodeFixer.apply_fixes (CodeFixer.__init__ m) issues in
    CodeFixer.returned r = m /\
    CodeFixer.fixer r = CodeFixer.__init__ m /\
    CodeFixer.printed r = [].
Proof.
  intros m issues H. cbv zeta.
  rewrite apply_fixes_spec, (no_directive_no_method _ H).
  repeat split.
Qed.

Lemma apply_fixes_without_directive_witness :
  Forall (fun i => Issue.fix_type i = None) [plain_issue; plain_issue] /\
  CodeFixer.returned
    (CodeFixer.apply_fixes (CodeFixer.__init__ import_module) [plain_issue; plain_issue])
  = import_module.
Proof.
  assert (H : Forall (fun i => Issue.fix_type i = None) [plain_issue; plain_issue]).
  { repeat constructor. }
  split; [exact H|].
  exact (proj1 (apply_fixes_without_directive import_module _ H)).
Defined.

Lemma has_fix_method_false (issue : Issue.t) (ft : string) :
  Issue.fix_type issue = Some ft ->
  CodeFixer.getattr_fix ("_fix_" +:+ ft) = None ->
  CodeFixer.has_fix_method issue = false.
Proof.
  intros Hft Hnone. unfold CodeFixer.has_fix_method. rewrite Hft, Hnone. reflexivity.
Qed.

Lemma not_in_filter_without_method (issue : Issue.t) (l : list Issue.t) :
  CodeFixer.has_fix_method issue = false ->
  ~ In issue (List.filter CodeFixer.has_fix_method l).
Proof.
  intros H Hin. apply List.filter_In in Hin as [_ Hm]. congruence.
Qed.

(** C10.  An issue whose ['fix_type'] names no [_fix_...] method is
    passed over in silence: the outcome of [apply_fixes] is the one for
    the list without it, the issue does not enter [changes], and nothing
    is printed.  The fix types [rename] and [refactor] name no method. *)
Theorem apply_fixes_skips_unknown_fix_type :
  forall (self : CodeFixer.t) (before after : list Issue.t) (issue : Issue.t)
         (ft : string),
    Issue.fix_type issue = Some ft ->
    CodeFixer.getattr_fix ("_fix_" +:+ ft) = None ->
    let r := CodeFixer.apply_fixes self (before ++ issue :: after) in
    r = CodeFixer.apply_fixes self (before ++ after) /\
    (~ In issue (CodeFixer.changes self) ->
     ~ In issue (CodeFixer.changes (CodeFixer.fixer r))) /\
    CodeFixer.printed r = [] /\
    CodeFixer.getattr_fix "_fix_rename" = None /\
    CodeFixer.getattr_fix "_fix_refactor" = None.
Proof.
  intros self before after issue ft Hft Hnone. cbv zeta.
  pose proof (has_fix_method_false _ _ Hft Hnone) as Hm.
  rewrite !apply_fixes_spec, (filter_app_skip _ _ _ Hm). simpl.
  split; [reflexivity|]. split; [|repeat split].
  intros Hself Hin. apply in_app_or in Hin as [Hin|Hin]; [tauto|].
  exact (not_in_filter_without_method _ _ Hm Hin).
Qed.

(** The naming rule, run on [userName = 1], gives one issue with the fix
    type [rename]; the fixer leaves it aside. *)
Lemma apply_fixes_skips_unknown_fix_type_witness :
  NamingConventionRule.apply positioned camel_module = Return [rename_issue] /\
  CodeFixer.apply_fixes (CodeFixer.__init__ camel_module)
    ([] ++ rename_issue :: [plain_issue])
  = CodeFixer.apply_fixes (CodeFixer.__init__ camel_module) ([] ++ [plain_issue]).
Proof.
  split; [vm_compute; reflexivity|].
  exact (proj1 (apply_fixes_skips_unknown_fix_type
                  (CodeFixer.__init__ camel_module) [] [plain_issue] rename_issue
                  "rename" eq_refl eq_refl)).
Defined.

(** Every issue the naming rule builds asks for [rename], and every
    issue the repeated-calculation rule builds asks for [refactor]. *)
Lemma var_issue_fix_type (L : Libcst.t) (mt : CSTNode) (issue : Issue.t) :
  NamingConventionRule.var_issue L mt = Return issue ->
  Issue.fix_type issue = Some "rename".
Proof.
  unfold NamingConventionRule.var_issue, obind. intros H.
  repeat match type of H with
         | match ?x with _ => _ end = _ => destruct x; try discriminate
         end.
  inversion H. reflexivity.
Qed.

Lemma func_issue_fix_type (L : Libcst.t) (mt : CSTNode) (issue : Issue.t) :
  NamingConventionRule.func_issue L mt = Return issue ->
  Issue.fix_type issue = Some "rename".
Proof.
  unfold NamingConventionRule.func_issue, obind. intros H.
  repeat match type of H with
         | match ?x with _ => _ end = _ => destruct x; try discriminate
         end.
  inversion H. reflexivity.
Qed.

Lemma omap_Forall {A B : Type} (f : A -> outcome B) (P : B -> Prop) :
  (forall a b, f a = Return b -> P b) ->
  forall l bs, omap f l = Return bs -> Forall P bs.
Proof.
  intros Hf. induction l as [|a l IH]; simpl; intros bs H.
  - inversion H. constructor.
  - destruct (f a) as [b|] eqn:Hb; simpl in H; [|discriminate].
    destruct (omap f l) as [bs'|]; simpl in H; [|discriminate].
    inversion H. constructor; eauto.
Qed.

Lemma naming_issues_ask_rename (L : Libcst.t) (m : CstModule.t) (issues : list Issue.t) :
  NamingConventionRule.apply L m = Return issues ->
  Forall (fun i => Issue.fix_type i = Some "rename") issues.
Proof.
  unfold NamingConventionRule.apply, obind. intros H.
  destruct (findall m (NamingConventionRule.var_matcher L)); [|discriminate].
  destruct (omap (NamingConventionRule.var_issue L) a) as [vi|] eqn:Hv; [|discriminate].
  destruct (findall m (NamingConventionRule.func_matcher L)); [|discriminate].
  destruct (omap (NamingConventionRule.func_issue L) a0) as [fi|] eqn:Hf; [|discriminate].
  inversion H. apply Forall_app. split.
  - eapply omap_Forall; [|exact Hv]. apply var_issue_fix_type.
  - eapply omap_Forall; [|exact Hf]. apply func_issue_fix_type.
Qed.

(** X3.  Whatever the naming rule reports for a module, [apply_fixes]
    leaves the fixer as it was and prints nothing: every such issue asks
    for [rename], and the fixer has no [_fix_rename]. *)
Lemma naming_issues_are_dropped (L : Libcst.t) (m : CstModule.t) (issues : list Issue.t) :
  NamingConventionRule.apply L m = Return issues ->
  forall self, CodeFixer.apply_fixes self issues =
               {| CodeFixer.fixer := self; CodeFixer.printed := [] |}.
Proof.
  intros H self. apply naming_issues_ask_rename in H.
  rewrite apply_fixes_spec.
  assert (Hf : List.filter CodeFixer.has_fix_method issues = []).
  { induction H as [|i rest Hi _ IH]; simpl; [reflexivity|].
    unfold CodeFixer.has_fix_method at 1. rewrite Hi. exact IH. }
  rewrite Hf, app_nil_r. destruct self; reflexivity.
Qed.

Lemma naming_issues_are_dropped_witness :
  NamingConventionRule.apply positioned camel_module = Return [rename_issue] /\
  CodeFixer.apply_fixes (CodeFixer.__init__ camel_module) [rename_issue]
  = {| CodeFixer.fixer := CodeFixer.__init__ camel_module; CodeFixer.printed := [] |}.
Proof.
  assert (H : NamingConventionRule.apply positioned camel_module = Return [rename_issue]).
  { vm_compute. reflexivity. }
  split; [exact H|].
  exact (naming_issues_are_dropped positioned camel_module [rename_issue] H
           (CodeFixer.__init__ camel_module)).
Defined.

(** C1, as the specification states it, fails: two directives on the
    same node are both recorded as applied and nothing is reported. *)
Lemma conflict_policy_fails : ~ conflict_policy.
Proof.
  intros H.
  destruct (H import_module remove_directive replace_directive)
    as [_ [notice [Hprinted _]]].
  - discriminate.
  - discriminate.
  - discriminate.
  - exists import_os, import_os. repeat split. left. simpl. left. reflexivity.
  - vm_compute in Hprinted. exact Hprinted.
Qed.

(** On the same input the second directive is in [changes]. *)
Lemma second_directive_recorded :
  CodeFixer.changes
    (CodeFixer.fixer
       (CodeFixer.apply_fixes (CodeFixer.__init__ import_module)
          [remove_directive; replace_directive]))
  = [remove_directive; replace_directive].
Proof. vm_compute. reflexivity. Qed.

(** C1, amended.  [apply_fixes] looks for no conflict: for any two
    directives, overlapping or not, nothing is printed, each of the two
    whose fix type names a method of the fixer is recorded in [changes]
    in the order of arrival, and the tree returned is the input tree. *)
Theorem apply_fixes_detects_no_conflict :
  forall (m : CstModule.t) (d1 d2 : Issue.t),
    let r := CodeFixer.apply_fixes (CodeFixer.__init__ m) [d1; d2] in
    CodeFixer.printed r = [] /\
    CodeFixer.changes (CodeFixer.fixer r) = List.filter CodeFixer.has_fix_method [d1; d2] /\
    (CodeFixer.has_fix_method d2 = true -> In d2 (CodeFixer.changes (CodeFixer.fixer r))) /\
    CodeFixer.returned r = m.
Proof.
  intros m d1 d2. cbv zeta. rewrite apply_fixes_spec.
  cbn [CodeFixer.printed CodeFixer.fixer CodeFixer.changes CodeFixer.__init__ app
       CodeFixer.returned CodeFixer.module].
  split; [reflexivity|]. split; [reflexivity|]. split; [|reflexivity].
  intros H2. apply List.filter_In. split; [right; left; reflexivity | exact H2].
Qed.

(** ** The rule engine *)

Lemma for_each_app {S A : Type} (body : A -> M S unit) (l1 l2 : list A) (s : S) :
  for_each (l1 ++ l2) body s =
  match for_each l1 body s with
  | (Return _, s') => for_each l2 body s'
  | (Raise e, s') => (Raise e, s')
  end.
Proof.
  revert s. induction l1 as [|a l1 IH]; intros s; simpl; [reflexivity|].
  unfold bind. destruct (body a s) as [[[]|e] s']; [apply IH | reflexivity].
Qed.

(** A rule whose check raises has recorded nothing. *)
Lemma check_rule_raise_keeps_issues (L : Libcst.t) (node : CSTNode) (rule_name : string)
    (rule_config : RuleConfig.t) (issues issues' : list Issue.t) (e : exn) :
  RuleEngine._check_rule L node rule_name rule_config issues = (Raise e, issues') ->
  issues' = issues.
Proof.
  unfold RuleEngine._check_rule.
  destruct (value_attr node) as [[v|n]|]; try (cbv; congruence).
  destruct (default ∅ (RuleConfig.options rule_config) !! "bad_pattern") as [bp|];
    [|cbv; congruence].
  destruct (str_in bp v); [|cbv; congruence].
  unfold bind, lift, modify, RuleEngine.subscript, read_lineno, read_col_offset.
  destruct (RuleConfig.message rule_config); [|congruence].
  destruct (Libcst.lineno L node); [|congruence].
  destruct (Libcst.col_offset L node); congruence.
Qed.

Lemma apply_rule_raise_keeps_issues (G : RuleEngine.globals) (L : Libcst.t)
    (node : CSTNode) (entry : string * RuleConfig.t) (issues issues' : list Issue.t)
    (e : exn) :
  RuleEngine.apply_rule G L node entry issues = (Raise e, issues') ->
  issues' = issues.
Proof.
  destruct entry as [rule_name rule_config]. unfold RuleEngine.apply_rule.
  destruct (RuleConfig.node_type rule_config) as [nt|]; [|cbv; congruence].
  destruct (RuleEngine.cst G) as [ns|]; [|cbv; congruence].
  destruct (ns nt) as [| |cls]; try (cbv; congruence).
  destruct (cls node); [apply check_rule_raise_keeps_issues | cbv; congruence].
Qed.

(** C4, as the specification states it, fails on [rule_engine.py] as
    it stands, whatever the library: after a rule that is skipped, the
    first rule with a ['node_type'] makes [apply_rules] raise [NameError],
    nothing catches it, and the rule after it is never run. *)
Lemma fail_soft_policy_fails : ~ exists L : Libcst.t, fail_soft_policy L.
Proof.
  intros [L H].
  destruct (H [style_rule; broken_rule; complete_rule] secret_literal)
    as [issues [Hrun _]].
  vm_compute in Hrun. discriminate.
Qed.

(** C4, amended.  [apply_rules] has no handler: when the check of one
    rule raises, the exception reaches the caller; the issues recorded
    by the rules before it are kept, the failing rule records none, and
    the rules after it are not run. *)
Theorem apply_rules_propagates_failure :
  forall (G : RuleEngine.globals) (L : Libcst.t) (node : CSTNode)
         (before after : list (string * RuleConfig.t)) (entry : string * RuleConfig.t)
         (issues0 issues1 issues2 : list Issue.t) (e : exn),
    RuleEngine.apply_rules G L before node issues0 = (Return tt, issues1) ->
    RuleEngine.apply_rule G L node entry issues1 = (Raise e, issues2) ->
    RuleEngine.apply_rules G L (before ++ entry :: after) node issues0
    = (Raise e, issues1).
Proof.
  intros G L node before after entry issues0 issues1 issues2 e Hbefore Hentry.
  unfold RuleEngine.apply_rules in *. rewrite for_each_app, Hbefore. simpl.
  unfold bind. rewrite Hentry.
  rewrite (apply_rule_raise_keeps_issues _ _ _ _ _ _ _ Hentry). reflexivity.
Qed.

(** On the code as it stands, with three rules of different names: the
    first has no ['node_type'] and is skipped, the second raises
    [NameError], and the third is not run. *)
Lemma apply_rules_propagates_failure_witness :
  RuleEngine.apply_rules cst_unbound unpositioned [style_rule] secret_literal []
  = (Return tt, []) /\
  RuleEngine.apply_rules cst_unbound unpositioned
    ([style_rule] ++ broken_rule :: [complete_rule]) secret_literal []
  = (Raise (PyExc "NameError" "name 'cst' is not defined"), []).
Proof.
  split; [vm_compute; reflexivity|].
  apply (apply_rules_propagates_failure cst_unbound unpositioned secret_literal
           [style_rule] [complete_rule] broken_rule
           [] [] []
           (PyExc "NameError" "name 'cst' is not defined")).
  - vm_compute. reflexivity.
  - vm_compute. reflexivity.
Defined.

(** X4.  As the file stands, [cst] is unbound: the first rule that has
    a ['node_type'] raises [NameError], whatever the node. *)
Lemma apply_rules_unbound_cst (L : Libcst.t) (node : CSTNode) (rule_name nt : string)
    (rule_config : RuleConfig.t) (rest : list (string * RuleConfig.t))
    (issues : list Issue.t) :
  RuleConfig.node_type rule_config = Some nt ->
  RuleEngine.apply_rules cst_unbound L ((rule_name, rule_config) :: rest) node issues
  = (Raise (PyExc "NameError" "name 'cst' is not defined"), issues).
Proof.
  intros H. unfold RuleEngine.apply_rules. simpl. unfold bind. rewrite H. reflexivity.
Qed.

Lemma apply_rules_unbound_cst_witness :
  RuleEngine.apply_rules cst_unbound positioned [complete_rule] secret_literal []
  = (Raise (PyExc "NameError" "name 'cst' is not defined"), []).
Proof.
  exact (apply_rules_unbound_cst positioned secret_literal "weak_password" "SimpleString"
           (snd complete_rule) [] [] eq_refl).
Defined.

(** ** The command line: what a run leaves on disk *)

Lemma keeps_disk_ret {A : Type} (a : A) : keeps_disk (ret a).
Proof. intros w. split; reflexivity. Qed.

Lemma keeps_disk_raise {A : Type} (e : exn) : keeps_disk (@raise World.t A e).
Proof. intros w. split; reflexivity. Qed.

Lemma keeps_disk_lift {A : Type} (o : outcome A) : keeps_disk (lift o).
Proof. intros w. split; reflexivity. Qed.

Lemma keeps_disk_get_state : keeps_disk get_state.
Proof. intros w. split; reflexivity. Qed.

Lemma keeps_disk_print (line : string) : keeps_disk (print line).
Proof. intros w. split; reflexivity. Qed.

Lemma keeps_disk_log (line : string) : keeps_disk (log line).
Proof. intros w. split; reflexivity. Qed.

Lemma keeps_disk_bind {A B : Type} (m : M World.t A) (k : A -> M World.t B) :
  keeps_disk m -> (forall a, keeps_disk (k a)) -> keeps_disk (bind m k).
Proof.
  intros Hm Hk w. unfold bind. specialize (Hm w).
  destruct (m w) as [[a|e] w']; simpl in *.
  - destruct (Hk a w') as [Hf Hd]. rewrite Hf, Hd. exact Hm.
  - exact Hm.
Qed.

Lemma keeps_disk_for_each {A : Type} (l : list A) (body : A -> M World.t unit) :
  (forall a, keeps_disk (body a)) -> keeps_disk (for_each l body).
Proof.
  intros Hbody. induction l as [|a l IH]; simpl.
  - apply keeps_disk_ret.
  - apply keeps_disk_bind; [apply Hbody | intros _; exact IH].
Qed.

Create HintDb disk.
#[local] Hint Resolve keeps_disk_ret keeps_disk_raise keeps_disk_lift keeps_disk_get_state
  keeps_disk_print keeps_disk_log : disk.

Lemma keeps_disk_read_file (E : Env.t) (path : string) :
  keeps_disk (CodeParser._read_file E path).
Proof.
  intros w. unfold CodeParser._read_file.
  destruct (World.files w !! path) as [bytes|]; [|split; reflexivity].
  destruct (Env.decode E bytes); split; reflexivity.
Qed.

Lemma keeps_disk_parser (E : Env.t) (path : string) :
  keeps_disk (CodeParser.__init__ E path).
Proof.
  unfold CodeParser.__init__. apply keeps_disk_bind; [apply keeps_disk_read_file|].
  intros source. apply keeps_disk_bind; [|auto with disk].
  unfold CodeParser._parse_module.
  destruct (Env.parse_module E source); auto with disk.
Qed.

Lemma keeps_disk_fix_file_dry (E : Env.t) (args : FixArgs.t) (py_file : string) :
  FixArgs.apply args = false -> keeps_disk (CLI.fix_file E args py_file).
Proof.
  intros Hdry. unfold CLI.fix_file.
  apply keeps_disk_bind; [apply keeps_disk_parser|]. intros parser.
  apply keeps_disk_bind; [auto with disk|]. intros issues.
  destruct issues as [|i rest]; [auto with disk|].
  apply keeps_disk_bind; [auto with disk|]. intros _.
  apply keeps_disk_bind; [apply keeps_disk_for_each; auto with disk|]. intros _.
  apply keeps_disk_bind; [auto with disk|]. intros _.
  rewrite Hdry. auto with disk.
Qed.

(** C6.  Without [--apply], [_run_fix] leaves every file on disk as it
    was, whatever the path, the filter, the parser and the findings;
    this holds as well when the run ends in an exception. *)
Theorem run_fix_dry_run_keeps_files :
  forall (E : Env.t) (path : string) (only : option string) (w : World.t),
    let args := {| FixArgs.path := path; FixArgs.apply := false; FixArgs.only := only |} in
    World.files (snd (CLI._run_fix E args w)) = World.files w /\
    World.dirs (snd (CLI._run_fix E args w)) = World.dirs w.
Proof.
  intros E path only w. cbv zeta.
  set (args := {| FixArgs.path := path; FixArgs.apply := false; FixArgs.only := only |}).
  assert (Hfile : forall f, keeps_disk (CLI.fix_file E args f)).
  { intros f. apply keeps_disk_fix_file_dry. reflexivity. }
  assert (H : keeps_disk (CLI._run_fix E args)).
  { unfold CLI._run_fix. apply keeps_disk_bind; [auto with disk|]. intros w0.
    destruct (World.dirs w0 !! path_str (FixArgs.path args)) as [py_files|];
      [|destruct (World.files w0 !! path_str (FixArgs.path args))].
    - apply keeps_disk_bind; [apply keeps_disk_for_each; exact Hfile | auto with disk].
    - apply keeps_disk_bind; [apply keeps_disk_for_each; exact Hfile | auto with disk].
    - apply keeps_disk_bind; auto with disk. }
  exact (H w).
Qed.

Lemma parser_init_spec (E : Env.t) (file_path : string) (w : World.t) :
  CodeParser.__init__ E file_path w =
  let path := path_str file_path in
  match World.files w !! path with
  | None =>
      (Raise (PyExc "RuntimeError"
                ("Failed to read " +:+ path +:+ ": cannot open '" +:+ path +:+ "'")), w)
  | Some bytes =>
      match Env.decode E bytes with
      | Raise e =>
          (Raise (PyExc "RuntimeError"
                    ("Failed to read " +:+ path +:+ ": " +:+ str_of_exn e)), w)
      | Return source =>
          match Env.parse_module E source with
          | Return m =>
              (Return {| CodeParser.file_path := path; CodeParser.source_code := source;
                         CodeParser.module := m |}, w)
          | Raise e =>
              (Raise (PyExc "RuntimeError"
                        ("AST parsing error in " +:+ path +:+ ": " +:+ str_of_exn e)), w)
          end
      end
  end.
Proof.
  unfold CodeParser.__init__, CodeParser._read_file, CodeParser._parse_module, bind.
  cbv zeta.
  destruct (World.files w !! path_str file_path) as [bytes|]; [|reflexivity].
  destruct (Env.decode E bytes) as [source|e]; [|reflexivity].
  destruct (Env.parse_module E source); reflexivity.
Qed.

(** ** Paths as pathlib prints them *)

Lemma plain_snoc (acc : string) (c : ascii) :
  plain_part acc = true -> Ascii.eqb c "/"%char = false ->
  plain_part (acc +:+ String c EmptyString) = true.
Proof.
  intros Hacc Hc. induction acc as [|x acc IH]; simpl in *.
  - rewrite Hc. reflexivity.
  - apply andb_true_iff in Hacc as [Hx Hacc]. rewrite Hx. apply IH. exact Hacc.
Qed.

Lemma parts_plain (text : string) :
  forall acc, plain_part acc = true -> Forall (fun p => plain_part p = true) (path_parts_from text acc).
Proof.
  induction text as [|c text IH]; intros acc Hacc; simpl.
  - repeat constructor. exact Hacc.
  - destruct (Ascii.eqb c "/"%char) eqn:Hc.
    + constructor; [exact Hacc|]. apply IH. reflexivity.
    + apply IH. apply plain_snoc; assumption.
Qed.

Lemma parts_of_plain (part : string) :
  plain_part part = true ->
  forall text acc, path_parts_from (part +:+ text) acc = path_parts_from text (acc +:+ part).
Proof.
  induction part as [|c part IH]; intros Hplain text acc.
  - rewrite append_nil_r. reflexivity.
  - simpl in Hplain. apply andb_true_iff in Hplain as [Hc Hplain].
    rewrite append_cons. cbn [path_parts_from].
    apply negb_true_iff in Hc. rewrite Hc. rewrite (IH Hplain).
    rewrite append_assoc. reflexivity.
Qed.

Lemma parts_of_join (parts : list string) :
  Forall good_part parts ->
  List.filter kept_part (path_parts_from (join_path parts) EmptyString) = parts.
Proof.
  induction parts as [|p rest IH]; intros Hall; [reflexivity|].
  inversion Hall as [|? ? [Hplain Hkept] Hrest]; subst.
  destruct rest as [|q rest].
  - cbn [join_path]. rewrite <- (append_nil_r p) at 1. rewrite (parts_of_plain p Hplain).
    cbn [path_parts_from List.filter]. change (EmptyString +:+ p) with p.
    rewrite Hkept. reflexivity.
  - change (join_path (p :: q :: rest)) with (p +:+ "/" +:+ join_path (q :: rest)).
    rewrite (parts_of_plain p Hplain). rewrite append_cons.
    cbn [path_parts_from Ascii.eqb Bool.eqb]. cbn [List.filter].
    change (EmptyString +:+ p) with p. rewrite Hkept.
    f_equal. apply IH. exact Hrest.
Qed.

Lemma kept_parts_good (text : string) :
  Forall good_part (List.filter kept_part (path_parts_from text EmptyString)).
Proof.
  pose proof (parts_plain text EmptyString eq_refl) as H.
  induction H as [|p l Hp _ IH]; simpl; [constructor|].
  destruct (kept_part p) eqn:Hk; [constructor; [split; assumption | exact IH] | exact IH].
Qed.

Lemma good_starts (p : string) :
  good_part p -> exists c rest, p = String c rest /\ Ascii.eqb c "/"%char = false.
Proof.
  intros [Hplain Hkept]. destruct p as [|c rest]; [discriminate|].
  exists c, rest. split; [reflexivity|]. simpl in Hplain.
  apply andb_true_iff in Hplain as [Hc _]. apply negb_true_iff in Hc. exact Hc.
Qed.

Lemma join_starts (parts : list string) :
  Forall good_part parts -> parts <> [] ->
  exists c rest, join_path parts = String c rest /\ Ascii.eqb c "/"%char = false.
Proof.
  intros Hall Hne. destruct parts as [|p rest]; [contradiction|].
  inversion Hall as [|? ? Hp Hrest]; subst.
  destruct (good_starts p Hp) as [c [tail [-> Hc]]].
  destruct rest as [|q rest]; cbn [join_path]; rewrite ?append_cons; eauto.
Qed.

(** The text pathlib prints for a root and parts. *)
Lemma path_str_of_normal (root : string) (parts : list string) :
  root = EmptyString \/ root = "/" \/ root = "//" ->
  Forall good_part parts ->
  root +:+ join_path parts <> EmptyString ->
  path_str (root +:+ join_path parts) = root +:+ join_path parts.
Proof.
  intros Hroot Hall Hne.
  assert (Hparts : List.filter kept_part
                     (path_parts_from (root +:+ join_path parts) EmptyString) = parts).
  { destruct Hroot as [-> | [-> | ->]].
    - apply parts_of_join. exact Hall.
    - cbn. apply parts_of_join. exact Hall.
    - cbn. apply parts_of_join. exact Hall. }
  assert (Hr : path_root (root +:+ join_path parts) = root).
  { destruct parts as [|p rest].
    - destruct Hroot as [-> | [-> | ->]]; reflexivity.
    - destruct (join_starts (p :: rest) Hall ltac:(discriminate)) as [c [tail [-> Hc]]].
      destruct Hroot as [-> | [-> | ->]]; cbn.
      + destruct c as [[] [] [] [] [] [] [] []]; try reflexivity; discriminate.
      + destruct c as [[] [] [] [] [] [] [] []]; try reflexivity; discriminate.
      + destruct c as [[] [] [] [] [] [] [] []]; try reflexivity; discriminate. }
  unfold path_str. rewrite Hparts, Hr.
  destruct (root +:+ join_path parts); [contradiction | reflexivity].
Qed.

Lemma path_root_cases (text : string) :
  path_root text = EmptyString \/ path_root text = "/" \/ path_root text = "//".
Proof.
  unfold path_root.
  repeat match goal with
         | |- context [match ?x with _ => _ end] => destruct x
         end; auto.
Qed.

Lemma path_str_idempotent (text : string) : path_str (path_str text) = path_str text.
Proof.
  unfold path_str at 2 3.
  destruct (path_root text +:+
            join_path (List.filter kept_part (path_parts_from text EmptyString)))
    as [|c shown] eqn:Hshown; [reflexivity|].
  rewrite <- Hshown. apply path_str_of_normal.
  - apply path_root_cases.
  - apply kept_parts_good.
  - rewrite Hshown. discriminate.
Qed.

(** ** A fix run that changes nothing *)

Lemma rewrites_itself_same_files (E : Env.t) (w w' : World.t) :
  World.files w' = World.files w -> rewrites_itself E w -> rewrites_itself E w'.
Proof. intros Hf H path bytes text Hp. rewrite Hf in Hp. exact (H path bytes text Hp). Qed.

Lemma fix_file_round_trip (E : Env.t) (args : FixArgs.t) (py_file : string) (w : World.t) :
  round_trip E -> rewrites_itself E w -> path_str py_file = py_file ->
  World.files (snd (CLI.fix_file E args py_file w)) = World.files w /\
  World.dirs (snd (CLI.fix_file E args py_file w)) = World.dirs w.
Proof.
  intros Hrt Hself Hprinted. remember (CLI.fix_file E args py_file w) as r eqn:Hr.
  unfold CLI.fix_file in Hr. unfold bind at 1 in Hr. rewrite parser_init_spec in Hr.
  cbv zeta in Hr. rewrite Hprinted in Hr.
  destruct (World.files w !! py_file) as [bytes|] eqn:Hread; [|subst r; split; reflexivity].
  destruct (Env.decode E bytes) as [source|e] eqn:Hdecode; [|subst r; split; reflexivity].
  destruct (Env.parse_module E source) as [m|e] eqn:Hparse; [|subst r; split; reflexivity].
  unfold CodeParser.get_ast in Hr. cbn [CodeParser.module] in Hr.
  unfold bind at 1 in Hr. unfold lift at 1 in Hr.
  destruct (Env.run_rules E m) as [[|i rest]|e];
    [subst r; split; reflexivity | | subst r; split; reflexivity].
  rewrite !apply_fixes_spec in Hr.
  cbn [CodeFixer.printed CodeFixer.returned CodeFixer.fixer CodeFixer.module
       CodeFixer.__init__ for_each] in Hr.
  rewrite (Hrt _ _ Hparse) in Hr.
  unfold bind, print, modify, ret, write_file in Hr. cbn in Hr.
  destruct (FixArgs.apply args); [|subst r; split; reflexivity].
  cbn in Hr. destruct (World.dirs w !! py_file); [subst r; split; reflexivity|].
  destruct (Env.open_error E py_file); [subst r; split; reflexivity|].
  rewrite (Hself py_file bytes source Hread Hdecode) in Hr. subst r. cbn.
  split; [apply insert_id; exact Hread | reflexivity].
Qed.

Lemma fix_files_round_trip (E : Env.t) (args : FixArgs.t) (py_files : list string) :
  round_trip E -> Forall (fun py_file => path_str py_file = py_file) py_files ->
  forall w, rewrites_itself E w ->
    World.files (snd (for_each py_files (CLI.fix_file E args) w)) = World.files w /\
    World.dirs (snd (for_each py_files (CLI.fix_file E args) w)) = World.dirs w.
Proof.
  intros Hrt Hall. induction Hall as [|py_file rest Hprinted _ IH]; intros w Hself.
  - split; reflexivity.
  - cbn [for_each]. unfold bind.
    destruct (fix_file_round_trip E args py_file w Hrt Hself Hprinted) as [Hf Hd].
    destruct (CLI.fix_file E args py_file w) as [[[]|e] w1]; cbn [snd] in *;
      [|split; assumption].
    destruct (IH w1 (rewrites_itself_same_files E w w1 Hf Hself)) as [Hf' Hd'].
    rewrite Hf', Hd'. split; assumption.
Qed.

(** X2.  With a parser that round-trips, a fix run leaves every file
    with the bytes it had, with or without [--apply], on a disk whose
    files are written back as they were read: a file that decodes to a
    text encodes from that text to its own bytes (line ends are LF, the
    locale encodes as UTF-8), and the directories list their files as
    [pathlib] prints them.  (A file with CRLF line ends is read with LF
    line ends and written so.) *)
Theorem run_fix_keeps_files :
  forall (E : Env.t) (args : FixArgs.t) (w : World.t),
    round_trip E -> rewrites_itself E w -> listed_as_printed w ->
    World.files (snd (CLI._run_fix E args w)) = World.files w /\
    World.dirs (snd (CLI._run_fix E args w)) = World.dirs w.
Proof.
  intros E args w Hrt Hself Hlisted.
  remember (CLI._run_fix E args w) as r eqn:Hr.
  unfold CLI._run_fix in Hr. cbv zeta in Hr.
  unfold bind at 1 in Hr. unfold get_state at 1 in Hr.
  destruct (World.dirs w !! path_str (FixArgs.path args)) as [py_files|] eqn:Hdir;
    [|destruct (World.files w !! path_str (FixArgs.path args)) eqn:Hfile].
  - unfold bind in Hr.
    destruct (fix_files_round_trip E args py_files Hrt (Hlisted _ _ Hdir) w Hself)
      as [Hf Hd].
    destruct (for_each py_files (CLI.fix_file E args) w) as [[[]|e] w1];
      subst r; split; assumption.
  - unfold bind in Hr.
    assert (Hone : Forall (fun py_file => path_str py_file = py_file)
                     [path_str (FixArgs.path args)]).
    { constructor; [apply path_str_idempotent | constructor]. }
    destruct (fix_files_round_trip E args _ Hrt Hone w Hself) as [Hf Hd].
    destruct (for_each [path_str (FixArgs.path args)] (CLI.fix_file E args) w)
      as [[[]|e] w1]; subst r; split; assumption.
  - subst r. split; reflexivity.
Qed.

Lemma sample_parse_round_trip : round_trip sample_env.
Proof.
  intros source m. cbn [sample_env Env.parse_module]. unfold sample_parse.
  destruct (String.eqb_spec source secret_text) as [->|_].
  - intros H. inversion H. reflexivity.
  - destruct (String.eqb_spec source import_text) as [->|_]; [|discriminate].
    intros H. inversion H. reflexivity.
Qed.

Lemma sample_world_rewrites_itself :
  rewrites_itself sample_env (sample_world "a.py" secret_text).
Proof.
  intros path bytes text Hfile Hdecode. cbn [sample_world World.files] in Hfile.
  apply lookup_singleton_Some in Hfile. destruct Hfile as [_ <-].
  cbn [sample_env Env.decode Env.encode] in *.
  inversion Hdecode. reflexivity.
Qed.

Lemma sample_world_listed_as_printed (path source : string) :
  listed_as_printed (sample_world path source).
Proof.
  intros dir py_files Hdir. cbn [sample_world World.dirs] in Hdir.
  apply lookup_singleton_Some in Hdir. destruct Hdir as [_ <-]. constructor.
Qed.

Lemma run_fix_keeps_files_witness :
  World.files
    (snd (CLI._run_fix sample_env
            {| FixArgs.path := "./a.py"; FixArgs.apply := true; FixArgs.only := None |}
            (sample_world "a.py" secret_text)))
  = World.files (sample_world "a.py" secret_text).
Proof.
  exact (proj1 (run_fix_keeps_files sample_env
                  {| FixArgs.path := "./a.py"; FixArgs.apply := true; FixArgs.only := None |}
                  (sample_world "a.py" secret_text)
                  sample_parse_round_trip sample_world_rewrites_itself
                  (sample_world_listed_as_printed "a.py" secret_text))).
Defined.

(** A file with CRLF line ends does not come back as it was: read with
    universal newlines, it is written with LF line ends. *)
Example crlf_file_is_rewritten :
  let args := {| FixArgs.path := "a.py"; FixArgs.apply := true; FixArgs.only := None |} in
  let w := sample_world "a.py" (crlf import_text) in
  World.files (snd (CLI._run_fix sample_env args w)) !! "a.py" = Some import_text /\
  crlf import_text <> import_text.
Proof. split; [vm_compute; reflexivity | vm_compute; discriminate]. Qed.

(** ** The two scenarios of the specification, run on the code *)

(** C2 (Scenario B).  On [import os] / [x = 1] the rule reports
    nothing, whatever the library answers for positions: the name inside
    the import statement is itself among the names collected as used.
    Given the finding the scenario expects, the fixer finds no method
    [_fix_remove], returns the tree as it was and records nothing; and a
    fix run with [--apply] leaves the file with its two lines, [import
    os] still the first. *)
Theorem unused_import_scenario :
  (forall L : Libcst.t, UnusedImportRule.apply L import_module = Return []) /\
  (let r := CodeFixer.apply_fixes (CodeFixer.__init__ import_module)
              [unused_import_finding] in
   CodeFixer.returned r = import_module /\
   CodeFixer.changes (CodeFixer.fixer r) = [] /\
   CodeFixer.printed r = []) /\
  (let args := {| FixArgs.path := "a.py"; FixArgs.apply := true; FixArgs.only := None |} in
   let w := sample_world "a.py" import_text in
   fst (CLI._run_fix sample_env args w) = Return 0 /\
   World.files (snd (CLI._run_fix sample_env args w)) !! "a.py" = Some import_text) /\
  split_lines import_text = ["import os"; "x = 1"].
Proof.
  split; [intros L; vm_compute; reflexivity|].
  split; [vm_compute; repeat split|].
  split; [|vm_compute; reflexivity].
  cbv zeta. split; vm_compute; reflexivity.
Qed.

(** C3 (Scenario A).  On [password = "letmein123"], with a library that
    answers [lineno] and [col_offset], the rule gives the finding the
    scenario expects; with nodes that have no such attribute it raises.
    Given the finding, the fixer finds no method [_fix_replace], returns
    the tree as it was and records nothing; and a fix run with [--apply]
    leaves the file with the literal and no environment lookup. *)
Theorem hardcoded_secret_scenario :
  HardcodedSecretRule.apply positioned secret_module = Return [secret_finding] /\
  HardcodedSecretRule.apply unpositioned secret_module
  = Raise (AttributeError secret_assign "lineno") /\
  (let r := CodeFixer.apply_fixes (CodeFixer.__init__ secret_module) [secret_finding] in
   CodeFixer.returned r = secret_module /\
   CodeFixer.changes (CodeFixer.fixer r) = [] /\
   CodeFixer.printed r = []) /\
  (let args := {| FixArgs.path := "a.py"; FixArgs.apply := true; FixArgs.only := None |} in
   let w := sample_world "a.py" secret_text in
   fst (CLI._run_fix sample_env args w) = Return 0 /\
   World.files (snd (CLI._run_fix sample_env args w)) !! "a.py" = Some secret_text) /\
  str_in (DQ +:+ "letmein123" +:+ DQ) secret_text = true /\
  str_in "os.getenv" secret_text = false /\
  str_in "os.environ" secret_text = false.
Proof.
  split; [vm_compute; reflexivity|].
  split; [vm_compute; reflexivity|].
  split; [vm_compute; repeat split|].
  split; [cbv zeta; split; vm_compute; reflexivity|].
  repeat split; vm_compute; reflexivity.
Qed.

(** ** The check command *)

Lemma issue_entry_formats (E : Env.t) (issue : Issue.t) :
  exists entry, str_format E CLI.issue_template (CLI.issue_kwargs issue) = Return entry.
Proof.
  destruct (str_format E CLI.issue_template (CLI.issue_kwargs issue)) as [entry|e] eqn:H;
    [eauto|].
  exfalso. destruct issue as [r m l c sv [ft|] sg nd]; vm_compute in H; discriminate.
Qed.

Lemma html_issues_formats (E : Env.t) (issues : list Issue.t) :
  exists entries, CLI.html_issues E issues = Return entries.
Proof.
  induction issues as [|i rest [more IH]]; simpl; [eauto|].
  destruct (issue_entry_formats E i) as [entry Hentry].
  rewrite Hentry, IH. simpl. eauto.
Qed.

(** The page template has style rules in braces, which [str.format]
    reads as fields: the HTML report raises for every list of issues. *)
Lemma html_report_raises (E : Env.t) (issues : list Issue.t) :
  CLI._generate_html_report E issues = Raise (RuleEngine.KeyError " font-family").
Proof.
  unfold CLI._generate_html_report.
  destruct (html_issues_formats E issues) as [entries Hentries]. rewrite Hentries. simpl.
  generalize (str_of_int (Z.of_nat (length issues))). intros total.
  vm_compute. reflexivity.
Qed.

(** C8.  A check in HTML format of a directory without Python files
    has no finding; the claim asks for status zero, and the run raises
    [KeyError] before anything is printed and ends with status 1. *)
Theorem check_html_without_findings :
  forall E : Env.t,
    let args := {| CheckArgs.path := "empty"; CheckArgs.format := html;
                   CheckArgs.output := None; CheckArgs.no_copilot := false;
                   CheckArgs.list_rules := false |} in
    let w := sample_world "a.py" import_text in
    CLI.check_files E [] [] w = (Return [], w) /\
    CLI._run_check E args w = (Raise (RuleEngine.KeyError " font-family"), w) /\
    CLI.exit_status (fst (CLI._run_check E args w)) = 1.
Proof.
  intros E. cbv zeta.
  assert (H : CLI._run_check E
                {| CheckArgs.path := "empty"; CheckArgs.format := html;
                   CheckArgs.output := None; CheckArgs.no_copilot := false;
                   CheckArgs.list_rules := false |} (sample_world "a.py" import_text)
              = (Raise (RuleEngine.KeyError " font-family"),
                 sample_world "a.py" import_text)).
  { unfold CLI._run_check, CLI._output_results. cbn [CheckArgs.list_rules CheckArgs.format].
    unfold bind, get_state, lift. cbn [CheckArgs.path].
    replace (World.dirs (sample_world "a.py" import_text) !! "empty")
      with (Some (@nil string)) by (vm_compute; reflexivity).
    cbn [CLI.check_files ret]. rewrite html_report_raises. reflexivity. }
  split; [reflexivity|]. split; [exact H|]. rewrite H. reflexivity.
Qed.

(** X1.  In text format, printing to the terminal, the check prints the
    report of every finding and returns 1 when there is a finding and 0
    when there is none. *)
Lemma run_check_text (E : Env.t) (args : CheckArgs.t) (w w1 : World.t)
    (issues : list Issue.t) :
  CheckArgs.list_rules args = false ->
  CheckArgs.format args = text ->
  CheckArgs.output args = None ->
  match World.dirs w !! path_str (CheckArgs.path args) with
  | Some py_files => CLI.check_files E [] py_files w
  | None => CLI.check_file E [] (path_str (CheckArgs.path args)) w
  end = (Return issues, w1) ->
  CLI._run_check E args w =
  (Return (match issues with [] => 0 | _ => 1 end),
   {| World.files := World.files w1; World.dirs := World.dirs w1;
      World.stdout := World.stdout w1 ++ [CLI._generate_text_report issues];
      World.stderr := World.stderr w1 |}).
Proof.
  intros Hlist Hformat Houtput Hcollect.
  unfold CLI._run_check, CLI._output_results. rewrite Hlist, Hformat, Houtput.
  cbv zeta. unfold bind at 1. unfold get_state at 1. unfold bind at 1.
  destruct (World.dirs w !! path_str (CheckArgs.path args)); rewrite Hcollect; reflexivity.
Qed.

Lemma run_check_text_witness :
  fst (CLI._run_check sample_env text_check (sample_world "a.py" import_text)) = Return 1 /\
  World.stdout (snd (CLI._run_check sample_env text_check (sample_world "a.py" import_text)))
  = [CLI._generate_text_report [unused_import_finding]].
Proof.
  rewrite (run_check_text sample_env text_check (sample_world "a.py" import_text)
             (sample_world "a.py" import_text) [unused_import_finding]
             eq_refl eq_refl eq_refl);
    [split; reflexivity | vm_compute; reflexivity].
Defined.

(** ** The suggestion proxy *)

Lemma set_stderr_same (s : CopilotFixer.t) : set_stderr s (CopilotFixer.stderr s) = s.
Proof. destruct s; reflexivity. Qed.

Lemma load_from_cache_spec (N : Net.t) (key : string) (s : CopilotFixer.t) :
  Net.stat_error N (CopilotFixer.cache_file s key) = None ->
  exists c lines, CopilotFixer._load_from_cache N key s = (Return c, set_stderr s lines).
Proof.
  intros Hstat. unfold CopilotFixer._load_from_cache, bind at 1, get_state at 1.
  rewrite Hstat.
  destruct (CopilotFixer.files s !! CopilotFixer.cache_file s key) as [content|].
  - unfold try_except, bind, lift.
    destruct (Net.json_load N content) as [data|e].
    + destruct (json_get data "timestamp" (JNum 0)) as [stamp|e].
      * destruct (seconds_since (CopilotFixer.clock s) stamp) as [age|e].
        -- destruct (Z.ltb age 86400).
           ++ destruct (json_get data "response" JNull) as [v|e].
              ** exists v, (CopilotFixer.stderr s). rewrite set_stderr_same. reflexivity.
              ** eexists JNull, _. reflexivity.
           ++ exists JNull, (CopilotFixer.stderr s). rewrite set_stderr_same. reflexivity.
        -- eexists JNull, _. reflexivity.
      * eexists JNull, _. reflexivity.
    + eexists JNull, _. reflexivity.
  - exists JNull, (CopilotFixer.stderr s). rewrite set_stderr_same. reflexivity.
Qed.






(** The three statements that stand before the [try], each raising to
    the caller: [code_snippet.encode()] on a snippet that cannot be
    encoded, [cache_file.exists()] where the status of the cache file
    cannot be read, and [context.items()] on a context that is a list, as
    [json.loads] may give it.  The first two leave the proxy as it was;
    the third comes after the limiter has counted the call. *)
Example get_suggestion_raises_before_try :
  CopilotFixer.get_suggestion unencodable lone_surrogate JNull sample_proxy
  = (Raise surrogates_not_allowed, sample_proxy) /\
  CopilotFixer.get_suggestion guarded "x = eval(s)" JNull sample_proxy
  = (Raise (permission_denied ".copilot_cache/x = eval(s).json"), sample_proxy) /\
  fst (CopilotFixer.get_suggestion offline "x = eval(s)" (JList [JStr "strict"]) sample_proxy)
  = Raise (PyExc "AttributeError" "'list' object has no attribute 'items'") /\
  CopilotRateLimiter.calls
    (CopilotFixer.rate_limiter
       (snd (CopilotFixer.get_suggestion offline "x = eval(s)" (JList [JStr "strict"])
               sample_proxy)))
  = [1000].
Proof. repeat split; vm_compute; reflexivity. Qed.




(** * Part II, continued: further properties of the code *)

(** ** Trees *)

Lemma descendants_children (n : CSTNode) :
  descendants n = n :: flat_map descendants (children n).
Proof.
  destruct n as [| | | | | | | | |ts v| | |nm [a|]| |[md|] ns| |]; simpl;
    rewrite ?app_nil_r, ?List.flat_map_app; simpl; rewrite ?app_nil_r; reflexivity.
Qed.

(** Induction on a tree, with the property at hand for all children. *)
Lemma node_children_ind (P : CSTNode -> Prop) :
  (forall n, Forall P (children n) -> P n) -> forall n, P n.
Proof.
  intros H. fix IH 1. intros n. apply H.
  destruct n as [| | | | |f args| | | |ts v| | |nm [a|]|ns|[md|] ns|nm b|b]; simpl;
    repeat (constructor; [apply IH|]); try (constructor; fail).
  - induction args as [|x l IHl]; constructor; [apply IH | exact IHl].
  - apply Forall_app. split; [|repeat constructor; apply IH].
    induction ts as [|x l IHl]; constructor; [apply IH | exact IHl].
  - induction ns as [|x l IHl]; constructor; [apply IH | exact IHl].
  - induction ns as [|x l IHl]; constructor; [apply IH | exact IHl].
  - induction ns as [|x l IHl]; constructor; [apply IH | exact IHl].
  - induction b as [|x l IHl]; constructor; [apply IH | exact IHl].
  - induction b as [|x l IHl]; constructor; [apply IH | exact IHl].
Qed.

Lemma descendants_self (n : CSTNode) : In n (descendants n).
Proof. rewrite descendants_children. left. reflexivity. Qed.

Lemma descendants_trans (p : CSTNode) :
  forall x y, In x (descendants p) -> In y (descendants x) -> In y (descendants p).
Proof.
  induction p as [p IH] using node_children_ind. intros x y Hx Hy.
  rewrite descendants_children in Hx. destruct Hx as [<-|Hx]; [exact Hy|].
  rewrite descendants_children. right.
  apply in_flat_map in Hx as [c [Hc Hx]]. apply in_flat_map. exists c. split; [exact Hc|].
  rewrite List.Forall_forall in IH. exact (IH c Hc x y Hx Hy).
Qed.

Lemma module_nodes_closed (m : CstModule.t) (x y : CSTNode) :
  In x (module_nodes m) -> In y (descendants x) -> In y (module_nodes m).
Proof.
  unfold module_nodes. intros Hx Hy. apply in_flat_map in Hx as [c [Hc Hx]].
  apply in_flat_map. exists c. split; [exact Hc|]. exact (descendants_trans c x y Hx Hy).
Qed.

Lemma child_in_descendants (p c : CSTNode) : In c (children p) -> In c (descendants p).
Proof.
  intros H. rewrite descendants_children. right. apply in_flat_map.
  exists c. split; [exact H | apply descendants_self].
Qed.

(** ** Matching *)

Lemma filter_matches_sound (p : CSTNode -> outcome bool) (l ms : list CSTNode) :
  filter_matches p l = Return ms ->
  forall x, In x ms -> In x l /\ p x = Return true.
Proof.
  revert ms. induction l as [|n l IH]; simpl; intros ms H x Hx.
  - inversion H; subst. destruct Hx.
  - destruct (p n) as [b|] eqn:Hb; simpl in H; [|discriminate].
    destruct (filter_matches p l) as [ms'|]; simpl in H; [|discriminate].
    inversion H; subst. destruct b.
    + destruct Hx as [<-|Hx]; [split; [left; reflexivity | exact Hb]|].
      destruct (IH ms' eq_refl x Hx). split; [right|]; assumption.
    + destruct (IH ms' eq_refl x Hx). split; [right|]; assumption.
Qed.

Lemma filter_matches_complete (p : CSTNode -> outcome bool) (l ms : list CSTNode) :
  filter_matches p l = Return ms ->
  forall x, In x l -> p x = Return true -> In x ms.
Proof.
  revert ms. induction l as [|n l IH]; simpl; intros ms H x Hx Hp; [destruct Hx|].
  destruct (p n) as [b|] eqn:Hb; simpl in H; [|discriminate].
  destruct (filter_matches p l) as [ms'|]; simpl in H; [|discriminate].
  inversion H; subst. destruct Hx as [<-|Hx].
  - rewrite Hp in Hb. inversion Hb; subst. left. reflexivity.
  - pose proof (IH ms' eq_refl x Hx Hp). destruct b; [right|]; assumption.
Qed.

Lemma filter_matches_total (p : CSTNode -> outcome bool) (l : list CSTNode) :
  (forall n, exists b, p n = Return b) -> exists ms, filter_matches p l = Return ms.
Proof.
  intros Hp. induction l as [|n l [ms IH]]; simpl; [eauto|].
  destruct (Hp n) as [b Hb]. rewrite Hb, IH. simpl. eauto.
Qed.

Lemma is_import_total (n : CSTNode) : exists b, UnusedImportRule.is_import n = Return b.
Proof. destruct n; simpl; eauto. Qed.

Lemma is_name_total (n : CSTNode) : exists b, UnusedImportRule.is_name n = Return b.
Proof. destruct n; simpl; eauto. Qed.

(** ** The unused-import rule *)

Lemma dict_set_keys_named (nodes : list CSTNode) (s : string) (v : CSTNode)
    (d : list (UnusedImportRule.alias * CSTNode)) :
  In (Name s) nodes -> keys_named nodes d ->
  keys_named nodes (UnusedImportRule.dict_set (UnusedImportRule.AliasStr s) v d).
Proof.
  intros Hs. unfold keys_named. induction 1 as [|[k' v'] d Hk Hd IH].
  - repeat constructor. exists s. split; [reflexivity | exact Hs].
  - cbn [UnusedImportRule.dict_set].
    destruct (UnusedImportRule.alias_eqb (UnusedImportRule.AliasStr s) k');
      constructor; assumption.
Qed.

Lemma alias_of_identifier (i j : nat) (nm : CSTNode) :
  binds_identifier nm = true ->
  exists s, UnusedImportRule.alias_of i j nm = Return (UnusedImportRule.AliasStr s) /\
            In (Name s) (descendants nm) /\
            exists n v, NamingConventionRule.read_name nm = Return n /\
                        read_value n = Return v.
Proof.
  destruct nm as [| | | | | | | | | | | |nm [a|]| | | |]; try discriminate.
  - destruct nm as [s'| | |x y| | | | | | | | | | | | |]; try discriminate;
      destruct a as [| | | | | | | | | | |an| | | | |]; try discriminate;
      destruct an as [s| | | | | | | | | | | | | | | |]; try discriminate;
      intros _; exists s; (split; [reflexivity|]); (split; [|simpl; eauto]);
      simpl; rewrite ?in_app_iff; simpl; tauto.
  - destruct nm as [s| | | | | | | | | | | | | | | |]; try discriminate.
    intros _. exists s. split; [reflexivity|]. split; [simpl; tauto | simpl; eauto].
Qed.

Lemma add_names_keys_named (nodes : list CSTNode) (imp : CSTNode) (names : list CSTNode) :
  forall (i j : nat) (d : list (UnusedImportRule.alias * CSTNode)),
    Forall (fun nm => binds_identifier nm = true /\
                      forall y, In y (descendants nm) -> In y nodes) names ->
    keys_named nodes d ->
    exists d', UnusedImportRule.add_names i j imp names d = Return d' /\
               keys_named nodes d'.
Proof.
  induction names as [|nm names IH]; intros i j d Hnames Hd; simpl; [eauto|].
  inversion Hnames as [|? ? [Hnm Hsub] Hrest]; subst.
  destruct (alias_of_identifier i j nm Hnm) as [s [Halias [Hin _]]].
  rewrite Halias. simpl. apply IH; [exact Hrest|].
  apply dict_set_keys_named; [apply Hsub; exact Hin | exact Hd].
Qed.

Lemma add_from_names_keys_named (nodes : list CSTNode) (imp : CSTNode)
    (names : list CSTNode) :
  forall (i j : nat) (d : list (UnusedImportRule.alias * CSTNode)),
    Forall (fun nm => binds_identifier nm = true /\
                      forall y, In y (descendants nm) -> In y nodes) names ->
    keys_named nodes d ->
    exists d', UnusedImportRule.add_from_names i j imp names d = Return d' /\
               keys_named nodes d'.
Proof.
  induction names as [|nm names IH]; intros i j d Hnames Hd; simpl; [eauto|].
  inversion Hnames as [|? ? [Hnm Hsub] Hrest]; subst.
  destruct (alias_of_identifier i j nm Hnm) as [s [Halias [Hin [n [v [Hn Hv]]]]]].
  rewrite Hn. simpl. rewrite Hv. simpl. rewrite Halias. simpl. apply IH; [exact Hrest|].
  apply dict_set_keys_named; [apply Hsub; exact Hin | exact Hd].
Qed.

Lemma names_within (nodes : list CSTNode) (imp : CSTNode) (names : list CSTNode) :
  (forall nm, In nm names -> In nm (children imp)) ->
  (forall y, In y (descendants imp) -> In y nodes) ->
  forallb binds_identifier names = true ->
  Forall (fun nm => binds_identifier nm = true /\
                    forall y, In y (descendants nm) -> In y nodes) names.
Proof.
  intros Hchild Hsub Hall. apply List.Forall_forall. intros nm Hnm.
  rewrite forallb_forall in Hall. split; [apply Hall; exact Hnm|].
  intros y Hy. apply Hsub.
  exact (descendants_trans imp nm y (child_in_descendants imp nm (Hchild nm Hnm)) Hy).
Qed.

Lemma collect_keys_named (nodes : list CSTNode) (imps : list CSTNode) :
  forall (i : nat) (d : list (UnusedImportRule.alias * CSTNode)),
    Forall (fun imp => UnusedImportRule.is_import imp = Return true /\
                       plain_import imp = true /\
                       forall y, In y (descendants imp) -> In y nodes) imps ->
    keys_named nodes d ->
    exists d', UnusedImportRule.collect i imps d = Return d' /\ keys_named nodes d'.
Proof.
  induction imps as [|imp imps IH]; intros i d Himps Hd; simpl; [eauto|].
  inversion Himps as [|? ? [Himp [Hplain Hsub]] Hrest]; subst.
  assert (Hstep : exists d1,
             match imp with
             | Import names => UnusedImportRule.add_names i 0 imp names d
             | ImportFrom md names =>
                 obind match md with
                       | Some n => obind (read_value n) (fun _ => Return tt)
                       | None => Return tt
                       end
                   (fun _ => UnusedImportRule.add_from_names i 0 imp names d)
             | _ => Raise (AttributeError imp "module")
             end = Return d1 /\ keys_named nodes d1).
  { destruct imp as [| | | | | | | | | | | | |names|md names| |]; try discriminate.
    - apply add_names_keys_named; [|exact Hd].
      apply (names_within nodes (Import names)); [tauto | exact Hsub | exact Hplain].
    - assert (Hnames : forallb binds_identifier names = true /\
                       match md with
                       | Some n => obind (read_value n) (fun _ => Return tt)
                       | None => Return tt
                       end = Return tt).
      { destruct md as [[| | | | | | | | | | | | | | | |]|]; simpl in Hplain;
          try discriminate; split; try exact Hplain; reflexivity. }
      destruct Hnames as [Hall Hmd]. rewrite Hmd. simpl.
      apply add_from_names_keys_named; [|exact Hd].
      apply (names_within nodes (ImportFrom md names)); [|exact Hsub | exact Hall].
      intros nm Hnm. destruct md; simpl; tauto. }
  destruct Hstep as [d1 [Hd1 Hk1]]. rewrite Hd1. simpl. apply IH; assumption.
Qed.

Lemma filter_all_false {A : Type} (f : A -> bool) (l : list A) :
  Forall (fun a => f a = false) l -> List.filter f l = [].
Proof.
  induction 1 as [|a l Ha _ IH]; simpl; [reflexivity|]. rewrite Ha. exact IH.
Qed.

(** X5.  When every import statement of a module binds plain
    identifiers ([import os], [import a.b as c], [from a import b]), the
    unused-import rule returns the empty list, used or not: the name
    inside the import statement is itself among the names collected as
    used. *)
Theorem unused_import_reports_no_identifier :
  forall (L : Libcst.t) (m : CstModule.t),
    Forall (fun n => plain_import n = true) (module_nodes m) ->
    UnusedImportRule.apply L m = Return [].
Proof.
  intros L m Hplain. unfold UnusedImportRule.apply, findall.
  destruct (filter_matches_total UnusedImportRule.is_import (module_nodes m) is_import_total)
    as [imps Himps].
  destruct (filter_matches_total UnusedImportRule.is_name (module_nodes m) is_name_total)
    as [name_nodes Hnames].
  rewrite Himps. simpl.
  destruct (collect_keys_named (module_nodes m) imps 0 []) as [imports [Hcollect Hkeys]].
  - apply List.Forall_forall. intros imp Himp.
    destruct (filter_matches_sound _ _ _ Himps imp Himp) as [Hin Hp].
    split; [exact Hp|]. split.
    + rewrite List.Forall_forall in Hplain. apply Hplain. exact Hin.
    + intros y Hy. exact (module_nodes_closed m imp y Hin Hy).
  - constructor.
  - rewrite Hcollect. simpl. rewrite Hnames. simpl.
    rewrite filter_all_false; [reflexivity|].
    unfold keys_named in Hkeys. eapply List.Forall_impl; [|exact Hkeys].
    intros [k imp] [s [Hk Hs]]. simpl in Hk. subst k. simpl.
    apply negb_false_iff, bool_decide_eq_true.
    apply elem_of_list_to_set, list_elem_of_In, in_map_iff.
    exists (Name s). split; [reflexivity|].
    exact (filter_matches_complete _ _ _ Hnames (Name s) Hs eq_refl).
Qed.

Lemma unused_import_reports_no_identifier_witness :
  Forall (fun n => plain_import n = true) (module_nodes import_module) /\
  UnusedImportRule.apply unpositioned import_module = Return [].
Proof.
  assert (H : Forall (fun n => plain_import n = true) (module_nodes import_module)).
  { vm_compute. repeat constructor. }
  split; [exact H|].
  exact (unused_import_reports_no_identifier unpositioned import_module H).
Defined.

Lemma dict_set_keeps_node_key (k : UnusedImportRule.alias) (v : CSTNode)
    (d : list (UnusedImportRule.alias * CSTNode)) :
  has_node_key d -> has_node_key (UnusedImportRule.dict_set k v d).
Proof.
  intros [i [j [n [v0 Hin]]]]. induction d as [|[k' v'] d IH]; [destruct Hin|].
  cbn [UnusedImportRule.dict_set].
  destruct (UnusedImportRule.alias_eqb k k') eqn:Heq.
  - destruct Hin as [Hhd|Htl].
    + inversion Hhd; subst. exists i, j, n, v. left. reflexivity.
    + exists i, j, n, v0. right. exact Htl.
  - destruct Hin as [Hhd|Htl].
    + inversion Hhd; subst. exists i, j, n, v0. left. reflexivity.
    + destruct (IH Htl) as [i' [j' [n' [v1 H1]]]]. exists i', j', n', v1. right. exact H1.
Qed.

Lemma dict_set_adds_node_key (i j : nat) (n v : CSTNode)
    (d : list (UnusedImportRule.alias * CSTNode)) :
  has_node_key (UnusedImportRule.dict_set (UnusedImportRule.AliasNode i j n) v d).
Proof.
  induction d as [|[k' v'] d IH]; cbn [UnusedImportRule.dict_set].
  - exists i, j, n, v. left. reflexivity.
  - destruct (UnusedImportRule.alias_eqb (UnusedImportRule.AliasNode i j n) k') eqn:Heq.
    + destruct k' as [s|i' j' n']; [discriminate|].
      exists i', j', n', v. left. reflexivity.
    + destruct IH as [i' [j' [n' [v1 H1]]]]. exists i', j', n', v1. right. exact H1.
Qed.

Lemma add_names_keeps_node_key (imp : CSTNode) (names : list CSTNode) :
  forall (i j : nat) (d d' : list (UnusedImportRule.alias * CSTNode)),
    UnusedImportRule.add_names i j imp names d = Return d' ->
    has_node_key d -> has_node_key d'.
Proof.
  induction names as [|nm names IH]; intros i j d d' H Hd; simpl in H.
  - inversion H; subst. exact Hd.
  - destruct (UnusedImportRule.alias_of i j nm) as [a|]; simpl in H; [|discriminate].
    eapply IH; [exact H|]. apply dict_set_keeps_node_key. exact Hd.
Qed.

Lemma add_from_names_keeps_node_key (imp : CSTNode) (names : list CSTNode) :
  forall (i j : nat) (d d' : list (UnusedImportRule.alias * CSTNode)),
    UnusedImportRule.add_from_names i j imp names d = Return d' ->
    has_node_key d -> has_node_key d'.
Proof.
  induction names as [|nm names IH]; intros i j d d' H Hd; simpl in H.
  - inversion H; subst. exact Hd.
  - destruct (NamingConventionRule.read_name nm) as [n|]; simpl in H; [|discriminate].
    destruct (read_value n) as [v|]; simpl in H; [|discriminate].
    destruct (UnusedImportRule.alias_of i j nm) as [a|]; simpl in H; [|discriminate].
    eapply IH; [exact H|]. apply dict_set_keeps_node_key. exact Hd.
Qed.

Lemma collect_node_key (imps : list CSTNode) :
  forall (i : nat) (d d' : list (UnusedImportRule.alias * CSTNode)),
    UnusedImportRule.collect i imps d = Return d' ->
    has_node_key d \/ (exists imp, In imp imps /\ dotted_import imp = true) ->
    has_node_key d'.
Proof.
  induction imps as [|imp imps IH]; intros i d d' H Hor; simpl in H.
  - inversion H; subst. destruct Hor as [Hd|[imp [[] _]]]. exact Hd.
  - destruct imp as [| | | | | | | | | | | | |names|md names| |]; simpl in H;
      try discriminate.
    + destruct (UnusedImportRule.add_names i 0 (Import names) names d) as [d1|] eqn:H1;
        simpl in H; [|discriminate].
      apply (IH _ _ _ H).
      destruct Hor as [Hd|[imp [[<-|Hin] Hdot]]].
      * left. exact (add_names_keeps_node_key _ _ _ _ _ _ H1 Hd).
      * left.
        destruct names as [|[| | | | | | | | | | | |nm a| | | |] rest];
          simpl in Hdot; try discriminate.
        destruct nm as [| | |x y| | | | | | | | | | | | |], a as [a|];
          simpl in Hdot; try discriminate.
        simpl in H1.
        exact (add_names_keeps_node_key _ _ _ _ _ _ H1 (dict_set_adds_node_key _ _ _ _ _)).
      * right. exists imp. split; assumption.
    + destruct (match md with
                | Some n => obind (read_value n) (fun _ => Return tt)
                | None => Return tt
                end) as [[]|]; simpl in H; [|discriminate].
      destruct (UnusedImportRule.add_from_names i 0 (ImportFrom md names) names d)
        as [d1|] eqn:H1; simpl in H; [|discriminate].
      apply (IH _ _ _ H).
      destruct Hor as [Hd|[imp [[<-|Hin] Hdot]]].
      * left. exact (add_from_names_keeps_node_key _ _ _ _ _ _ H1 Hd).
      * discriminate.
      * right. exists imp. split; assumption.
Qed.

Lemma omap_length {A B : Type} (f : A -> outcome B) (l : list A) :
  forall bs, omap f l = Return bs -> length bs = length l.
Proof.
  induction l as [|a l IH]; simpl; intros bs H.
  - inversion H. reflexivity.
  - destruct (f a) as [b|]; simpl in H; [|discriminate].
    destruct (omap f l) as [bs'|]; simpl in H; [|discriminate].
    inversion H. simpl. rewrite (IH bs' eq_refl). reflexivity.
Qed.

(** X6.  A module with a dotted import without [as] ([import
    os.path]) always gets a finding when the rule returns, whether the
    module uses the name or not: the key kept for such an import is a
    node, and a node is never among the used names, which are strings. *)
Theorem unused_import_reports_every_dotted_import :
  forall (L : Libcst.t) (m : CstModule.t) (issues : list Issue.t),
    UnusedImportRule.apply L m = Return issues ->
    (exists imp, In imp (module_nodes m) /\ dotted_import imp = true) ->
    issues <> [].
Proof.
  intros L m issues H [imp [Hin Hdot]]. unfold UnusedImportRule.apply, findall in H.
  destruct (filter_matches UnusedImportRule.is_import (module_nodes m)) as [imps|] eqn:Himps;
    simpl in H; [|discriminate].
  destruct (UnusedImportRule.collect 0 imps []) as [imports|] eqn:Hcollect;
    simpl in H; [|discriminate].
  destruct (filter_matches UnusedImportRule.is_name (module_nodes m)) as [name_nodes|];
    simpl in H; [|discriminate].
  assert (Himp : In imp imps).
  { apply (filter_matches_complete _ _ _ Himps imp Hin).
    destruct imp; try discriminate. reflexivity. }
  destruct (collect_node_key imps 0 [] imports Hcollect) as [i [j [n [v Hkey]]]].
  { right. exists imp. split; assumption. }
  apply omap_length in H. intros ->. simpl in H.
  assert (Hfilter : In (UnusedImportRule.AliasNode i j n, v)
            (List.filter
               (fun entry =>
                  UnusedImportRule.unused
                    (list_to_set (List.map UnusedImportRule.name_value name_nodes))
                    (fst entry)) imports)).
  { apply List.filter_In. split; [exact Hkey | reflexivity]. }
  destruct (List.filter _ imports); [destruct Hfilter | discriminate].
Qed.

Lemma unused_import_reports_every_dotted_import_witness :
  exists issue,
    UnusedImportRule.apply positioned dotted_module = Return [issue] /\
    [issue] <> [].
Proof.
  destruct (UnusedImportRule.apply positioned dotted_module) as [issues|e] eqn:H.
  - destruct issues as [|issue [|]].
    + exfalso. vm_compute in H. discriminate.
    + exists issue. split; [reflexivity|].
      apply (unused_import_reports_every_dotted_import positioned dotted_module [issue] H).
      exists (Import [ImportAlias (Attribute (Name "os") (Name "path")) None]).
      split; [vm_compute; right; left; reflexivity | reflexivity].
    + exfalso. vm_compute in H. discriminate.
  - exfalso. vm_compute in H. discriminate.
Defined.

(** ** The rules and the fixer *)

Lemma apply_fixes_without_method (issues : list Issue.t) :
  Forall (fun i => CodeFixer.has_fix_method i = false) issues ->
  forall self, CodeFixer.apply_fixes self issues =
               {| CodeFixer.fixer := self; CodeFixer.printed := [] |}.
Proof.
  intros H self. rewrite apply_fixes_spec, (filter_all_false _ _ H), app_nil_r.
  destruct self. reflexivity.
Qed.

Lemma secret_issue_no_method (L : Libcst.t) (mt : CSTNode) (issue : Issue.t) :
  HardcodedSecretRule.issue_of L mt = Return issue ->
  CodeFixer.has_fix_method issue = false.
Proof.
  unfold HardcodedSecretRule.issue_of, obind. intros H.
  repeat match type of H with
         | match ?x with _ => _ end = _ => destruct x; try discriminate
         end.
  inversion H. reflexivity.
Qed.

Lemma eval_issue_no_method (L : Libcst.t) (mt : CSTNode) (issue : Issue.t) :
  UnsafeEvalRule.issue_of L mt = Return issue ->
  CodeFixer.has_fix_method issue = false.
Proof.
  unfold UnsafeEvalRule.issue_of, obind. intros H.
  repeat match type of H with
         | match ?x with _ => _ end = _ => destruct x; try discriminate
         end.
  inversion H. reflexivity.
Qed.

Lemma import_issue_no_method (L : Libcst.t) (entry : UnusedImportRule.alias * CSTNode)
    (issue : Issue.t) :
  UnusedImportRule.issue_of L entry = Return issue ->
  CodeFixer.has_fix_method issue = false.
Proof.
  destruct entry as [a imp]. unfold UnusedImportRule.issue_of, obind. intros H.
  repeat match type of H with
         | match ?x with _ => _ end = _ => destruct x; try discriminate
         end.
  inversion H. reflexivity.
Qed.

Lemma repeated_issues_no_method (L : Libcst.t) (mt : CSTNode) (issues : list Issue.t) :
  RepeatedCalculationRule.issues_of L mt = Return issues ->
  Forall (fun i => CodeFixer.has_fix_method i = false) issues.
Proof.
  unfold RepeatedCalculationRule.issues_of, obind. intros H.
  repeat match type of H with
         | match ?x with _ => _ end = _ => destruct x; try discriminate
         | (if ?b then _ else _) = _ => destruct b
         end;
    inversion H; repeat constructor.
Qed.

Lemma Forall_concat {A : Type} (P : A -> Prop) (ls : list (list A)) :
  Forall (Forall P) ls -> Forall P (concat ls).
Proof.
  induction 1 as [|l ls Hl _ IH]; simpl; [constructor|].
  apply Forall_app. split; assumption.
Qed.

(** X7.  No finding of the hardcoded-secret, [eval], unused-import or
    repeated-calculation rule is ever applied: each asks for [replace],
    [remove] or [refactor], the fixer has no method of that name, and
    [apply_fixes] on the list a rule returns leaves module and changes
    as they were and prints nothing. *)
Theorem rule_findings_are_never_applied :
  forall (L : Libcst.t) (m : CstModule.t) (issues : list Issue.t),
    HardcodedSecretRule.apply L m = Return issues \/
    UnsafeEvalRule.apply L m = Return issues \/
    UnusedImportRule.apply L m = Return issues \/
    RepeatedCalculationRule.apply L m = Return issues ->
    forall self : CodeFixer.t,
      CodeFixer.apply_fixes self issues =
      {| CodeFixer.fixer := self; CodeFixer.printed := [] |}.
Proof.
  intros L m issues H. apply apply_fixes_without_method.
  destruct H as [H|[H|[H|H]]].
  - unfold HardcodedSecretRule.apply, obind in H.
    destruct (findall m (HardcodedSecretRule.secret_matcher L)); [|discriminate].
    eapply omap_Forall; [|exact H]. apply secret_issue_no_method.
  - unfold UnsafeEvalRule.apply, obind in H.
    destruct (findall m UnsafeEvalRule.eval_matcher); [|discriminate].
    eapply omap_Forall; [|exact H]. apply eval_issue_no_method.
  - unfold UnusedImportRule.apply, obind in H.
    destruct (findall m UnusedImportRule.is_import); [|discriminate].
    destruct (UnusedImportRule.collect 0 a []); [|discriminate].
    destruct (findall m UnusedImportRule.is_name); [|discriminate].
    eapply omap_Forall; [|exact H]. apply import_issue_no_method.
  - unfold RepeatedCalculationRule.apply, obind in H.
    destruct (Libcst.list_comp_element L); [discriminate|].
    destruct (findall m RepeatedCalculationRule.repeated_call_matcher); [|discriminate].
    destruct (omap (RepeatedCalculationRule.issues_of L) a) as [per_match|] eqn:Hper;
      [|discriminate].
    inversion H. apply Forall_concat.
    eapply omap_Forall; [|exact Hper]. apply repeated_issues_no_method.
Qed.

Lemma rule_findings_are_never_applied_witness :
  HardcodedSecretRule.apply positioned secret_module = Return [secret_finding] /\
  CodeFixer.apply_fixes (CodeFixer.__init__ secret_module) [secret_finding]
  = {| CodeFixer.fixer := CodeFixer.__init__ secret_module; CodeFixer.printed := [] |}.
Proof.
  assert (H : HardcodedSecretRule.apply positioned secret_module = Return [secret_finding]).
  { vm_compute. reflexivity. }
  split; [exact H|].
  exact (rule_findings_are_never_applied positioned secret_module [secret_finding]
           (or_introl H) (CodeFixer.__init__ secret_module)).
Defined.

(** ** The naming rule: snake case *)

Lemma lower_ident_char (c : ascii) :
  is_ident_char c = true ->
  NamingConventionRule.is_lower_or_underscore (lower_char c) ||
  NamingConventionRule.is_digit (lower_char c) = true.
Proof.
  destruct c as [[] [] [] [] [] [] [] []]; vm_compute; intros H;
    first [reflexivity | discriminate H].
Qed.

Lemma lower_ident_start (c : ascii) :
  is_ident_start c = true ->
  NamingConventionRule.is_lower_or_underscore (lower_char c) = true.
Proof.
  destruct c as [[] [] [] [] [] [] [] []]; vm_compute; intros H;
    first [reflexivity | discriminate H].
Qed.

Lemma snake_char_fixed (c : ascii) :
  NamingConventionRule.is_lower_or_underscore c || NamingConventionRule.is_digit c = true ->
  NamingConventionRule.is_upper c = false /\ lower_char c = c.
Proof.
  destruct c as [[] [] [] [] [] [] [] []]; vm_compute; intros H;
    first [split; reflexivity | discriminate H].
Qed.

Lemma snake_tail_of_identifier (s : string) :
  all_ident_chars s = true ->
  NamingConventionRule.snake_tail (lower (NamingConventionRule.underscore_capitals s)) = true.
Proof.
  induction s as [|c s IH]; simpl; [reflexivity|].
  intros H. apply andb_prop in H as [Hc Hs].
  pose proof (lower_ident_char c Hc) as Hl.
  destruct (NamingConventionRule.is_upper c); simpl; rewrite Hl; exact (IH Hs).
Qed.

(** X8.  For a name that is an ASCII identifier, the name
    [_to_snake_case] suggests passes [_is_snake_case]: the rule would not
    report its own suggestion. *)
Theorem to_snake_case_is_snake_case :
  forall name : string,
    ascii_identifier name = true ->
    NamingConventionRule._is_snake_case (NamingConventionRule._to_snake_case name) = true.
Proof.
  intros [|c rest] H; [discriminate|]. simpl in H. apply andb_prop in H as [Hc Hrest].
  unfold NamingConventionRule._to_snake_case. cbn [lower NamingConventionRule._is_snake_case].
  rewrite (lower_ident_start c Hc), (snake_tail_of_identifier rest Hrest). reflexivity.
Qed.

Lemma to_snake_case_is_snake_case_witness :
  ascii_identifier "getHTTPResponse2" = true /\
  NamingConventionRule._to_snake_case "getHTTPResponse2" = "get_h_t_t_p_response2" /\
  NamingConventionRule._is_snake_case
    (NamingConventionRule._to_snake_case "getHTTPResponse2") = true.
Proof.
  split; [reflexivity|]. split; [reflexivity|].
  exact (to_snake_case_is_snake_case "getHTTPResponse2" eq_refl).
Defined.

Lemma snake_tail_fixed (s : string) :
  NamingConventionRule.snake_tail s = true ->
  NamingConventionRule.underscore_capitals s = s /\ lower s = s.
Proof.
  induction s as [|c s IH]; simpl; [split; reflexivity|].
  destruct (NamingConventionRule.is_lower_or_underscore c || NamingConventionRule.is_digit c)
    eqn:Hc.
  - intros Hs. destruct (snake_char_fixed c Hc) as [Hup Hlow].
    destruct (IH Hs) as [Hu Hl]. rewrite Hup, Hlow, Hu, Hl. split; reflexivity.
  - intros H. apply andb_prop in H as [Hnl Hend].
    apply Ascii.eqb_eq in Hnl. apply String.eqb_eq in Hend. subst. split; reflexivity.
Qed.

(** X9.  A name that passes [_is_snake_case] is left as it is by
    [_to_snake_case]. *)
Theorem to_snake_case_keeps_snake_case :
  forall name : string,
    NamingConventionRule._is_snake_case name = true ->
    NamingConventionRule._to_snake_case name = name.
Proof.
  intros [|c rest] H; [discriminate|]. simpl in H. apply andb_prop in H as [Hc Hrest].
  unfold NamingConventionRule._to_snake_case. cbn [lower].
  destruct (snake_tail_fixed rest Hrest) as [Hu Hl]. rewrite Hu, Hl.
  assert (Hcl : NamingConventionRule.is_lower_or_underscore c ||
                NamingConventionRule.is_digit c = true) by (rewrite Hc; reflexivity).
  destruct (snake_char_fixed c Hcl) as [_ Hlow]. rewrite Hlow. reflexivity.
Qed.

Lemma to_snake_case_keeps_snake_case_witness :
  NamingConventionRule._is_snake_case "max_depth_2" = true /\
  NamingConventionRule._to_snake_case "max_depth_2" = "max_depth_2".
Proof.
  split; [reflexivity|].
  exact (to_snake_case_keeps_snake_case "max_depth_2" eq_refl).
Defined.

(** ** The rule engine: what it records *)

(** What one rule can add to [self.issues]: nothing, or one issue named
    after the rule, without fix directive and without node. *)
Lemma check_rule_adds (L : Libcst.t) (node : CSTNode) (rule_name : string)
    (rule_config : RuleConfig.t) (issues issues' : list Issue.t) (o : outcome unit) :
  RuleEngine._check_rule L node rule_name rule_config issues = (o, issues') ->
  issues' = issues \/
  exists i, issues' = issues ++ [i] /\ Issue.rule i = rule_name /\
            Issue.fix_type i = None /\ Issue.node i = None.
Proof.
  unfold RuleEngine._check_rule.
  destruct (value_attr node) as [[v|n]|]; try (cbv; intros H; inversion H; tauto).
  destruct (default ∅ (RuleConfig.options rule_config) !! "bad_pattern") as [bp|];
    [|cbv; intros H; inversion H; tauto].
  destruct (str_in bp v); [|cbv; intros H; inversion H; tauto].
  unfold bind, lift, modify, RuleEngine.subscript, read_lineno, read_col_offset.
  destruct (RuleConfig.message rule_config); [|intros H; inversion H; tauto].
  destruct (Libcst.lineno L node); [|intros H; inversion H; tauto].
  destruct (Libcst.col_offset L node); intros H; inversion H; [|tauto].
  right. eexists. repeat split.
Qed.

Lemma apply_rule_adds (G : RuleEngine.globals) (L : Libcst.t) (node : CSTNode)
    (entry : string * RuleConfig.t) (issues issues' : list Issue.t) (o : outcome unit) :
  RuleEngine.apply_rule G L node entry issues = (o, issues') ->
  issues' = issues \/
  exists i, issues' = issues ++ [i] /\ Issue.rule i = fst entry /\
            Issue.fix_type i = None /\ Issue.node i = None.
Proof.
  destruct entry as [rule_name rule_config]. unfold RuleEngine.apply_rule.
  destruct (RuleConfig.node_type rule_config) as [nt|];
    [|cbv; intros H; inversion H; tauto].
  destruct (RuleEngine.cst G) as [ns|]; [|cbv; intros H; inversion H; tauto].
  destruct (ns nt) as [| |cls]; try (cbv; intros H; inversion H; tauto).
  destruct (cls node); [apply check_rule_adds | cbv; intros H; inversion H; tauto].
Qed.

(** X10.  However [apply_rules] ends, the issues that were in
    [self.issues] are still there, in place; what was added comes after
    them, at most one issue for each rule, each named after a rule of
    the configuration and without fix directive, so that [apply_fixes]
    does nothing with them. *)
Theorem apply_rules_only_appends :
  forall (G : RuleEngine.globals) (L : Libcst.t) (rules : list (string * RuleConfig.t))
         (node : CSTNode) (issues0 issues1 : list Issue.t) (o : outcome unit),
    RuleEngine.apply_rules G L rules node issues0 = (o, issues1) ->
    exists added,
      issues1 = issues0 ++ added /\
      (length added <= length rules)%nat /\
      Forall (fun i => In (Issue.rule i) (List.map fst rules) /\
                       Issue.fix_type i = None /\ Issue.node i = None) added /\
      forall self, CodeFixer.apply_fixes self added =
                   {| CodeFixer.fixer := self; CodeFixer.printed := [] |}.
Proof.
  intros G L rules node issues0 issues1 o H.
  assert (Hadded : exists added,
             issues1 = issues0 ++ added /\
             (length added <= length rules)%nat /\
             Forall (fun i => In (Issue.rule i) (List.map fst rules) /\
                              Issue.fix_type i = None /\ Issue.node i = None) added).
  { revert issues0 issues1 o H. unfold RuleEngine.apply_rules.
    induction rules as [|entry rules IH]; intros issues0 issues1 o H; simpl in H.
    - inversion H. exists []. rewrite app_nil_r. repeat split; constructor.
    - unfold bind in H.
      destruct (RuleEngine.apply_rule G L node entry issues0) as [[[]|e] mid] eqn:Hentry.
      + destruct (IH mid issues1 o H) as [added [Heq [Hlen Hall]]].
        assert (Hall' : Forall (fun i => In (Issue.rule i) (List.map fst (entry :: rules)) /\
                                         Issue.fix_type i = None /\ Issue.node i = None)
                          added).
        { eapply List.Forall_impl; [|exact Hall]. intros i [Hin Hrest].
          split; [right; exact Hin | exact Hrest]. }
        destruct (apply_rule_adds _ _ _ _ _ _ _ Hentry) as [->|[i [-> [Hname [Hft Hnd]]]]].
        * exists added. split; [exact Heq|]. split; [simpl; lia | exact Hall'].
        * exists (i :: added). rewrite <- app_assoc in Heq. split; [exact Heq|].
          split; [simpl; lia|]. constructor; [|exact Hall'].
          split; [left; symmetry; exact Hname | split; assumption].
      + inversion H; subst.
        destruct (apply_rule_adds _ _ _ _ _ _ _ Hentry) as [->|[i [-> [Hname [Hft Hnd]]]]].
        * exists []. rewrite app_nil_r. split; [reflexivity|].
          split; [simpl; lia | constructor].
        * exists [i]. split; [reflexivity|]. split; [simpl; lia|].
          constructor; [|constructor].
          split; [left; symmetry; exact Hname | split; assumption]. }
  destruct Hadded as [added [Heq [Hlen Hall]]].
  exists added. repeat split; try assumption.
  intros self. apply apply_fixes_without_method.
  eapply List.Forall_impl; [|exact Hall]. intros i [_ [Hft _]].
  unfold CodeFixer.has_fix_method. rewrite Hft. reflexivity.
Qed.

Lemma apply_rules_only_appends_witness :
  exists added,
    [plain_issue; weak_password_issue] = [plain_issue] ++ added /\
    (length added <= 1)%nat.
Proof.
  destruct (apply_rules_only_appends cst_bound positioned [complete_rule] secret_literal
              [plain_issue] [plain_issue; weak_password_issue] (Return tt))
    as [added [Heq [Hlen _]]].
  - vm_compute. reflexivity.
  - exists added. split; [exact Heq | exact Hlen].
Defined.


(** ** The check command: what it reads, writes and prints *)

Lemma check_file_keeps_world (E : Env.t) (issues : list Issue.t) (py_file : string)
    (w : World.t) :
  snd (CLI.check_file E issues py_file w) = w.
Proof.
  unfold CLI.check_file. unfold bind at 1. rewrite parser_init_spec. cbv zeta.
  destruct (World.files w !! path_str py_file) as [bytes|]; [|reflexivity].
  destruct (Env.decode E bytes) as [source|e]; [|reflexivity].
  destruct (Env.parse_module E source) as [m|e]; [|reflexivity].
  unfold bind, lift, CodeParser.get_ast. cbn [CodeParser.module].
  destruct (Env.run_rules E m); reflexivity.
Qed.

Lemma check_files_keeps_world (E : Env.t) (py_files : list string) :
  forall (issues : list Issue.t) (w : World.t),
    snd (CLI.check_files E issues py_files w) = w.
Proof.
  induction py_files as [|f rest IH]; intros issues w; simpl; [reflexivity|].
  unfold bind. pose proof (check_file_keeps_world E issues f w) as Hf.
  destruct (CLI.check_file E issues f w) as [[found|e] w']; simpl in Hf; subst w'.
  - apply IH.
  - reflexivity.
Qed.

Lemma keeps_disk_list_rules : keeps_disk CLI._list_rules.
Proof. intros w. split; reflexivity. Qed.

(** X12.  Without [--output] a check writes nothing: the files and
    directories are as they were, in every format, whether the run
    returns or raises. *)
Theorem run_check_is_read_only :
  forall (E : Env.t) (args : CheckArgs.t) (w : World.t),
    CheckArgs.output args = None \/ CheckArgs.output args = Some EmptyString ->
    World.files (snd (CLI._run_check E args w)) = World.files w /\
    World.dirs (snd (CLI._run_check E args w)) = World.dirs w.
Proof.
  intros E args w Hout.
  assert (H : keeps_disk (CLI._run_check E args)).
  { unfold CLI._run_check. destruct (CheckArgs.list_rules args).
    - apply keeps_disk_bind; [apply keeps_disk_list_rules | auto with disk].
    - apply keeps_disk_bind; [auto with disk|]. intros w0.
      apply keeps_disk_bind.
      + intros w1. pose proof (check_files_keeps_world E) as Hfs.
        pose proof (check_file_keeps_world E) as Hf.
        destruct (World.dirs w0 !! path_str (CheckArgs.path args));
          [rewrite Hfs | rewrite Hf]; split; reflexivity.
      + intros issues. apply keeps_disk_bind; [|auto with disk].
        unfold CLI._output_results. apply keeps_disk_bind; [auto with disk|].
        intros output. destruct Hout as [-> | ->]; auto with disk. }
  exact (H w).
Qed.

Lemma run_check_is_read_only_witness :
  World.files (snd (CLI._run_check sample_env text_check (sample_world "a.py" import_text)))
  = World.files (sample_world "a.py" import_text).
Proof.
  exact (proj1 (run_check_is_read_only sample_env text_check
                  (sample_world "a.py" import_text) (or_introl eq_refl))).
Defined.

(** X13.  In HTML format, without [--list-rules], a check never
    returns: whatever the path, the parser, the rules and [--output], the
    run ends in an exception (that of the parser or of the rules, else the
    [KeyError] of the page template) with nothing printed and nothing
    written. *)
Theorem run_check_html_never_returns :
  forall (E : Env.t) (args : CheckArgs.t) (w : World.t),
    CheckArgs.format args = html ->
    CheckArgs.list_rules args = false ->
    exists e, CLI._run_check E args w = (Raise e, w).
Proof.
  intros E args w Hformat Hlist. unfold CLI._run_check. rewrite Hlist. cbv zeta.
  unfold bind at 1. unfold get_state at 1. unfold bind at 1.
  assert (Hout : forall issues,
             exists e, (CLI._output_results E args issues ;;;
                        ret (match issues with [] => 0 | _ => 1 end)) w = (Raise e, w)).
  { intros issues. unfold CLI._output_results. rewrite Hformat. cbv iota.
    rewrite html_report_raises. unfold bind, lift. eauto. }
  destruct (World.dirs w !! path_str (CheckArgs.path args)) as [py_files|].
  - pose proof (check_files_keeps_world E py_files [] w) as Hw.
    destruct (CLI.check_files E [] py_files w) as [[issues|e] w']; simpl in Hw; subst w';
      [apply Hout | eauto].
  - pose proof (check_file_keeps_world E [] (path_str (CheckArgs.path args)) w) as Hw.
    destruct (CLI.check_file E [] (path_str (CheckArgs.path args)) w) as [[issues|e] w'];
      simpl in Hw; subst w'; [apply Hout | eauto].
Qed.

Lemma run_check_html_never_returns_witness :
  exists e,
    CLI._run_check sample_env
      {| CheckArgs.path := "a.py"; CheckArgs.format := html;
         CheckArgs.output := Some "report.html"; CheckArgs.no_copilot := false;
         CheckArgs.list_rules := false |} (sample_world "a.py" import_text)
    = (Raise e, sample_world "a.py" import_text).
Proof.
  exact (run_check_html_never_returns sample_env
           {| CheckArgs.path := "a.py"; CheckArgs.format := html;
              CheckArgs.output := Some "report.html"; CheckArgs.no_copilot := false;
              CheckArgs.list_rules := false |}
           (sample_world "a.py" import_text) eq_refl eq_refl).
Defined.

(** ** The text report *)

Lemma prefix_append (x q : string) : String.prefix x (x +:+ q) = true.
Proof.
  induction x as [|c x IH]; simpl; [destruct q; reflexivity|].
  destruct (ascii_dec c c) as [_|Hne]; [exact IH | contradiction].
Qed.

Lemma prefix_append_more (x s q : string) :
  String.prefix x s = true -> String.prefix x (s +:+ q) = true.
Proof.
  revert s. induction x as [|c x IH]; intros s H; simpl.
  - destruct (s +:+ q); reflexivity.
  - destruct s as [|c' s]; simpl in H; [discriminate|]. simpl.
    destruct (ascii_dec c c'); [apply IH; exact H | discriminate].
Qed.

Lemma str_in_append_left (x s q : string) :
  str_in x s = true -> str_in x (s +:+ q) = true.
Proof.
  induction s as [|c s IH]; simpl; intros H.
  - rewrite orb_false_r in H. destruct x; [|discriminate]. destruct q; reflexivity.
  - apply orb_true_iff in H as [H|H]; apply orb_true_iff.
    + left. exact (prefix_append_more x (String c s) q H).
    + right. exact (IH H).
Qed.

Lemma str_in_append_right (x p s : string) :
  str_in x s = true -> str_in x (p +:+ s) = true.
Proof.
  intros H. induction p as [|c p IH]; simpl; [exact H|].
  apply orb_true_iff. right. exact IH.
Qed.

Lemma str_in_prefix (x s : string) : String.prefix x s = true -> str_in x s = true.
Proof. intros H. destruct s; cbn [str_in]; rewrite H; reflexivity. Qed.

Lemma str_in_self_append (x q : string) : str_in x (x +:+ q) = true.
Proof. apply str_in_prefix, prefix_append. Qed.

(** [x] occurs in [p +:+ x +:+ q]. *)
Lemma str_in_middle (x p q : string) : str_in x (p +:+ x +:+ q) = true.
Proof. apply str_in_append_right, str_in_self_append. Qed.

Lemma text_report_has_entry (issues : list Issue.t) (i : Issue.t) :
  In i issues ->
  exists before after,
    CLI._generate_text_report issues = before +:+ CLI.text_entry i +:+ after.
Proof.
  induction issues as [|j issues IH]; intros Hin; [destruct Hin|].
  destruct Hin as [->|Hin].
  - exists EmptyString, (CLI._generate_text_report issues). reflexivity.
  - destruct (IH Hin) as [before [after Heq]].
    exists (CLI.text_entry j +:+ before), after.
    cbn [CLI._generate_text_report]. rewrite Heq. symmetry. apply append_assoc.
Qed.

(** X14.  The text report mentions every finding: the rule, the
    location [line:column], the message and the suggestion of each issue
    of the list occur in the report. *)
Theorem text_report_mentions_every_finding :
  forall (issues : list Issue.t) (i : Issue.t),
    In i issues ->
    let report := CLI._generate_text_report issues in
    str_in (Issue.rule i) report = true /\
    str_in (str_of_int (Issue.line i) +:+ ":" +:+ str_of_int (Issue.column i)) report = true /\
    str_in (Issue.message i) report = true /\
    str_in (Issue.suggestion i) report = true.
Proof.
  intros issues i Hin. cbv zeta.
  destruct (text_report_has_entry issues i Hin) as [before [after ->]].
  assert (Hentry : forall x, str_in x (CLI.text_entry i) = true ->
                             str_in x (before +:+ CLI.text_entry i +:+ after) = true).
  { intros x Hx. apply str_in_append_right, str_in_append_left. exact Hx. }
  unfold CLI.text_entry in *. repeat split; apply Hentry.
  - apply str_in_middle.
  - apply str_in_append_right, str_in_append_right, str_in_append_right.
    apply str_in_self_append.
  - do 8 apply str_in_append_right. apply str_in_self_append.
  - do 11 apply str_in_append_right. apply str_in_self_append.
Qed.

Lemma text_report_mentions_every_finding_witness :
  str_in "Weak password literal"
    (CLI._generate_text_report [plain_issue; weak_password_issue]) = true.
Proof.
  exact (proj1 (proj2 (proj2 (text_report_mentions_every_finding
                                [plain_issue; weak_password_issue] weak_password_issue
                                (or_intror (or_introl eq_refl)))))).
Defined.

(** ** The log of the fixer *)

Lemma eqb_fix_prefix (ft name : string) :
  String.eqb ("_fix_" +:+ ft) ("_fix_" +:+ name) = String.eqb ft name.
Proof. reflexivity. Qed.

Lemma has_fix_method_effective (issue : Issue.t) :
  CodeFixer.has_fix_method issue = effective_fix_type issue.
Proof.
  unfold CodeFixer.has_fix_method, effective_fix_type, CodeFixer.getattr_fix.
  destruct (Issue.fix_type issue) as [ft|]; [|reflexivity].
  change "_fix_remove_node" with ("_fix_" +:+ "remove_node").
  change "_fix_replace_node" with ("_fix_" +:+ "replace_node").
  change "_fix_insert_code" with ("_fix_" +:+ "insert_code").
  rewrite !eqb_fix_prefix.
  destruct (String.eqb ft "remove_node"); [reflexivity|].
  destruct (String.eqb ft "replace_node"); [reflexivity|].
  destruct (String.eqb ft "insert_code"); reflexivity.
Qed.

(** X15.  [apply_fixes] appends to [changes], in the order of the list,
    exactly the issues whose ['fix_type'] is [remove_node], [replace_node]
    or [insert_code]; whatever the issues are, the tree stays the one the
    fixer was built with and nothing is printed. *)
Theorem apply_fixes_logs_effective_fix_types :
  forall (self : CodeFixer.t) (issues : list Issue.t),
    let r := CodeFixer.apply_fixes self issues in
    CodeFixer.changes (CodeFixer.fixer r)
      = CodeFixer.changes self ++ List.filter effective_fix_type issues /\
    CodeFixer.module (CodeFixer.fixer r) = CodeFixer.module self /\
    CodeFixer.printed r = [].
Proof.
  intros self issues. cbv zeta. rewrite apply_fixes_spec. cbn.
  repeat split. f_equal. apply List.filter_ext. intros i. apply has_fix_method_effective.
Qed.

(** ** The rate limiter *)

Lemma filter_filter_implied {A : Type} (f g : A -> bool) (l : list A) :
  (forall x, f x = true -> g x = true) ->
  List.filter f (List.filter g l) = List.filter f l.
Proof.
  intros Himp. induction l as [|x l IH]; [reflexivity|]. simpl.
  destruct (g x) eqn:Hg; simpl.
  - rewrite IH. reflexivity.
  - destruct (f x) eqn:Hf; [rewrite (Himp x Hf) in Hg; discriminate | exact IH].
Qed.

Lemma filter_length_implied {A : Type} (f g : A -> bool) (l : list A) :
  (forall x, f x = true -> g x = true) ->
  (length (List.filter f l) <= length (List.filter g l))%nat.
Proof.
  intros Himp. induction l as [|x l IH]; [reflexivity|]. simpl.
  destruct (f x) eqn:Hf.
  - rewrite (Himp x Hf). simpl. lia.
  - destruct (g x); simpl; lia.
Qed.

Lemma recent_grants_snoc (now p : Z) (history : list Z) :
  0 < p -> recent_grants now p (history ++ [now]) = recent_grants now p history ++ [now].
Proof.
  intros Hp. unfold recent_grants. rewrite List.filter_app. simpl.
  destruct (Z.ltb_spec (now - p) now); [reflexivity | lia].
Qed.

(** One call of [allow_request] at a time not before the last one: the
    request is granted when fewer than [max_calls] requests were granted
    in the last [period] seconds, and the limiter still remembers the
    recent grants. *)
Lemma allow_request_step (self : CopilotRateLimiter.t) (history : list Z) (last now : Z) :
  limiter_inv self history last ->
  last <= now ->
  0 < CopilotRateLimiter.period self ->
  let ok :=
    Z.ltb (Z.of_nat (length (recent_grants now (CopilotRateLimiter.period self) history)))
          (CopilotRateLimiter.max_calls self) in
  let self' := snd (CopilotRateLimiter.allow_request now self) in
  fst (CopilotRateLimiter.allow_request now self) = ok /\
  CopilotRateLimiter.period self' = CopilotRateLimiter.period self /\
  CopilotRateLimiter.max_calls self' = CopilotRateLimiter.max_calls self /\
  limiter_inv self' (history ++ (if ok then [now] else [])) now.
Proof.
  intros [Hcalls Hpast] Hle Hp. cbv zeta.
  assert (Hrecent :
    List.filter (fun t => Z.ltb (now - CopilotRateLimiter.period self) t)
                (CopilotRateLimiter.calls self)
    = recent_grants now (CopilotRateLimiter.period self) history).
  { rewrite Hcalls. unfold recent_grants. apply filter_filter_implied.
    intros x Hx. apply Z.ltb_lt in Hx. apply Z.ltb_lt. lia. }
  assert (Hnow : Forall (fun t => t <= now) history).
  { eapply List.Forall_impl; [|exact Hpast]. simpl. intros t Ht. lia. }
  unfold CopilotRateLimiter.allow_request. rewrite Hrecent.
  rewrite (Z.ltb_antisym (CopilotRateLimiter.max_calls self)).
  destruct (Z.leb (CopilotRateLimiter.max_calls self)
              (Z.of_nat (length (recent_grants now (CopilotRateLimiter.period self) history))));
    simpl; repeat split; unfold limiter_inv; simpl.
  - rewrite app_nil_r. reflexivity.
  - rewrite app_nil_r. exact Hnow.
  - rewrite recent_grants_snoc by exact Hp. reflexivity.
  - apply Forall_app. split; [exact Hnow | repeat constructor; lia].
Qed.

Lemma granted_cons (self : CopilotRateLimiter.t) (now : Z) (rest : list Z) :
  granted self (now :: rest) =
  (if fst (CopilotRateLimiter.allow_request now self) then [now] else []) ++
  granted (snd (CopilotRateLimiter.allow_request now self)) rest.
Proof. simpl. destruct (CopilotRateLimiter.allow_request now self). reflexivity. Qed.

Lemma granted_window_from (p m : Z) (nows : list Z) :
  0 < p ->
  forall (self : CopilotRateLimiter.t) (history : list Z) (last : Z),
    CopilotRateLimiter.period self = p ->
    CopilotRateLimiter.max_calls self = m ->
    nondecreasing_from last nows = true ->
    limiter_inv self history last ->
    (forall a, Z.of_nat (length (List.filter (in_window a p) history)) <= Z.max 0 m) ->
    forall a,
      Z.of_nat (length (List.filter (in_window a p) (history ++ granted self nows)))
      <= Z.max 0 m.
Proof.
  intros Hp. induction nows as [|now rest IH]; intros self history last Hper Hmax Hmono Hinv Hwin a.
  - simpl. rewrite app_nil_r. apply Hwin.
  - simpl in Hmono. apply andb_true_iff in Hmono as [Hle Hmono]. apply Z.leb_le in Hle.
    rewrite granted_cons.
    assert (Hp' : 0 < CopilotRateLimiter.period self) by (rewrite Hper; exact Hp).
    destruct (allow_request_step self history last now Hinv Hle Hp')
      as [Hok [Hper' [Hmax' Hinv']]].
    rewrite Hok, Hper, Hmax in *. rewrite app_assoc.
    apply (IH _ _ now); [congruence | congruence | exact Hmono | exact Hinv' |].
    intros b.
    destruct (Z.ltb_spec (Z.of_nat (length (recent_grants now p history))) m) as [Hlt|Hge];
      [|rewrite app_nil_r; apply Hwin].
    rewrite List.filter_app, length_app. simpl.
    destruct (in_window b p now) eqn:Hin; simpl; [|pose proof (Hwin b); lia].
    assert (Hbound : (length (List.filter (in_window b p) history)
                      <= length (recent_grants now p history))%nat).
    { apply filter_length_implied. intros t Ht.
      unfold in_window in Hin, Ht.
      apply andb_true_iff in Hin as [Hin1 Hin2]. apply andb_true_iff in Ht as [Ht1 Ht2].
      apply Z.ltb_lt in Hin1, Ht1. apply Z.leb_le in Hin2. apply Z.ltb_lt. lia. }
    lia.
Qed.

(** X16.  The limiter holds its rate: when the clock never goes back,
    the requests granted by a fresh limiter in any window of sixty seconds
    (after [a], not after [a + 60]) number at most [max_calls]. *)
Theorem rate_limiter_bounds_every_window :
  forall (max_calls : Z) (nows : list Z) (a : Z),
    nondecreasing nows = true ->
    Z.of_nat (length (List.filter (in_window a 60)
                        (granted (CopilotRateLimiter.__init__ max_calls) nows)))
    <= Z.max 0 max_calls.
Proof.
  intros max_calls nows a Hmono.
  destruct nows as [|now rest]; [simpl; lia|].
  apply (granted_window_from 60 max_calls (now :: rest) ltac:(lia)
           (CopilotRateLimiter.__init__ max_calls) [] now); try reflexivity.
  - simpl. rewrite Z.leb_refl. exact Hmono.
  - split; [reflexivity | constructor].
  - intros b. simpl. lia.
Qed.

Lemma rate_limiter_bounds_every_window_witness :
  Z.of_nat (length (List.filter (in_window 0 60)
                      (granted (CopilotRateLimiter.__init__ 2) [1; 2; 3; 60; 61; 62])))
  <= Z.max 0 2.
Proof. exact (rate_limiter_bounds_every_window 2 [1; 2; 3; 60; 61; 62] 0 eq_refl). Defined.

Lemma granted_snoc_from (before : list Z) :
  forall (self : CopilotRateLimiter.t) (history : list Z) (last now : Z),
    0 < CopilotRateLimiter.period self ->
    nondecreasing_from last (before ++ [now]) = true ->
    limiter_inv self history last ->
    granted self (before ++ [now]) =
    granted self before ++
    (if Z.ltb (Z.of_nat (length (recent_grants now (CopilotRateLimiter.period self)
                                   (history ++ granted self before))))
              (CopilotRateLimiter.max_calls self)
     then [now] else []).
Proof.
  induction before as [|t before IH]; intros self history last now Hp Hmono Hinv;
    simpl in Hmono; apply andb_true_iff in Hmono as [Hle Hmono]; apply Z.leb_le in Hle.
  - destruct (allow_request_step self history last now Hinv Hle Hp) as [Hok _].
    change ([] ++ [now]) with [now]. rewrite granted_cons, Hok. simpl.
    rewrite !app_nil_r. reflexivity.
  - destruct (allow_request_step self history last t Hinv Hle Hp)
      as [Hok [Hper [Hmax Hinv']]].
    change ((t :: before) ++ [now]) with (t :: (before ++ [now])).
    rewrite !granted_cons.
    rewrite (IH _ _ t now ltac:(rewrite Hper; exact Hp) Hmono Hinv').
    rewrite Hper, Hmax, Hok. rewrite <- !app_assoc. reflexivity.
Qed.

(** X17.  The limiter refuses a request only when the rate is reached:
    when the clock never goes back, a request at the time [now] is
    granted exactly when fewer than [max_calls] of the requests granted
    before it fall in the sixty seconds before [now]. *)
Theorem rate_limiter_grants_below_the_rate :
  forall (max_calls : Z) (before : list Z) (now : Z),
    nondecreasing (before ++ [now]) = true ->
    let limiter := CopilotRateLimiter.__init__ max_calls in
    granted limiter (before ++ [now]) =
    granted limiter before ++
    (if Z.ltb (Z.of_nat (length (recent_grants now 60 (granted limiter before)))) max_calls
     then [now] else []).
Proof.
  intros max_calls before now Hmono. cbv zeta.
  assert (Hfrom : exists last, nondecreasing_from last (before ++ [now]) = true).
  { destruct before as [|t before]; simpl in *.
    - exists now. rewrite Z.leb_refl. reflexivity.
    - exists t. rewrite Z.leb_refl. exact Hmono. }
  destruct Hfrom as [last Hfrom].
  apply (granted_snoc_from before (CopilotRateLimiter.__init__ max_calls) [] last now);
    [simpl; lia | exact Hfrom | split; [reflexivity | constructor]].
Qed.

Lemma rate_limiter_grants_below_the_rate_witness :
  granted (CopilotRateLimiter.__init__ 2) ([1; 2; 3] ++ [61]) =
  granted (CopilotRateLimiter.__init__ 2) [1; 2; 3] ++
  (if Z.ltb (Z.of_nat (length (recent_grants 61 60
                                 (granted (CopilotRateLimiter.__init__ 2) [1; 2; 3])))) 2
   then [61] else []).
Proof. exact (rate_limiter_grants_below_the_rate 2 [1; 2; 3] 61 eq_refl). Defined.

(** ** The cache of the suggestion proxy *)

Lemma save_to_cache_writes (N : Net.t) (key : string) (response : JSON) (s : CopilotFixer.t) :
  Net.can_write N (CopilotFixer.cache_file s key) = true ->
  CopilotFixer._save_to_cache N key response s =
  (Return tt,
   {| CopilotFixer.config := CopilotFixer.config s;
      CopilotFixer.rate_limiter := CopilotFixer.rate_limiter s;
      CopilotFixer.files :=
        <[CopilotFixer.cache_file s key :=
            Net.json_dump N (cache_entry (CopilotFixer.clock s) response)]>
          (CopilotFixer.files s);
      CopilotFixer.clock := CopilotFixer.clock s;
      CopilotFixer.stderr := CopilotFixer.stderr s |}).
Proof.
  intros Hw. unfold CopilotFixer._save_to_cache, try_except, bind, get_state.
  rewrite Hw. reflexivity.
Qed.

Lemma load_from_cache_entry (N : Net.t) (key : string) (stamp : Z) (response : JSON)
    (s : CopilotFixer.t) :
  CopilotFixer.files s !! CopilotFixer.cache_file s key
    = Some (Net.json_dump N (cache_entry stamp response)) ->
  reads_back N (cache_entry stamp response) ->
  CopilotFixer._load_from_cache N key s =
  match Net.stat_error N (CopilotFixer.cache_file s key) with
  | Some e => (Raise e, s)
  | None =>
      (Return (if Z.ltb (CopilotFixer.clock s - stamp) 86400 then response else JNull), s)
  end.
Proof.
  intros Hfile Hback. unfold CopilotFixer._load_from_cache, bind at 1, get_state at 1.
  destruct (Net.stat_error N (CopilotFixer.cache_file s key)) as [e|]; [reflexivity|].
  rewrite Hfile. unfold try_except, bind, lift. rewrite Hback.
  cbn [cache_entry json_get lookup_entry String.eqb Ascii.eqb Bool.eqb default seconds_since].
  simpl. destruct (Z.ltb (CopilotFixer.clock s - stamp) 86400); reflexivity.
Qed.

(** X18.  What [_save_to_cache] writes, [_load_from_cache] gives back
    for twenty-four hours: when the cache file can be written and json
    reads back the entry, loading the key at a later time of the clock
    returns the saved response while less than 86400 seconds have passed,
    and nothing from then on; loading changes nothing.  The one other
    outcome is the error of [cache_file.exists()], which stands before
    the [try] and is raised as it is. *)
Theorem cache_round_trip :
  forall (N : Net.t) (key : string) (response : JSON) (s : CopilotFixer.t) (later : Z),
    Net.can_write N (CopilotFixer.cache_file s key) = true ->
    reads_back N (cache_entry (CopilotFixer.clock s) response) ->
    let saved := set_clock (snd (CopilotFixer._save_to_cache N key response s)) later in
    CopilotFixer._load_from_cache N key saved =
    match Net.stat_error N (CopilotFixer.cache_file s key) with
    | Some e => (Raise e, saved)
    | None =>
        (Return (if Z.ltb (later - CopilotFixer.clock s) 86400 then response else JNull),
         saved)
    end.
Proof.
  intros N key response s later Hw Hback. cbv zeta.
  rewrite (save_to_cache_writes N key response s Hw). cbn [snd].
  rewrite (load_from_cache_entry N key (CopilotFixer.clock s) response); [reflexivity| |exact Hback].
  unfold set_clock, CopilotFixer.cache_file. cbn.
  apply lookup_insert_eq.
Qed.

Lemma cache_round_trip_witness :
  CopilotFixer._load_from_cache answering "k"
    (set_clock (snd (CopilotFixer._save_to_cache answering "k" (JStr "fixed = 1") sample_proxy))
       87399)
  = (Return (JStr "fixed = 1"),
     set_clock (snd (CopilotFixer._save_to_cache answering "k" (JStr "fixed = 1") sample_proxy))
       87399).
Proof.
  exact (cache_round_trip answering "k" (JStr "fixed = 1") sample_proxy 87399 eq_refl eq_refl).
Defined.

(** X19.  A suggestion the server gave is reused for twenty-four hours:
    after a call that fetched a non-empty suggestion (its key computed,
    the cache looked into and found empty, the limiter asked, the prompt
    built, the server answering 200) and could store it, a call for the
    same snippet less than 86400 seconds later returns that suggestion
    whatever the server and the context then are, and leaves the proxy
    as it was: no request is sent, the limiter is not asked and nothing
    is logged. *)
Theorem cached_suggestion_is_reused :
  forall (N : Net.t) (code_snippet : string) (context : JSON)
         (self : CopilotFixer.t) (c : ascii) (tk key prompt : string)
         (response : Response.t) (v : JSON),
    let cfg := CopilotFixer.config self in
    CopilotConfig.enabled cfg = true ->
    Net.REQUESTS_AVAILABLE N = true ->
    CopilotConfig.auth_token cfg = Some (String c tk) ->
    CopilotFixer._get_cache_key N code_snippet = Return key ->
    Net.stat_error N (CopilotFixer.cache_file self key) = None ->
    cache_miss N self key ->
    ~ rate_limited self ->
    CopilotFixer._build_prompt N code_snippet context = Return prompt ->
    CopilotFixer.post_request N cfg (String c tk) prompt = Return response ->
    Response.status_code response = 200 ->
    CopilotFixer.suggestion_of_response response = Return v ->
    json_truthy v = true ->
    Net.can_write N (CopilotFixer.cache_file self key) = true ->
    reads_back N (cache_entry (CopilotFixer.clock self) v) ->
    let first := CopilotFixer.get_suggestion N code_snippet context self in
    fst first = Return v /\
    forall (later : Z) post' context',
      later - CopilotFixer.clock self < 86400 ->
      CopilotFixer.get_suggestion (with_post N post') code_snippet context'
        (set_clock (snd first) later)
      = (Return v, set_clock (snd first) later).
Proof.
  intros N code_snippet context self c tk key prompt response v cfg
    Hen Hreq Htok Hkey Hstat Hmiss Hrate Hprompt Hpost Hstatus Hsugg Htruthy Hwrite Hback.
  subst cfg. cbv zeta.
  destruct (load_from_cache_spec N key self Hstat) as [cached [lines Hload]].
  assert (Hcached : json_truthy cached = false).
  { unfold cache_miss, cached_value in Hmiss. rewrite Hload in Hmiss. exact Hmiss. }
  assert (Hok : fst (CopilotRateLimiter.allow_request (CopilotFixer.clock self)
                       (CopilotFixer.rate_limiter self)) = true).
  { unfold rate_limited in Hrate. destruct (fst _); [reflexivity | contradiction]. }
  assert (Hfirst :
    CopilotFixer.get_suggestion N code_snippet context self =
    (Return v,
     {| CopilotFixer.config := CopilotFixer.config self;
        CopilotFixer.rate_limiter :=
          snd (CopilotRateLimiter.allow_request (CopilotFixer.clock self)
                 (CopilotFixer.rate_limiter self));
        CopilotFixer.files :=
          <[CopilotFixer.cache_file self key :=
              Net.json_dump N (cache_entry (CopilotFixer.clock self) v)]>
            (CopilotFixer.files self);
        CopilotFixer.clock := CopilotFixer.clock self;
        CopilotFixer.stderr := lines |})).
  { unfold CopilotFixer.get_suggestion.
    unfold bind at 1. unfold get_state at 1. rewrite Hen, Hreq, Htok. cbn [negb].
    unfold bind at 1. unfold lift at 1. rewrite Hkey.
    unfold bind at 1. rewrite Hload, Hcached.
    unfold bind at 1. unfold CopilotFixer.allow_request at 1.
    cbn [set_stderr CopilotFixer.clock CopilotFixer.rate_limiter].
    destruct (CopilotRateLimiter.allow_request (CopilotFixer.clock self)
                (CopilotFixer.rate_limiter self)) as [ok limiter].
    cbn [fst snd] in *. subst ok. cbn [negb].
    unfold bind at 1. unfold lift at 1. rewrite Hprompt.
    unfold CopilotFixer.request, try_except.
    unfold bind at 1. unfold lift at 1. rewrite Hpost, Hstatus. cbn [Z.eqb Pos.eqb].
    unfold bind at 1. unfold lift at 1. rewrite Hsugg.
    unfold bind at 1.
    rewrite save_to_cache_writes by exact Hwrite. reflexivity. }
  rewrite Hfirst. cbn [fst snd]. split; [reflexivity|].
  intros later post' context' Hlater.
  unfold CopilotFixer.get_suggestion.
  unfold bind at 1. unfold get_state at 1.
  cbn [set_clock CopilotFixer.config with_post Net.REQUESTS_AVAILABLE].
  rewrite Hen, Hreq, Htok. cbn [negb].
  unfold bind at 1. unfold lift at 1.
  replace (CopilotFixer._get_cache_key (with_post N post') code_snippet)
    with (Return key : outcome string) by (rewrite <- Hkey; reflexivity).
  unfold bind at 1.
  rewrite (load_from_cache_entry (with_post N post') key (CopilotFixer.clock self) v).
  - replace (Net.stat_error (with_post N post') _) with (@None exn)
      by (rewrite <- Hstat; reflexivity).
    cbn [set_clock CopilotFixer.clock].
    destruct (Z.ltb_spec (later - CopilotFixer.clock self) 86400); [|lia].
    rewrite Htruthy. reflexivity.
  - unfold CopilotFixer.cache_file. cbn.
    apply lookup_insert_eq.
  - exact Hback.
Qed.

Lemma cached_suggestion_is_reused_witness :
  CopilotFixer.get_suggestion (with_post answering unreachable_post) "x = eval(s)" JNull
    (set_clock (snd (CopilotFixer.get_suggestion answering "x = eval(s)" JNull sample_proxy))
       5000)
  = (Return (JStr "fixed = 1"),
     set_clock (snd (CopilotFixer.get_suggestion answering "x = eval(s)" JNull sample_proxy))
       5000).
Proof.
  refine (proj2 (cached_suggestion_is_reused answering "x = eval(s)" JNull sample_proxy
                   "t"%char "0ken" "x = eval(s)" _ _ (JStr "fixed = 1")
                   eq_refl eq_refl eq_refl eq_refl eq_refl _ _ eq_refl eq_refl
                   eq_refl eq_refl eq_refl eq_refl eq_refl)
                5000 unreachable_post JNull _).
  - vm_compute. reflexivity.
  - vm_compute. discriminate.
  - vm_compute. reflexivity.
Defined.

(** ** What the suggestion proxy leaves alone *)

Lemma touches_only_refl (path : string) (s : CopilotFixer.t) : touches_only path s s.
Proof.
  repeat split. exists []. rewrite app_nil_r. reflexivity.
Qed.

Lemma touches_only_trans (path : string) (s1 s2 s3 : CopilotFixer.t) :
  touches_only path s1 s2 -> touches_only path s2 s3 -> touches_only path s1 s3.
Proof.
  intros (Hc & Hk & Hm & Hp & [l1 Hl1] & Hf) (Hc' & Hk' & Hm' & Hp' & [l2 Hl2] & Hf').
  repeat split; try congruence.
  - exists (l1 ++ l2). rewrite Hl2, Hl1, app_assoc. reflexivity.
  - intros p Hne. rewrite (Hf' p Hne). apply Hf. exact Hne.
Qed.

Lemma warn_touches_only (path msg : string) (s : CopilotFixer.t) :
  touches_only path s (snd (CopilotFixer.warn msg s)).
Proof. repeat split. exists [msg]. reflexivity. Qed.

Lemma warn_then_touches_only {A : Type} (path msg : string) (a : A) (s : CopilotFixer.t) :
  touches_only path s (snd ((CopilotFixer.warn msg ;;; ret a) s)).
Proof. repeat split. exists [msg]. reflexivity. Qed.

Lemma load_touches_only (N : Net.t) (path key : string) (s : CopilotFixer.t) :
  touches_only path s (snd (CopilotFixer._load_from_cache N key s)).
Proof.
  unfold CopilotFixer._load_from_cache, bind at 1, get_state at 1.
  destruct (Net.stat_error N (CopilotFixer.cache_file s key)) as [e|];
    [apply touches_only_refl|].
  destruct (CopilotFixer.files s !! CopilotFixer.cache_file s key) as [content|];
    [|apply touches_only_refl].
  unfold try_except, bind at 1, lift at 1.
  destruct (Net.json_load N content) as [data|e]; [|apply warn_then_touches_only].
  unfold bind at 1, lift at 1.
  destruct (json_get data "timestamp" (JNum 0)) as [stamp|e];
    [|apply warn_then_touches_only].
  unfold bind at 1, lift at 1.
  destruct (seconds_since (CopilotFixer.clock s) stamp) as [age|e];
    [|apply warn_then_touches_only].
  destruct (Z.ltb age 86400); [|apply touches_only_refl].
  unfold lift. destruct (json_get data "response" JNull);
    [apply touches_only_refl | apply warn_then_touches_only].
Qed.

Lemma save_touches_only (N : Net.t) (key : string) (v : JSON) (s : CopilotFixer.t) :
  touches_only (CopilotFixer.cache_file s key) s
    (snd (CopilotFixer._save_to_cache N key v s)).
Proof.
  unfold CopilotFixer._save_to_cache, try_except, bind, get_state.
  destruct (Net.can_write N (CopilotFixer.cache_file s key)).
  - repeat split; [exists []; symmetry; apply app_nil_r|].
    intros p Hne. cbn. apply lookup_insert_ne. congruence.
  - apply warn_touches_only.
Qed.

Lemma allow_request_touches_only (path : string) (s : CopilotFixer.t) :
  touches_only path s (snd (CopilotFixer.allow_request s)).
Proof.
  unfold CopilotFixer.allow_request, CopilotRateLimiter.allow_request.
  destruct (Z.leb _ _); repeat split; exists []; symmetry; apply app_nil_r.
Qed.

Lemma request_touches_only (N : Net.t) (cfg : CopilotConfig.t)
    (token code_snippet prompt key : string) (s : CopilotFixer.t) :
  touches_only (CopilotFixer.cache_file s key) s
    (snd (CopilotFixer.request N cfg token code_snippet prompt key s)).
Proof.
  unfold CopilotFixer.request, try_except.
  unfold bind at 1. unfold lift at 1.
  destruct (CopilotFixer.post_request N cfg token prompt) as [response|e];
    [|apply warn_then_touches_only].
  destruct (Z.eqb (Response.status_code response) 200); [|apply warn_then_touches_only].
  unfold bind at 1. unfold lift at 1.
  destruct (CopilotFixer.suggestion_of_response response) as [suggestion|e];
    [|apply warn_then_touches_only].
  unfold bind.
  pose proof (save_touches_only N key suggestion s) as Hsave.
  destruct (CopilotFixer._save_to_cache N key suggestion s) as [[[]|e] s']; cbn [snd] in *.
  - exact Hsave.
  - eapply touches_only_trans; [exact Hsave|]. apply warn_then_touches_only.
Qed.

Lemma touches_only_cache_file (path key : string) (s s' : CopilotFixer.t) :
  touches_only path s s' -> CopilotFixer.cache_file s' key = CopilotFixer.cache_file s key.
Proof. intros [Hc _]. unfold CopilotFixer.cache_file. rewrite Hc. reflexivity. Qed.

(** X20.  A call of [get_suggestion] touches only its own cache entry:
    the configuration and the clock stay as they were, the limiter keeps
    its rate, the log only grows, and every file other than the cache file
    of the snippet keeps its content (or stays absent), whatever the
    server answers and whether the call returns or raises.  When the key
    of the snippet cannot be computed there is no such file, and no file
    at all is touched. *)
Theorem get_suggestion_touches_only_its_cache_entry :
  forall (N : Net.t) (code_snippet : string) (context : JSON) (self : CopilotFixer.t),
    match CopilotFixer._get_cache_key N code_snippet with
    | Return key =>
        touches_only (CopilotFixer.cache_file self key) self
          (snd (CopilotFixer.get_suggestion N code_snippet context self))
    | Raise _ =>
        forall path,
          touches_only path self
            (snd (CopilotFixer.get_suggestion N code_snippet context self))
    end.
Proof.
  intros N code_snippet context self.
  assert (Hearly : forall path,
    CopilotConfig.enabled (CopilotFixer.config self) = false \/
    Net.REQUESTS_AVAILABLE N = false \/
    (forall c tk, CopilotConfig.auth_token (CopilotFixer.config self)
                  <> Some (String c tk)) ->
    touches_only path self
      (snd (CopilotFixer.get_suggestion N code_snippet context self))).
  { intros path Hcase. unfold CopilotFixer.get_suggestion.
    unfold bind at 1. unfold get_state at 1.
    destruct (CopilotConfig.enabled (CopilotFixer.config self)); cbn [negb];
      [|apply touches_only_refl].
    destruct (Net.REQUESTS_AVAILABLE N); cbn [negb]; [|apply warn_then_touches_only].
    destruct (CopilotConfig.auth_token (CopilotFixer.config self)) as [[|c tk]|];
      [apply warn_then_touches_only | | apply warn_then_touches_only].
    destruct Hcase as [H | [H | H]]; try discriminate.
    exfalso. exact (H c tk eq_refl). }
  destruct (CopilotConfig.enabled (CopilotFixer.config self)) eqn:Hen;
    [|destruct (CopilotFixer._get_cache_key N code_snippet); intros;
      apply Hearly; left; reflexivity].
  destruct (Net.REQUESTS_AVAILABLE N) eqn:Hreq;
    [|destruct (CopilotFixer._get_cache_key N code_snippet); intros;
      apply Hearly; right; left; reflexivity].
  destruct (CopilotConfig.auth_token (CopilotFixer.config self)) as [[|c tk]|] eqn:Htok;
    [destruct (CopilotFixer._get_cache_key N code_snippet); intros;
     apply Hearly; right; right; intros; discriminate
    | | destruct (CopilotFixer._get_cache_key N code_snippet); intros;
     apply Hearly; right; right; intros; discriminate].
  clear Hearly.
  destruct (CopilotFixer._get_cache_key N code_snippet) as [key|e] eqn:Hkey.
  2:{ intros path. unfold CopilotFixer.get_suggestion.
      unfold bind at 1. unfold get_state at 1.
      rewrite Hen, Hreq, Htok. cbn [negb].
      unfold bind at 1. unfold lift at 1. rewrite Hkey. apply touches_only_refl. }
  unfold CopilotFixer.get_suggestion.
  unfold bind at 1. unfold get_state at 1.
  rewrite Hen, Hreq, Htok. cbn [negb].
  unfold bind at 1. unfold lift at 1. rewrite Hkey.
  set (path := CopilotFixer.cache_file self key).
  unfold bind at 1.
  pose proof (load_touches_only N path key self) as Hload.
  destruct (CopilotFixer._load_from_cache N key self)
    as [[cached|e] s1]; cbn [snd] in Hload; [|exact Hload].
  destruct (json_truthy cached); [exact Hload|].
  unfold bind at 1.
  pose proof (allow_request_touches_only path s1) as Hallow.
  destruct (CopilotFixer.allow_request s1) as [[allowed|e] s2]; cbn [snd] in Hallow;
    [|eapply touches_only_trans; eassumption].
  assert (H12 : touches_only path self s2) by (eapply touches_only_trans; eassumption).
  destruct allowed; cbn [negb].
  - unfold bind at 1. unfold lift at 1.
    destruct (CopilotFixer._build_prompt N code_snippet context) as [prompt|e];
      [|exact H12].
    eapply touches_only_trans; [exact H12|].
    replace path with (CopilotFixer.cache_file s2 key)
      by (apply (touches_only_cache_file path); exact H12).
    apply request_touches_only.
  - eapply touches_only_trans; [exact H12|]. apply warn_then_touches_only.
Qed.

(** ** The check command with [--output] *)







(** ** A path that does not exist *)



(** ** The [eval] rule *)

Lemma filter_matches_pure (f : CSTNode -> bool) (p : CSTNode -> outcome bool)
    (l : list CSTNode) :
  (forall n, p n = Return (f n)) -> filter_matches p l = Return (List.filter f l).
Proof.
  intros Hp. induction l as [|n l IH]; [reflexivity|]. simpl.
  rewrite Hp, IH. simpl. destruct (f n); reflexivity.
Qed.

Lemma eval_matcher_pure (n : CSTNode) :
  UnsafeEvalRule.eval_matcher n = Return (is_eval_call n).
Proof. destruct n as [| | | | |f args| | | | | | | | | | |]; try reflexivity. destruct f; reflexivity. Qed.

Lemma omap_pure {A B : Type} (f : A -> outcome B) (g : A -> B) (l : list A) :
  (forall a, In a l -> f a = Return (g a)) -> omap f l = Return (List.map g l).
Proof.
  induction l as [|a l IH]; intros Hf; [reflexivity|]. simpl.
  rewrite (Hf a (or_introl eq_refl)), IH; [reflexivity|].
  intros b Hb. apply Hf. right. exact Hb.
Qed.

Lemma is_eval_call_class (n : CSTNode) : is_eval_call n = true -> class_name n = "Call".
Proof. destruct n; try discriminate. reflexivity. Qed.

(** X23.  When the library gives every node a position, the [eval] rule
    returns one finding for each call of the plain name [eval] in the
    module, nested calls included, in the order a visitor meets them; each
    finding is an error named [unsafe_eval] that carries the call and its
    position. *)
Theorem unsafe_eval_reports_each_call :
  forall (L : Libcst.t) (m : CstModule.t) (line column : CSTNode -> Z),
    (forall n, Libcst.lineno L n = Some (line n)) ->
    (forall n, Libcst.col_offset L n = Some (column n)) ->
    exists issues,
      UnsafeEvalRule.apply L m = Return issues /\
      List.map Issue.node issues
        = List.map Some (List.filter is_eval_call (module_nodes m)) /\
      Forall (fun i =>
                Issue.rule i = "unsafe_eval" /\ Issue.severity i = "error" /\
                exists n, Issue.node i = Some n /\
                          Issue.line i = line n /\ Issue.column i = column n) issues.
Proof.
  intros L m line column Hline Hcol.
  unfold UnsafeEvalRule.apply, findall.
  rewrite (filter_matches_pure is_eval_call) by apply eval_matcher_pure.
  cbn [obind].
  set (calls := List.filter is_eval_call (module_nodes m)).
  set (issue := fun n =>
    {| Issue.rule := "unsafe_eval";
       Issue.message := "Potential code execution vulnerability through eval()";
       Issue.line := line n; Issue.column := column n;
       Issue.severity := "error"; Issue.fix_type := Some "remove";
       Issue.suggestion := "Replace with ast.literal_eval() or input validation";
       Issue.node := Some n |}).
  exists (List.map issue calls). split; [|split].
  - apply omap_pure. intros n _.
    unfold UnsafeEvalRule.issue_of, read_lineno, read_col_offset.
    rewrite Hline, Hcol. reflexivity.
  - rewrite List.map_map. reflexivity.
  - apply List.Forall_forall. intros i Hi. apply List.in_map_iff in Hi as [n [<- _]].
    repeat split. exists n. repeat split.
Qed.

Lemma unsafe_eval_reports_each_call_witness :
  exists issues,
    UnsafeEvalRule.apply positioned eval_module = Return issues /\
    List.map Issue.node issues =
    [Some (Call (Name "eval") [Arg (Name "s")]); Some (Call (Name "eval") [Arg (Name "t")])].
Proof.
  destruct (unsafe_eval_reports_each_call positioned eval_module
              (fun n => default 0 (Libcst.lineno positioned n))
              (fun n => default 0 (Libcst.col_offset positioned n)))
    as [issues [Hrun [Hnodes _]]].
  - intros n. reflexivity.
  - intros n. reflexivity.
  - exists issues. split; [exact Hrun | exact Hnodes].
Defined.

(** X24.  When the nodes carry no [lineno] attribute, the [eval] rule
    reports nothing at all: it returns the empty list for a module
    without a call of [eval], and raises [AttributeError] on the first
    such call otherwise. *)
Theorem unsafe_eval_without_positions :
  forall (L : Libcst.t) (m : CstModule.t),
    (forall n, Libcst.lineno L n = None) ->
    UnsafeEvalRule.apply L m =
    if existsb is_eval_call (module_nodes m)
    then Raise (PyExc "AttributeError" "'Call' object has no attribute 'lineno'")
    else Return [].
Proof.
  intros L m Hline. unfold UnsafeEvalRule.apply, findall.
  rewrite (filter_matches_pure is_eval_call) by apply eval_matcher_pure.
  cbn [obind].
  induction (module_nodes m) as [|n l IH]; [reflexivity|]. simpl.
  destruct (is_eval_call n) eqn:Hn; [|exact IH]. simpl.
  unfold UnsafeEvalRule.issue_of, read_lineno. rewrite Hline. simpl.
  unfold AttributeError. rewrite (is_eval_call_class n Hn). reflexivity.
Qed.

Lemma unsafe_eval_without_positions_witness :
  UnsafeEvalRule.apply unpositioned eval_module =
  Raise (PyExc "AttributeError" "'Call' object has no attribute 'lineno'").
Proof.
  exact (unsafe_eval_without_positions unpositioned eval_module (fun n => eq_refl)).
Defined.

(** ** The git hook *)












(** ** The CI adapters *)


(** X29.  The configuration the factory's adapter generates stores the
    report where the adapter looks for it: in each of the three CI
    environments [generate_config] returns a file whose check command ends
    in [--output /tmp/codepolice/results.json], the path [process_results]
    tests; outside CI the adapter is the base class and [generate_config]
    raises [NotImplementedError]. *)
Theorem generate_config_names_the_results_file :
  forall (environ : gmap string string),
    let adapter := CICDAdapterFactory.get_adapter environ in
    let env := CICDAdapter.env adapter in
    CIEnvironment.is_ci env =
      (has_key "GITHUB_ACTIONS" environ || has_key "GITLAB_CI" environ ||
       has_key "CIRCLECI" environ) /\
    if CIEnvironment.is_ci env then
      exists config,
        CICDAdapter.generate_config adapter = Return config /\
        str_in ("codepolice check . --format json --output " +:+
                CIEnvironment.output_dir env +:+ "/results.json" +:+ NL) config = true /\
        CIEnvironment.output_dir env = "/tmp/codepolice"
    else
      CICDAdapter.generate_config adapter =
      Raise (CICDAdapter.NotImplementedError "Must implement generate_config() in subclass").
Proof.
  intros environ. cbv zeta.
  unfold CICDAdapterFactory.get_adapter, CICDAdapter.__init__, CICDAdapter._detect_environment.
  destruct (has_key "GITHUB_ACTIONS" environ);
    [|destruct (has_key "GITLAB_CI" environ); [|destruct (has_key "CIRCLECI" environ)]];
    (split; [reflexivity|]); try reflexivity;
    eexists; (split; [reflexivity|]); split; try reflexivity; vm_compute; reflexivity.
Qed.

(** ** Rules on nodes without positions *)

Lemma omap_of_failing {A B : Type} (f : A -> outcome B) (l : list A) (bs : list B) :
  (forall a b, f a <> Return b) -> omap f l = Return bs -> bs = [].
Proof.
  intros Hf H. destruct l as [|a l]; simpl in H; [inversion H; reflexivity|].
  destruct (f a) as [b|e] eqn:Hb; [destruct (Hf a b Hb) | discriminate].
Qed.

Lemma read_lineno_fails (L : Libcst.t) (n : CSTNode) (z : Z) :
  (forall n, Libcst.lineno L n = None) -> read_lineno L n <> Return z.
Proof. intros Hline. unfold read_lineno. rewrite Hline. discriminate. Qed.

Ltac issue_needs_lineno Hline :=
  let H := fresh "H" in
  intros H;
  repeat match type of H with
         | obind (read_lineno _ _) _ = _ =>
             unfold read_lineno in H; rewrite Hline in H; discriminate H
         | obind ?x _ = _ => destruct x; cbn [obind] in H; [|discriminate H]
         end.

Lemma concat_of_empty {A : Type} (ls : list (list A)) :
  Forall (fun l => l = []) ls -> concat ls = [].
Proof. induction 1 as [|l ls Hl _ IH]; [reflexivity|]. simpl. rewrite Hl, IH. reflexivity. Qed.

Lemma repeated_issues_need_lineno (L : Libcst.t) (mt : CSTNode) (found : list Issue.t) :
  (forall n, Libcst.lineno L n = None) ->
  RepeatedCalculationRule.issues_of L mt = Return found -> found = [].
Proof.
  intros Hline. unfold RepeatedCalculationRule.issues_of. intros H.
  destruct (RepeatedCalculationRule.element_func mt) as [f|]; cbn [obind] in H;
    [|discriminate].
  destruct (value_attr f) as [func_name|]; [|inversion H; reflexivity].
  destruct (RepeatedCalculationRule.truthy (Some func_name)); [|inversion H; reflexivity].
  unfold read_lineno in H. rewrite Hline in H. discriminate.
Qed.

(** X30.  When the nodes carry no [lineno] attribute, no rule ever
    returns a finding: whatever the module, each of the five rules
    (hardcoded secret, [eval], naming convention, unused import, repeated
    calculation) either raises or returns the empty list, since every
    branch that builds an issue reads [match.lineno] first. *)
Theorem no_rule_reports_without_positions :
  forall (L : Libcst.t) (m : CstModule.t) (issues : list Issue.t),
    (forall n, Libcst.lineno L n = None) ->
    HardcodedSecretRule.apply L m = Return issues \/
    UnsafeEvalRule.apply L m = Return issues \/
    NamingConventionRule.apply L m = Return issues \/
    UnusedImportRule.apply L m = Return issues \/
    RepeatedCalculationRule.apply L m = Return issues ->
    issues = [].
Proof.
  intros L m issues Hline [H|[H|[H|[H|H]]]].
  - unfold HardcodedSecretRule.apply in H.
    destruct (findall m (HardcodedSecretRule.secret_matcher L)) as [ms|]; cbn [obind] in H;
      [|discriminate].
    eapply omap_of_failing; [|exact H]. intros mt i.
    unfold HardcodedSecretRule.issue_of. issue_needs_lineno Hline.
  - unfold UnsafeEvalRule.apply in H.
    destruct (findall m UnsafeEvalRule.eval_matcher) as [ms|]; cbn [obind] in H;
      [|discriminate].
    eapply omap_of_failing; [|exact H]. intros mt i.
    unfold UnsafeEvalRule.issue_of. issue_needs_lineno Hline.
  - unfold NamingConventionRule.apply in H.
    destruct (findall m (NamingConventionRule.var_matcher L)) as [vars|]; cbn [obind] in H;
      [|discriminate].
    destruct (omap (NamingConventionRule.var_issue L) vars) as [var_issues|] eqn:Hvars;
      cbn [obind] in H; [|discriminate].
    destruct (findall m (NamingConventionRule.func_matcher L)) as [funcs|]; cbn [obind] in H;
      [|discriminate].
    destruct (omap (NamingConventionRule.func_issue L) funcs) as [func_issues|] eqn:Hfuncs;
      cbn [obind] in H; [|discriminate].
    inversion H.
    assert (Hv : var_issues = []).
    { eapply omap_of_failing; [|exact Hvars]. intros mt i.
      unfold NamingConventionRule.var_issue. issue_needs_lineno Hline. }
    assert (Hf : func_issues = []).
    { eapply omap_of_failing; [|exact Hfuncs]. intros mt i.
      unfold NamingConventionRule.func_issue. issue_needs_lineno Hline. }
    rewrite Hv, Hf. reflexivity.
  - unfold UnusedImportRule.apply in H.
    destruct (findall m UnusedImportRule.is_import) as [imps|]; cbn [obind] in H;
      [|discriminate].
    destruct (UnusedImportRule.collect 0 imps []) as [imports|]; cbn [obind] in H;
      [|discriminate].
    destruct (findall m UnusedImportRule.is_name) as [name_nodes|]; cbn [obind] in H;
      [|discriminate].
    eapply omap_of_failing; [|exact H]. intros [a imp] i.
    unfold UnusedImportRule.issue_of. issue_needs_lineno Hline.
  - unfold RepeatedCalculationRule.apply in H.
    destruct (Libcst.list_comp_element L); [discriminate|].
    destruct (findall m RepeatedCalculationRule.repeated_call_matcher) as [ms|];
      cbn [obind] in H; [|discriminate].
    destruct (omap (RepeatedCalculationRule.issues_of L) ms) as [per_match|] eqn:Hper;
      cbn [obind] in H; [|discriminate].
    inversion H. apply concat_of_empty.
    eapply omap_Forall; [|exact Hper].
    intros mt found. apply repeated_issues_need_lineno. exact Hline.
Qed.

Lemma no_rule_reports_without_positions_witness :
  UnusedImportRule.apply unpositioned import_module = Return [] /\
  @nil Issue.t = [].
Proof.
  assert (H : UnusedImportRule.apply unpositioned import_module = Return []).
  { vm_compute. reflexivity. }
  split; [exact H|].
  exact (no_rule_reports_without_positions unpositioned import_module []
           (fun n => eq_refl) (or_intror (or_intror (or_intror (or_introl H))))).
Defined.
